(** * openapi-express-ts: metadata store, annotation layer, specification
      builder, route binder and schema inference engine.

    The development follows the TypeScript sources:
    - [metadata.ts]   the process-wide [MetadataStorage] singleton;
    - [decorators.ts] [Controller], the method decorators, and the schema
                      inference engine ([getTypeSchema] and its helpers);
    - [openapi.ts]    [generateOpenAPISpec];
    - [register.ts]   the per-request wrapper installed by
                      [registerControllers].

    JavaScript strings are modelled by [string] (one character per code
    unit), JavaScript objects used as dictionaries by [gmap string _] when
    only their content matters and by association lists when insertion
    order is part of what the code builds. *)

From Stdlib Require Import ZArith String Ascii List Bool Lia.
From stdpp Require Import base option list strings gmap fin_maps pretty.

Open Scope stdpp_scope.

Set Warnings "-register-all".

(* ================================================================== *)
(** * Part I. Definitions                                               *)
(* ================================================================== *)

(** ** String primitives used by the sources *)

Definition isSlash (c : ascii) : bool := Ascii.eqb c "/"%char.

(** [s.startsWith(p)] *)
Fixpoint startsWith (p s : string) : bool :=
  match p, s with
  | EmptyString, _ => true
  | String a p', String b s' => Ascii.eqb b a && startsWith p' s'
  | String _ _, EmptyString => false
  end.

(** [s.includes(sub)] *)
Definition includes (sub s : string) : bool :=
  match String.index 0 sub s with Some _ => true | None => false end.

(** [s.replace(/\/+/g, '/')]: the scanner of the global regular expression
    [/\/+/].  [inRun] records that the previous character belongs to the
    match in progress, whose replacement ['/'] has already been written. *)
Fixpoint replaceSlashRunsFrom (inRun : bool) (s : string) : string :=
  match s with
  | EmptyString => EmptyString
  | String c rest =>
      if isSlash c
      then (if inRun then replaceSlashRunsFrom true rest
            else String "/" (replaceSlashRunsFrom true rest))
      else String c (replaceSlashRunsFrom false rest)
  end.

Definition replaceSlashRuns (s : string) : string := replaceSlashRunsFrom false s.

(** The wording of the specification, "every run of repeated [/] collapsed
    to a single [/]": a [/] that is directly followed by another [/] is
    dropped, every other character is kept. *)
Fixpoint collapseRepeatedSlashes (s : string) : string :=
  match s with
  | EmptyString => EmptyString
  | String c rest =>
      if isSlash c && startsWith "/" rest
      then collapseRepeatedSlashes rest
      else String c (collapseRepeatedSlashes rest)
  end.

(** No two adjacent [/]. *)
Fixpoint noRepeatedSlash (s : string) : bool :=
  match s with
  | EmptyString => true
  | String c rest => negb (isSlash c && startsWith "/" rest) && noRepeatedSlash rest
  end.

(** [s.includes('/')] *)
Fixpoint containsSlash (s : string) : bool :=
  match s with
  | EmptyString => false
  | String c rest => isSlash c || containsSlash rest
  end.

(** [p.startsWith('/') ? p : `/${p}`], the normalisation applied by
    [Controller], by [generateOpenAPISpec] and by [registerControllers]. *)
Definition withLeadingSlash (p : string) : string :=
  if startsWith "/" p then p else "/" +:+ p.

(** "Starts with exactly one leading [/]". *)
Definition exactlyOneLeadingSlash (s : string) : bool :=
  startsWith "/" s && negb (startsWith "//" s).

(** JavaScript [a || d] on an optional string: [undefined] and [''] are falsy. *)
Definition orString (a : option string) (d : string) : string :=
  match a with
  | Some s => if String.eqb s "" then d else s
  | None => d
  end.

(** ** JavaScript values

    Type descriptors are ordinary JavaScript values: the constructors that
    the TypeScript compiler records as [design:paramtypes] and
    [design:returntype], [undefined] when nothing was recorded, or any
    datum found while walking instances.  Functions and data objects live
    in a heap and are referred to by identity.  Numbers are kept by their
    integer value: only their being a number and being zero or not matter
    to the code. *)

Inductive Builtin :=
| BString | BNumber | BBigInt | BBoolean | BDate
| BBuffer | BArrayBuffer | BArray | BObject.

Inductive value :=
| VUndefined
| VNull
| VBoolean (b : bool)
| VNumber (n : Z)
| VBigInt (n : Z)
| VString (s : string)
| VSymbol (description : string)
| VBuiltin (b : Builtin)     (* one of the global constructors tested by [===] *)
| VFunction (f : nat)        (* any other function or class, by identity *)
| VObject (o : nat).         (* array, Date instance or other object, by identity *)

Global Instance Builtin_eq_dec : EqDecision Builtin.
Proof. solve_decision. Defined.

Global Instance value_eq_dec : EqDecision value.
Proof. solve_decision. Defined.

(** JavaScript truthiness ([!type], [a || b], [if (x)]). *)
Definition truthy (v : value) : bool :=
  match v with
  | VUndefined | VNull => false
  | VBoolean b => b
  | VNumber n | VBigInt n => negb (Z.eqb n 0)
  | VString s => negb (String.eqb s "")
  | VSymbol _ | VBuiltin _ | VFunction _ | VObject _ => true
  end.

(** ** Schema objects ([types.ts])

    The constructors are the members of the [SchemaObject] union; the
    [type] tag is the constructor, and only the fields that this code base
    ever writes are kept. *)

Inductive SchemaObject :=
| StringSchema (format : option string)           (* {type:'string', format?} *)
| NumberSchema                                    (* {type:'number'} *)
| BooleanSchema                                   (* {type:'boolean'} *)
| ArraySchema (items : SchemaObject)              (* {type:'array', items} *)
| ObjectSchema (properties : option (list (string * SchemaObject)))
               (description : option string).     (* {type:'object', properties?, description?} *)

(** [{ type: 'object' }] *)
Definition plainObjectSchema : SchemaObject := ObjectSchema None None.

(** ** Metadata records ([types.ts]) *)

Inductive HttpMethod := GET | POST | PUT | DELETE | PATCH | OPTIONS | HEAD.

Global Instance HttpMethod_eq_dec : EqDecision HttpMethod.
Proof. solve_decision. Defined.

(** The string that a method is as a JavaScript value, used as property key. *)
Definition methodKey (m : HttpMethod) : string :=
  match m with
  | GET => "get" | POST => "post" | PUT => "put" | DELETE => "delete"
  | PATCH => "patch" | OPTIONS => "options" | HEAD => "head"
  end.

Inductive ParameterLocation := InQuery | InPath | InBody | InHeader.

Global Instance ParameterLocation_eq_dec : EqDecision ParameterLocation.
Proof. solve_decision. Defined.

Record ParameterMetadata := {
  param_name : string;
  param_in : ParameterLocation;
  param_required : option bool;
  param_type : string;
  param_description : option string;
  param_schema : option SchemaObject;
}.

Record MediaType := { media_schema : option SchemaObject }.

Record ResponseObject := {
  response_description : string;
  response_content : option (gmap string MediaType);
}.

(** [ResponseMetadata]: responses keyed by status code. *)
Abbreviation ResponseMetadata := (gmap string ResponseObject).

Record RouteMetadata := {
  route_path : string;
  route_method : HttpMethod;
  route_handlerName : string;
  route_description : option string;
  route_summary : option string;
  route_tags : option (list string);
  route_parameters : option (list ParameterMetadata);
  route_responses : option ResponseMetadata;
}.

Record ControllerMetadata := {
  controller_path : string;
  controller_description : option string;
  controller_tags : option (list string);
}.

(** [Partial<ControllerMetadata>] and [Partial<RouteMetadata>]: every key
    may be absent ([None]).  A key of an optional field may also be present
    with the value [undefined] ([Some None]); object spread copies it. *)
Record ControllerOptions := {
  copt_path : option string;
  copt_description : option (option string);
  copt_tags : option (option (list string));
}.

Record RouteOptions := {
  ropt_path : option string;
  ropt_method : option HttpMethod;
  ropt_handlerName : option string;
  ropt_description : option (option string);
  ropt_summary : option (option string);
  ropt_tags : option (option (list string));
  ropt_parameters : option (option (list ParameterMetadata));
  ropt_responses : option (option ResponseMetadata);
}.

Definition noControllerOptions : ControllerOptions :=
  {| copt_path := None; copt_description := None; copt_tags := None |}.

Definition noRouteOptions : RouteOptions :=
  {| ropt_path := None; ropt_method := None; ropt_handlerName := None;
     ropt_description := None; ropt_summary := None; ropt_tags := None;
     ropt_parameters := None; ropt_responses := None |}.

(** [{ ...base, ...options }] on one key: the option's value when the key
    is present in [options], the earlier value otherwise. *)
Definition spread {A} (earlier : A) (override : option A) : A :=
  match override with Some a => a | None => earlier end.

(** ** The metadata store ([metadata.ts])

    A JavaScript [Map] keyed by class identity: [set] on a key already
    present replaces the value in place, otherwise it appends; iteration
    follows insertion order. *)

Definition ClassId : Type := nat.

Section JsMap.
Context {V : Type}.

Definition JsMap := list (ClassId * V).

Fixpoint jsmap_get (k : ClassId) (m : JsMap) : option V :=
  match m with
  | [] => None
  | (k', v) :: rest => if Nat.eqb k k' then Some v else jsmap_get k rest
  end.

Fixpoint jsmap_set (k : ClassId) (v : V) (m : JsMap) : JsMap :=
  match m with
  | [] => [(k, v)]
  | (k', v') :: rest =>
      if Nat.eqb k k' then (k, v) :: rest else (k', v') :: jsmap_set k v rest
  end.
End JsMap.
Arguments JsMap : clear implicits.

Record OpenAPIMetadata := {
  controllers : JsMap ControllerMetadata;
  routes : JsMap (list RouteMetadata);
}.

(** The state of the process as far as the store is concerned: the static
    field [MetadataStorage.instance], unset until the first access. *)
Record Process := { instance : option OpenAPIMetadata }.

Definition emptyMetadata : OpenAPIMetadata := {| controllers := []; routes := [] |}.

(** Computations over the process state. *)
Definition Store (A : Type) : Type := Process -> A * Process.

Definition ret {A} (a : A) : Store A := fun p => (a, p).
Definition bind {A B} (m : Store A) (k : A -> Store B) : Store B :=
  fun p => let '(a, p') := m p in k a p'.

Notation "x <- m ;; k" := (bind m (fun x => k))
  (at level 100, m at next level, right associativity).

(** [MetadataStorage.getInstance()]: creates the instance on first use and
    hands back the object that holds the maps. *)
Definition getInstance : Store OpenAPIMetadata :=
  fun p =>
    match instance p with
    | Some m => (m, p)
    | None => (emptyMetadata, {| instance := Some emptyMetadata |})
    end.

(** [getInstance().getMetadata()] *)
Definition getMetadata : Store OpenAPIMetadata := getInstance.

(** [getInstance().addControllerMetadata(target, metadata)] *)
Definition addControllerMetadata (target : ClassId) (metadata : ControllerMetadata)
  : Store unit :=
  m <- getInstance ;;
  fun _ => (tt, {| instance := Some {| controllers := jsmap_set target metadata (controllers m);
                                       routes := routes m |} |}).

(** [getInstance().addRouteMetadata(target, metadata)] *)
Definition addRouteMetadata (target : ClassId) (metadata : RouteMetadata) : Store unit :=
  m <- getInstance ;;
  let existing := default [] (jsmap_get target (routes m)) in
  fun _ => (tt, {| instance := Some {| controllers := controllers m;
                                       routes := jsmap_set target (existing ++ [metadata]) (routes m) |} |}).

(** What the store holds, the instance being created or not. *)
Definition storedMetadata (p : Process) : OpenAPIMetadata :=
  default emptyMetadata (instance p).

(** ** The annotation layer ([decorators.ts]) *)

(** [Controller(path, options)(target)] *)
Definition Controller (path : string) (options : ControllerOptions) (target : ClassId)
  : Store unit :=
  let controllerPath := withLeadingSlash path in
  addControllerMetadata target
    {| controller_path := spread controllerPath (copt_path options);
       controller_description := spread None (copt_description options);
       controller_tags := spread None (copt_tags options) |}.

(** What reflection hands to a method decorator applied to
    [(target, propertyKey, descriptor)]. *)
Record MethodReflection := {
  refl_target : ClassId;                              (* target.constructor *)
  refl_propertyKey : string;
  refl_paramTypes : list value;                       (* design:paramtypes || [] *)
  refl_returnType : value;                            (* design:returntype *)
  refl_decoratedParameters : list ParameterMetadata;  (* custom:parameters || [] *)
  refl_pendingResponses : ResponseMetadata;           (* openapi:responses || {} *)
  refl_methodText : option string;                    (* descriptor.value.toString(); none when
                                                         the descriptor has no [value] and the
                                                         call throws *)
}.

Section MethodDecorators.
(** The schema engine enters route registration only through the schemas
    it returns, which are stored without being looked at.  [typeSchema t]
    stands for the result of [getTypeSchema(t)] and [successSchema] for the
    schema computed by the response heuristics (the body of the branch
    guarded by [!hasSuccessResponse && returnType], every path of which
    ends in an assignment to [schema]). *)
Variable typeSchema : value -> SchemaObject.
Variable successSchema :
  HttpMethod -> MethodReflection -> list ParameterMetadata -> SchemaObject.

(** [method === 'post' || method === 'put' || method === 'patch'] *)
Definition acceptsBody (method : HttpMethod) : bool :=
  match method with POST | PUT | PATCH => true | _ => false end.

(** The parameters of the route: the decorated ones, to which the
    backward-compatible body parameter made of the first parameter type
    is pushed when there is none. *)
Definition routeParameters (method : HttpMethod) (r : MethodReflection)
  : list ParameterMetadata :=
  let parameters := refl_decoratedParameters r in
  if Nat.eqb (length parameters) 0 && acceptsBody method
     && Nat.ltb 0 (length (refl_paramTypes r))
  then
    let bodyType := default VUndefined (head (refl_paramTypes r)) in
    parameters ++ [ {| param_name := "body"; param_in := InBody;
                       param_required := Some true; param_type := "object";
                       param_description := Some "Request body";
                       param_schema := Some (typeSchema bodyType) |} ]
  else parameters.

(** [responses['200'] || responses['201'] ||
     (method === 'post' ? responses['201'] : responses['200'])] *)
Definition hasSuccessResponse (method : HttpMethod) (responses : ResponseMetadata) : bool :=
  bool_decide (is_Some (responses !! "200"))
  || bool_decide (is_Some (responses !! "201"))
  || (if decide (method = POST)
      then bool_decide (is_Some (responses !! "201"))
      else bool_decide (is_Some (responses !! "200"))).

Definition successCode (method : HttpMethod) : string :=
  if decide (method = POST) then "201" else "200".

Definition successDescription (method : HttpMethod) : string :=
  if decide (method = POST) then "Created successfully" else "Successful response".

(** The [responses] object built by the decorator. *)
Definition routeResponses (method : HttpMethod) (r : MethodReflection)
    (parameters : list ParameterMetadata) : ResponseMetadata :=
  let responses := refl_pendingResponses r in   (* Object.assign({}, pendingResponses) *)
  if negb (hasSuccessResponse method responses) && truthy (refl_returnType r)
  then <[ successCode method :=
            {| response_description := successDescription method;
               response_content :=
                 Some {[ "application/json" :=
                           {| media_schema := Some (successSchema method r parameters) |} ]} |} ]>
         responses
  else responses.

(** [path === '/' ? '/' : path.startsWith('/') ? path : `/${path}`] *)
Definition decoratedRoutePath (path : string) : string :=
  if String.eqb path "/" then "/" else withLeadingSlash path.

(** The record handed to [addRouteMetadata]:
    [{ method, path, handlerName, parameters, responses, ...options }]. *)
Definition decoratedRoute (method : HttpMethod) (path : string) (options : RouteOptions)
    (r : MethodReflection) : RouteMetadata :=
  let parameters := routeParameters method r in
  let responses := routeResponses method r parameters in
  {| route_method := spread method (ropt_method options);
     route_path := spread (decoratedRoutePath path) (ropt_path options);
     route_handlerName := spread (refl_propertyKey r) (ropt_handlerName options);
     route_parameters := spread (Some parameters) (ropt_parameters options);
     route_responses := spread (Some responses) (ropt_responses options);
     route_description := spread None (ropt_description options);
     route_summary := spread None (ropt_summary options);
     route_tags := spread None (ropt_tags options) |}.

(** [createMethodDecorator(method)(path, options)(target, propertyKey, descriptor)] *)
Definition createMethodDecorator (method : HttpMethod) (path : string)
    (options : RouteOptions) (r : MethodReflection) : Store unit :=
  addRouteMetadata (refl_target r) (decoratedRoute method path options r).

Definition Get := createMethodDecorator GET.
Definition Post := createMethodDecorator POST.
Definition Put := createMethodDecorator PUT.
Definition Delete := createMethodDecorator DELETE.
Definition Patch := createMethodDecorator PATCH.
End MethodDecorators.

(** ** The specification builder ([openapi.ts]) *)

Record Server := { server_url : string; server_description : option string }.

Record OpenAPIOptions := {
  opt_title : string;
  opt_version : string;
  opt_description : option string;
  opt_base : option string;
  opt_servers : option (list Server);
}.

Record RequestBody := {
  body_description : string;
  body_required : bool;
  body_content : gmap string MediaType;
}.

(** [routeSpec] *)
Record Operation := {
  op_summary : option string;
  op_description : option string;
  op_tags : list string;
  op_responses : ResponseMetadata;
  op_parameters : option (list ParameterMetadata);
  op_requestBody : option RequestBody;
}.

Record Info := {
  info_title : string;
  info_version : string;
  info_description : option string;
}.

Abbreviation PathItem := (gmap string Operation).

Record Document := {
  doc_openapi : string;
  doc_info : Info;
  doc_servers : list Server;
  doc_paths : gmap string PathItem;
  doc_schemas : gmap string SchemaObject;          (* components.schemas *)
}.

Definition isBodyParameter (p : ParameterMetadata) : bool :=
  bool_decide (param_in p = InBody).

(** [{ '200': { description: 'Successful response' } }] *)
Definition defaultResponses : ResponseMetadata :=
  {[ "200" := {| response_description := "Successful response";
                 response_content := None |} ]}.

(** The [requestBody] made of a body parameter. *)
Definition requestBodyOf (bodyParam : ParameterMetadata) : RequestBody :=
  {| body_description := orString (param_description bodyParam) "Request body";
     body_required := match param_required bodyParam with
                      | Some false => false
                      | _ => true
                      end;                                  (* required !== false *)
     body_content :=
       {[ "application/json" :=
            {| media_schema := Some (default plainObjectSchema (param_schema bodyParam)) |} ]} |}.

(** The [routeSpec] object of one route. *)
Definition routeSpec (controllerMetadata : ControllerMetadata) (route : RouteMetadata)
  : Operation :=
  let parameters := default [] (route_parameters route) in
  let bodyParams := filter (fun p => isBodyParameter p = true) parameters in
  let otherParams := filter (fun p => isBodyParameter p = false) parameters in
  {| op_summary := route_summary route;
     op_description := route_description route;
     op_tags := default [] (controller_tags controllerMetadata)
                ++ default [] (route_tags route);
     op_responses := default defaultResponses (route_responses route);
     op_parameters := match otherParams with [] => None | _ => Some otherParams end;
     op_requestBody := match bodyParams with
                       | [] => None
                       | bodyParam :: _ => Some (requestBodyOf bodyParam)
                       end |}.

(** [fullPath] of a route under a controller. *)
Definition fullPath (basePrefix basePath : string) (route : RouteMetadata) : string :=
  let routePath := withLeadingSlash (route_path route) in
  replaceSlashRuns
    (basePrefix +:+ basePath +:+ (if String.eqb routePath "/" then "" else routePath)).

(** The body of [routes.forEach]. *)
Definition addRoute (basePrefix basePath : string) (controllerMetadata : ControllerMetadata)
    (paths : gmap string PathItem) (route : RouteMetadata) : gmap string PathItem :=
  let key := fullPath basePrefix basePath route in
  let paths := match paths !! key with
               | Some _ => paths
               | None => <[ key := ∅ ]> paths               (* spec.paths[fullPath] = {} *)
               end in
  <[ key := <[ methodKey (route_method route) := routeSpec controllerMetadata route ]>
              (default ∅ (paths !! key)) ]> paths.

(** The body of [metadata.controllers.forEach]. *)
Definition addController (options : OpenAPIOptions) (metadata : OpenAPIMetadata)
    (paths : gmap string PathItem) (entry : ClassId * ControllerMetadata)
  : gmap string PathItem :=
  let '(controller, controllerMetadata) := entry in
  let basePath := withLeadingSlash (controller_path controllerMetadata) in
  let routes := default [] (jsmap_get controller (routes metadata)) in
  let basePrefix := orString (opt_base options) "" in
  fold_left (addRoute basePrefix basePath controllerMetadata) routes paths.

Definition buildDocument (options : OpenAPIOptions) (metadata : OpenAPIMetadata) : Document :=
  {| doc_openapi := "3.0.0";
     doc_info := {| info_title := opt_title options;
                    info_version := opt_version options;
                    info_description := opt_description options |};
     doc_servers := default [ {| server_url := "/"; server_description := None |} ]
                            (opt_servers options);
     doc_paths := fold_left (addController options metadata) (controllers metadata) ∅;
     doc_schemas := ∅ |}.

(** [generateOpenAPISpec(options)] *)
Definition generateOpenAPISpec (options : OpenAPIOptions) : Store Document :=
  metadata <- getMetadata ;;
  ret (buildDocument options metadata).

(** ** The route binder ([register.ts])

    The wrapper that [registerControllers] installs for every route:
    [[
      async (req, res) => {
        try {
          const result = await Promise.resolve(controllerInstance[route.handlerName](req, res));
          if (result !== undefined) { res.send(result); }
        } catch (err) {
          const error = err as Error;
          res.status(500).send(error.message || 'Internal Server Error');
        }
      }
    ]] *)

(** The response object of the web framework, as far as the wrapper uses
    it: the status code and the body once one has been sent. *)
Record Response := { res_statusCode : nat; res_body : option value }.

Definition freshResponse : Response := {| res_statusCode := 200; res_body := None |}.

(** What matters of the request to the way the framework sends a body:
    its method, and whether it carries a conditional header
    ([If-None-Match], [If-Modified-Since]). *)
Record Request := { req_method : HttpMethod; req_conditional : bool }.

(** A value given to [throw] or to a promise rejection, seen through the
    only thing the wrapper does with it, reading its [message] property. *)
Inductive Raised :=
| RaisedNullish                         (* [undefined] or [null]: reading a property throws *)
| RaisedWithMessage (message : value).  (* any other value; [VUndefined] when it has no [message] *)

(** [new Error(text)] *)
Definition Error (text : string) : Raised := RaisedWithMessage (VString text).

(** How a call [handler(req, res)] ends. *)
Inductive HandlerOutcome :=
| Returns (v : value)             (* a value that is not a promise *)
| Throws (e : Raised)
| ResolvesTo (v : value)          (* a promise, fulfilled with [v] *)
| RejectsWith (e : Raised)        (* a promise, rejected with [e] *)
| NeverSettles.                   (* a promise that stays pending *)

(** A handler may use [res] itself before it ends. *)
Definition Handler := Response -> HandlerOutcome * Response.

(** How the wrapper's own promise ends. *)
Inductive RequestOutcome :=
| Completed (res : Response)      (* fulfilled *)
| Unhandled (res : Response)      (* rejected: an error left the [catch] block *)
| Hanging (res : Response).       (* still awaiting the handler *)

(** [res.status(code)] *)
Definition status (code : nat) (res : Response) : Response :=
  {| res_statusCode := code; res_body := res_body res |}.

(** How a call [res.send(body)] ends. *)
Inductive SendResult :=
| Sent (res : Response)
| SendThrows (e : Raised) (res : Response).

(** The error of the framework when a header is set on a response that
    has been sent. *)
Definition headersSentError : Raised :=
  Error "Cannot set headers after they are sent to the client".

(** The status codes with which a text travels as it is given: the
    framework drops the body for 204, 205 and 304, the platform drops it
    for 1xx and refuses codes outside 100..999. *)
Definition plainStatus (code : nat) : bool :=
  Nat.leb 200 code && Nat.leb code 999
  && negb (Nat.eqb code 204) && negb (Nat.eqb code 205) && negb (Nat.eqb code 304).

(** The requests for which a text travels as it is given: a [HEAD]
    request gets no body, and a conditional one may be answered 304. *)
Definition plainRequest (req : Request) : bool :=
  negb (bool_decide (req_method req = HEAD)) && negb (req_conditional req).

Section Binder.
(** [res.send] belongs to the web framework.  Two of its cases are fixed
    here: a text on a response not yet sent, with a plain status code and
    for a plain request, is sent as it is; a text on a response already
    sent makes the framework throw when it sets the headers.  Whatever
    the framework does in any other case (a number is taken for a status
    code, other values are serialised or refused) is left open. *)
Variable sendElse : value -> Response -> SendResult.
Variable req : Request.

(** [res.send(body)] *)
Definition send (body : value) (res : Response) : SendResult :=
  match body with
  | VString text =>
      match res_body res with
      | Some _ => SendThrows headersSentError res
      | None =>
          if plainStatus (res_statusCode res) && plainRequest req
          then Sent {| res_statusCode := res_statusCode res; res_body := Some body |}
          else sendElse body res
      end
  | _ => sendElse body res
  end.

(** The [catch] block.  In [res.status(500).send(error.message || ...)]
    the call [res.status(500)] is evaluated before the argument. *)
Definition onError (err : Raised) (res : Response) : RequestOutcome :=
  let res := status 500 res in
  match err with
  | RaisedNullish => Unhandled res                   (* [error.message] throws a TypeError *)
  | RaisedWithMessage message =>
      let body := if truthy message then message else VString "Internal Server Error" in
      match send body res with
      | Sent res => Completed res
      | SendThrows _ res => Unhandled res
      end
  end.

(** The [try] block after the awaited value is known. *)
Definition onResult (result : value) (res : Response) : RequestOutcome :=
  if decide (result = VUndefined) then Completed res
  else match send result res with
       | Sent res => Completed res
       | SendThrows e res => onError e res
       end.

(** The wrapper applied to a request. *)
Definition dispatch (handler : Handler) (res : Response) : RequestOutcome :=
  let '(outcome, res) := handler res in
  match outcome with
  | Returns v | ResolvesTo v => onResult v res
  | Throws e | RejectsWith e => onError e res
  | NeverSettles => Hanging res
  end.
End Binder.

(** ** Text scanning used by the schema engine

    The regular expressions of [decorators.ts], written as the scanners
    they denote. *)

Definition isSpace (c : ascii) : bool :=
  let n := nat_of_ascii c in
  (Nat.leb 9 n && Nat.leb n 13) || Nat.eqb n 32 || Nat.eqb n 160.

(** [[a-zA-Z0-9_]] *)
Definition isWordChar (c : ascii) : bool :=
  let n := nat_of_ascii c in
  (Nat.leb 97 n && Nat.leb n 122) || (Nat.leb 65 n && Nat.leb n 90)
  || (Nat.leb 48 n && Nat.leb n 57) || Nat.eqb n 95.

(** [[0-9]] *)
Definition isDigit (c : ascii) : bool :=
  let n := nat_of_ascii c in Nat.leb 48 n && Nat.leb n 57.

(** The rest of [s] after the prefix [p], when [s] starts with [p]. *)
Fixpoint stripPrefix (p s : string) : option string :=
  match p, s with
  | EmptyString, _ => Some s
  | String a p', String b s' => if Ascii.eqb a b then stripPrefix p' s' else None
  | String _ _, EmptyString => None
  end.

(** The longest prefix made of characters satisfying [f], and the rest. *)
Fixpoint span (f : ascii -> bool) (s : string) : string * string :=
  match s with
  | EmptyString => (EmptyString, EmptyString)
  | String c rest =>
      if f c then let '(taken, remaining) := span f rest in (String c taken, remaining)
      else (EmptyString, s)
  end.

(** The characters before the first [stop], if [stop] occurs. *)
Fixpoint upTo (stop : ascii) (s : string) : option string :=
  match s with
  | EmptyString => None
  | String c rest =>
      if Ascii.eqb c stop then Some EmptyString
      else String c <$> upTo stop rest
  end.

Fixpoint trimStart (s : string) : string :=
  match s with
  | String c rest => if isSpace c then trimStart rest else s
  | EmptyString => EmptyString
  end.

Fixpoint trimEnd (s : string) : string :=
  match s with
  | EmptyString => EmptyString
  | String c rest =>
      let rest' := trimEnd rest in
      if isSpace c && String.eqb rest' "" then EmptyString else String c rest'
  end.

(** [s.trim()] *)
Definition trim (s : string) : string := trimEnd (trimStart s).

(** [s.split(',')] *)
Fixpoint splitComma (s : string) : list string :=
  match s with
  | EmptyString => [EmptyString]
  | String c rest =>
      if Ascii.eqb c ","%char then EmptyString :: splitComma rest
      else match splitComma rest with
           | piece :: pieces => String c piece :: pieces
           | [] => [String c EmptyString]
           end
  end.

(** Group 1 of [typeStr.match(/Array<([^>]+)>/)]. *)
Definition genericAt (s : string) : option string :=
  match stripPrefix "Array<" s with
  | Some rest =>
      match upTo ">"%char rest with
      | Some group => if String.eqb group "" then None else Some group
      | None => None
      end
  | None => None
  end.

Fixpoint matchGeneric (s : string) : option string :=
  match genericAt s with
  | Some group => Some group
  | None => match s with
            | EmptyString => None
            | String _ rest => matchGeneric rest
            end
  end.

(** Group 1 of [/this\.([a-zA-Z0-9_]+)\s*=/] matched at the start of [s]. *)
Definition thisAssignmentAt (s : string) : option string :=
  match stripPrefix "this." s with
  | Some rest =>
      let '(name, after) := span isWordChar rest in
      if String.eqb name "" then None
      else if startsWith "=" (snd (span isSpace after)) then Some name else None
  | None => None
  end.

(** The property names of [ctorString.match(/this\.([a-zA-Z0-9_]+)\s*=/g)],
    in order.  Two matches never overlap, so every position can be tried. *)
Fixpoint thisAssignments (s : string) : list string :=
  match s with
  | EmptyString => []
  | String _ rest =>
      match thisAssignmentAt s with
      | Some name => name :: thisAssignments rest
      | None => thisAssignments rest
      end
  end.

(** Group 1 of the match of [funcString] against "an opening parenthesis,
    any characters other than a closing parenthesis, a closing
    parenthesis": the text between the first parenthesis that is closed
    later and the next closing one. *)
Fixpoint firstParenGroup (s : string) : option string :=
  match s with
  | EmptyString => None
  | String c rest =>
      if Ascii.eqb c "("%char
      then match upTo ")"%char rest with
           | Some group => Some group
           | None => firstParenGroup rest
           end
      else firstParenGroup rest
  end.

(** The parameter names kept by [tryExtractPropertiesFromFunction]. *)
Definition functionParameters (funcString : string) : list string :=
  match firstParenGroup funcString with
  | Some group =>
      if String.eqb group "" then []
      else filter (fun param => negb (String.eqb param "") && negb (includes "=" param) = true)
                  (trim <$> splitComma group)
  | None => []
  end.

(** ** The heap seen by the schema engine *)

Record FunctionObject := {
  fn_name : string;                               (* type.name *)
  fn_text : string;                               (* type.toString() *)
  fn_prototype : bool;                            (* type.prototype is set *)
  fn_design_properties : list (string * value);   (* own keys of getMetadata('design:properties', type) || {} *)
  fn_design_type : list (string * value);         (* own keys of getMetadata('design:type', type) || {} *)
  fn_construct : option nat;                      (* new type(): the instance, [None] when it throws *)
}.

Record PlainObject := {
  obj_text : string;                              (* obj.toString() *)
  obj_class : value;                              (* the constructor found on the prototype *)
  obj_props : list (string * value);              (* own properties, in order *)
}.

Inductive DataObject :=
| DArray (text : string) (elements : list value)  (* an array and what its toString() returns *)
| DDate (text : string)                           (* a Date instance *)
| DPlain (o : PlainObject).

Record World := {
  functions : list FunctionObject;
  objects : list DataObject;
  globals : string -> value;                      (* global[name] for names that are not built in *)
}.

(** What stands behind an identity that the heap does not describe: a
    native function without properties, an empty object. *)
Definition opaqueFunction : FunctionObject :=
  {| fn_name := ""; fn_text := "function () { [native code] }"; fn_prototype := false;
     fn_design_properties := []; fn_design_type := []; fn_construct := None |}.

Definition opaqueObject : DataObject :=
  DPlain {| obj_text := "[object Object]"; obj_class := VBuiltin BObject; obj_props := [] |}.

Definition functionAt (W : World) (f : nat) : FunctionObject :=
  default opaqueFunction (functions W !! f).

Definition objectAt (W : World) (o : nat) : DataObject :=
  default opaqueObject (objects W !! o).

Definition builtinName (b : Builtin) : string :=
  match b with
  | BString => "String" | BNumber => "Number" | BBigInt => "BigInt"
  | BBoolean => "Boolean" | BDate => "Date" | BBuffer => "Buffer"
  | BArrayBuffer => "ArrayBuffer" | BArray => "Array" | BObject => "Object"
  end.

(** [global[name]] *)
Definition globalLookup (W : World) (name : string) : value :=
  match list_find (fun b => builtinName b = name)
          [BString; BNumber; BBigInt; BBoolean; BDate; BBuffer; BArrayBuffer; BArray; BObject] with
  | Some (_, b) => VBuiltin b
  | None => globals W name
  end.

(** The value of property [key] among own properties. *)
Fixpoint ownProperty (key : string) (props : list (string * value)) : value :=
  match props with
  | [] => VUndefined
  | (k, v) :: rest => if String.eqb k key then v else ownProperty key rest
  end.

(** [type.name === 'Array'] *)
Definition nameIsArray (W : World) (type : value) : bool :=
  match type with
  | VBuiltin b => String.eqb (builtinName b) "Array"
  | VFunction f => String.eqb (fn_name (functionAt W f)) "Array"
  | VObject o =>
      match objectAt W o with
      | DPlain p => bool_decide (ownProperty "name" (obj_props p) = VString "Array")
      | _ => false
      end
  | _ => false
  end.

(** [type.toString()] *)
Definition textOf (W : World) (type : value) : string :=
  match type with
  | VUndefined => "undefined"
  | VNull => "null"
  | VBoolean b => if b then "true" else "false"
  | VNumber n | VBigInt n => pretty n
  | VString s => s
  | VSymbol description => "Symbol(" +:+ description +:+ ")"
  | VBuiltin b => "function " +:+ builtinName b +:+ "() { [native code] }"
  | VFunction f => fn_text (functionAt W f)
  | VObject o =>
      match objectAt W o with
      | DArray text _ => text
      | DDate text => text
      | DPlain p => obj_text p
      end
  end.

(** [typeof v === 'function'] *)
Definition isFunction (v : value) : bool :=
  match v with VBuiltin _ | VFunction _ => true | _ => false end.

(** [isArrayType(type)] *)
Definition isArrayType (W : World) (type : value) : bool :=
  bool_decide (type = VBuiltin BArray)
  || (truthy type && nameIsArray W type)
  || (truthy type && includes "Array" (textOf W type)).

(** [value.constructor] of an object. *)
Definition constructorOf (W : World) (o : nat) : value :=
  match objectAt W o with
  | DArray _ _ => VBuiltin BArray
  | DDate _ => VBuiltin BDate
  | DPlain p =>
      match list_find (fun kv => fst kv = "constructor") (obj_props p) with
      | Some (_, (_, v)) => v
      | None => obj_class p
      end
  end.

(** The keys of [Object.keys(obj)] with their values. *)
Definition enumerableEntries (W : World) (o : nat) : list (string * value) :=
  match objectAt W o with
  | DArray _ elements => imap (fun i v => (pretty i, v)) elements
  | DDate _ => []
  | DPlain p => obj_props p
  end.

(** The names of [Object.getOwnPropertyNames(instance)] with their values. *)
Definition ownEntries (W : World) (o : nat) : list (string * value) :=
  match objectAt W o with
  | DArray _ elements =>
      imap (fun i v => (pretty i, v)) elements
      ++ [("length", VNumber (Z.of_nat (length elements)))]
  | DDate _ => []
  | DPlain p => obj_props p
  end.

(** ** The schema inference engine ([decorators.ts])

    [schemaCache] is a [Map] from type descriptors to schemas, shared by
    all calls.  A call either returns or throws; the cache is threaded
    through and survives an exception.  The exceptions are those of a
    constructor called without arguments and the [RangeError] of a call
    stack that is full; every [catch] of the engine catches both. *)

Definition Cache := list (value * SchemaObject).

(** [schemaCache.get(type)] *)
Fixpoint cacheGet (type : value) (cache : Cache) : option SchemaObject :=
  match cache with
  | [] => None
  | (k, s) :: rest => if decide (k = type) then Some s else cacheGet type rest
  end.

(** [schemaCache.set(type, schema)] *)
Fixpoint cacheSet (type : value) (schema : SchemaObject) (cache : Cache) : Cache :=
  match cache with
  | [] => [(type, schema)]
  | (k, s) :: rest =>
      if decide (k = type) then (k, schema) :: rest
      else (k, s) :: cacheSet type schema rest
  end.

(** How a call ends: with a result, or with an exception (from
    [new type()], or the [RangeError] of a full stack), and in both cases
    with the cache as the call leaves it. *)
Inductive Outcome (A E : Type) :=
| Returned (a : A) (cache : Cache)
| Threw (e : E) (cache : Cache).
Arguments Returned {A E}.
Arguments Threw {A E}.

(** [Record<string, SchemaObject>]: the own enumerable properties of a
    plain object, in the order in which JavaScript enumerates them, array
    indices first in ascending order, then the other names in the order
    of their creation. *)
Definition Properties := list (string * SchemaObject).

Fixpoint digitsValue (s : string) (n : N) : option N :=
  match s with
  | EmptyString => Some n
  | String c rest =>
      if isDigit c then digitsValue rest (10 * n + N.of_nat (nat_of_ascii c - 48))%N
      else None
  end.

(** The number that a name denotes when it is an array index: a
    canonical decimal numeral below [2^32 - 1]. *)
Definition arrayIndex (key : string) : option N :=
  match key with
  | EmptyString => None
  | String c rest =>
      if Ascii.eqb c "0"%char && negb (String.eqb rest "") then None
      else match digitsValue key 0%N with
           | Some n => if N.leb n 4294967294%N then Some n else None
           | None => None
           end
  end.

Definition hasProperty (key : string) (props : Properties) : bool :=
  existsb (fun entry => String.eqb (fst entry) key) props.

(** The value of a property that exists is replaced where it is. *)
Fixpoint replaceProperty (key : string) (schema : SchemaObject) (props : Properties)
  : Properties :=
  match props with
  | [] => []
  | (k, s) :: rest =>
      if String.eqb k key then (k, schema) :: rest
      else (k, s) :: replaceProperty key schema rest
  end.

(** A new array index goes before the first property that is not a
    smaller array index. *)
Fixpoint insertIndex (n : N) (key : string) (schema : SchemaObject) (props : Properties)
  : Properties :=
  match props with
  | [] => [(key, schema)]
  | (k, s) :: rest =>
      match arrayIndex k with
      | Some m => if N.ltb m n then (k, s) :: insertIndex n key schema rest
                  else (key, schema) :: props
      | None => (key, schema) :: props
      end
  end.

(** [properties[key] = schema] on a plain object.  The name [__proto__]
    is the accessor inherited from [Object.prototype]: assigning an
    object to it changes the prototype and creates no property. *)
Definition setProperty (key : string) (schema : SchemaObject) (props : Properties)
  : Properties :=
  if String.eqb key "__proto__" then props
  else if hasProperty key props then replaceProperty key schema props
  else match arrayIndex key with
       | Some n => insertIndex n key schema props
       | None => props ++ [(key, schema)]
       end.

(** An engine function: from a value and the cache to a schema. *)
Definition Inference := value -> Cache -> Outcome SchemaObject unit.

Section Engine.
Variable W : World.

(** The recursive calls, one level down. *)
Variable getTypeSchema_rec : Inference.
Variable inferSchemaFromValue_rec : Inference.

(** [for (...) properties[name] = infer(entry)]: the assignments made
    before an exception stay in [properties]. *)
Fixpoint assignEach (infer : Inference) (entries : list (string * value))
    (properties : Properties) (cache : Cache) : Outcome Properties Properties :=
  match entries with
  | [] => Returned properties cache
  | (name, v) :: rest =>
      match infer v cache with
      | Returned schema cache => assignEach infer rest (setProperty name schema properties) cache
      | Threw _ cache => Threw properties cache
      end
  end.

(** [inferTypeFromName(typeName)] *)
Definition inferTypeFromName (typeName : string) (cache : Cache)
  : Outcome SchemaObject unit :=
  if String.eqb typeName "string" || String.eqb typeName "String"
  then Returned (StringSchema None) cache
  else if String.eqb typeName "number" || String.eqb typeName "Number"
  then Returned NumberSchema cache
  else if String.eqb typeName "boolean" || String.eqb typeName "Boolean"
  then Returned BooleanSchema cache
  else if String.eqb typeName "Date"
  then Returned (StringSchema (Some "date-time")) cache
  else
    let globalType := globalLookup W typeName in
    if truthy globalType && isFunction globalType
    then match getTypeSchema_rec globalType cache with
         | Threw _ cache => Returned plainObjectSchema cache      (* catch (e) {} *)
         | outcome => outcome
         end
    else Returned plainObjectSchema cache.

(** [processArrayType(type)] *)
Definition processArrayType (type : value) (cache : Cache) : Outcome SchemaObject unit :=
  match matchGeneric (textOf W type) with
  | Some group =>
      match inferTypeFromName (trim group) cache with
      | Returned itemType cache => Returned (ArraySchema itemType) cache
      | outcome => outcome
      end
  | None => Returned (ArraySchema plainObjectSchema) cache
  end.

(** [tryExtractMetadataProperties(type, properties)] *)
Definition tryExtractMetadataProperties (fn : FunctionObject) (properties : Properties)
    (cache : Cache) : Outcome Properties Properties :=
  let attempt :=
    match assignEach getTypeSchema_rec (fn_design_properties fn) properties cache with
    | Returned properties cache =>
        assignEach getTypeSchema_rec (fn_design_type fn) properties cache
    | outcome => outcome
    end in
  match attempt with
  | Threw properties cache => Returned properties cache           (* catch (e) {} *)
  | outcome => outcome
  end.

(** [tryExtractPropertiesFromConstructorSource(type, properties)] *)
Definition tryExtractPropertiesFromConstructorSource (fn : FunctionObject)
    (properties : Properties) : Properties :=
  fold_left (fun properties propName => setProperty propName plainObjectSchema properties)
            (thisAssignments (fn_text fn)) properties.

(** The names kept by the loop of [tryInstantiateAndExtractProperties]. *)
Definition instanceKeyKept (key : string) : bool :=
  negb (String.eqb key "constructor") && negb (startsWith "_" key).

(** [tryInstantiateAndExtractProperties(type, properties)] *)
Definition tryInstantiateAndExtractProperties (fn : FunctionObject) (properties : Properties)
    (cache : Cache) : Outcome Properties Properties :=
  let attempt :=
    match fn_construct fn with
    | None => Threw properties cache                               (* new type() throws *)
    | Some instance =>
        assignEach inferSchemaFromValue_rec
          (filter (fun entry => instanceKeyKept (fst entry) = true) (ownEntries W instance))
          properties cache
    end in
  match attempt with
  | Threw properties cache =>
      Returned (tryExtractPropertiesFromConstructorSource fn properties) cache
  | outcome => outcome
  end.

(** [tryExtractPropertiesFromFunction(type, properties)] *)
Definition tryExtractPropertiesFromFunction (fn : FunctionObject) (properties : Properties)
  : Properties :=
  fold_left (fun properties param => setProperty param plainObjectSchema properties)
            (functionParameters (fn_text fn)) properties.

(** [processFunctionType(type)] *)
Definition processFunctionType (fn : FunctionObject) (cache : Cache)
  : Outcome SchemaObject unit :=
  let collected :=
    if fn_prototype fn
    then match tryExtractMetadataProperties fn [] cache with
         | Returned properties cache =>
             if Nat.eqb (length properties) 0
             then tryInstantiateAndExtractProperties fn properties cache
             else Returned properties cache
         | outcome => outcome
         end
    else Returned (tryExtractPropertiesFromFunction fn []) cache in
  match collected with
  | Returned properties cache =>
      if Nat.ltb 0 (length properties)
      then Returned (ObjectSchema (Some properties) None) cache
      else Returned (ObjectSchema None
                       (Some ("Schema for type " +:+ orString (Some (fn_name fn)) "Unknown")))
                    cache
  | Threw _ cache => Threw tt cache
  end.

(** [processObjectInstance(obj)] *)
Definition processObjectInstance (o : nat) (cache : Cache) : Outcome SchemaObject unit :=
  match assignEach inferSchemaFromValue_rec (enumerableEntries W o) [] cache with
  | Returned properties cache => Returned (ObjectSchema (Some properties) None) cache
  | Threw _ cache => Threw tt cache
  end.

(** [processArrayValue(arr)] *)
Definition processArrayValue (elements : list value) (cache : Cache)
  : Outcome SchemaObject unit :=
  match elements with
  | firstItem :: _ =>
      if decide (firstItem = VUndefined)
      then Returned (ArraySchema plainObjectSchema) cache
      else match inferSchemaFromValue_rec firstItem cache with
           | Returned itemType cache => Returned (ArraySchema itemType) cache
           | outcome => outcome
           end
  | [] => Returned (ArraySchema plainObjectSchema) cache
  end.

(** The body of [inferSchemaFromValue(value)]. *)
Definition inferSchemaFromValue_body (v : value) (cache : Cache)
  : Outcome SchemaObject unit :=
  match v with
  | VUndefined | VNull => Returned plainObjectSchema cache
  | VString _ => Returned (StringSchema None) cache
  | VNumber _ => Returned NumberSchema cache
  | VBoolean _ => Returned BooleanSchema cache
  | VObject o =>
      match objectAt W o with
      | DDate _ => Returned (StringSchema (Some "date-time")) cache
      | DArray _ elements => processArrayValue elements cache
      | DPlain _ => getTypeSchema_rec (constructorOf W o) cache
      end
  | VBigInt _ | VSymbol _ | VBuiltin _ | VFunction _ => Returned plainObjectSchema cache
  end.

(** The branches of [getTypeSchema] after the cache has been primed. *)
Definition schemaOfType (type : value) (cache : Cache) : Outcome SchemaObject unit :=
  if decide (type = VBuiltin BString) then Returned (StringSchema None) cache
  else if decide (type = VBuiltin BNumber \/ type = VBuiltin BBigInt)
  then Returned NumberSchema cache
  else if decide (type = VBuiltin BBoolean) then Returned BooleanSchema cache
  else if decide (type = VBuiltin BDate) then Returned (StringSchema (Some "date-time")) cache
  else if decide (type = VBuiltin BBuffer \/ type = VBuiltin BArrayBuffer)
  then Returned (StringSchema (Some "binary")) cache
  else if isArrayType W type then processArrayType type cache
  else if decide (type = VBuiltin BObject) then Returned plainObjectSchema cache
  else match type with
       | VBuiltin _ =>              (* not reached: every built-in is decided above *)
           processFunctionType opaqueFunction cache
       | VFunction f => processFunctionType (functionAt W f) cache
       | VObject o => processObjectInstance o cache
       | _ => Returned plainObjectSchema cache
       end.

(** The body of [getTypeSchema(type)]. *)
Definition getTypeSchema_body (type : value) (cache : Cache) : Outcome SchemaObject unit :=
  match cacheGet type cache with
  | Some schema => Returned schema cache
  | None =>
      let cache := cacheSet type plainObjectSchema cache in
      if negb (truthy type) then Returned plainObjectSchema cache
      else match schemaOfType type cache with
           | Returned schema cache => Returned schema (cacheSet type schema cache)
           | outcome => outcome
           end
  end.
End Engine.

(** [getTypeSchema] and [inferSchemaFromValue], mutually recursive, on a
    call stack of bounded depth: [fuel] is the number of nested calls of
    the two functions that the stack still has room for.  A call made
    when there is none throws [RangeError: Maximum call stack size
    exceeded], which unwinds to the nearest enclosing [try].  The stack is
    taken to run out at a call of one of these two functions, through
    which every recursion of the engine passes; the handlers of the
    [try] blocks, which call neither, are taken to have the room they
    need. *)
Fixpoint getTypeSchema (W : World) (fuel : nat) : Inference :=
  match fuel with
  | 0 => fun _ cache => Threw tt cache
  | S fuel => getTypeSchema_body W (getTypeSchema W fuel) (inferSchemaFromValue W fuel)
  end
with inferSchemaFromValue (W : World) (fuel : nat) : Inference :=
  match fuel with
  | 0 => fun _ cache => Threw tt cache
  | S fuel => inferSchemaFromValue_body W (getTypeSchema W fuel) (inferSchemaFromValue W fuel)
  end.

(** A type descriptor: what the compiler records as [design:paramtypes]
    and [design:returntype] (a constructor, a function, a built-in
    constructor, [undefined]) or any primitive value; not an object
    instance, which is a concrete value to the engine. *)
Definition isTypeDescriptor (type : value) : bool :=
  match type with VObject _ => false | _ => true end.

(** ** Reading the generated document *)

(** The routes registered for a controller: [metadata.routes.get(controller) || []]. *)
Definition routesOf (metadata : OpenAPIMetadata) (controller : ClassId) : list RouteMetadata :=
  default [] (jsmap_get controller (routes metadata)).

(** [paths[key][method]] is set. *)
Definition hasOperation (paths : gmap string PathItem) (key method : string) : Prop :=
  exists item op, paths !! key = Some item /\ item !! method = Some op.

(** [op] is the [routeSpec] of a registered route whose full path is [key]
    and whose method is [method]. *)
Definition operationOfRoute (options : OpenAPIOptions) (metadata : OpenAPIMetadata)
    (key method : string) (op : Operation) : Prop :=
  exists controller controllerMetadata route,
    (controller, controllerMetadata) ∈ controllers metadata
    /\ route ∈ routesOf metadata controller
    /\ key = fullPath (orString (opt_base options) "")
                      (withLeadingSlash (controller_path controllerMetadata)) route
    /\ method = methodKey (route_method route)
    /\ op = routeSpec controllerMetadata route.

(** Every path item has an operation, and every operation comes from a route. *)
Definition pathsFromRoutes (options : OpenAPIOptions) (metadata : OpenAPIMetadata)
    (paths : gmap string PathItem) : Prop :=
  forall key item, paths !! key = Some item ->
    (exists method op, item !! method = Some op)
    /\ (forall method op, item !! method = Some op ->
          operationOfRoute options metadata key method op).

(** ** Scenarios

    Concrete declarations, as the decorators see them.  Method decorators
    run before the decorator of their class. *)

Definition freshProcess : Process := {| instance := None |}.

Definition run {A} (m : Store A) (p : Process) : Process := snd (m p).

(** The schemas stored by the scenarios are not looked at. *)
Definition anySchema : value -> SchemaObject := fun _ => plainObjectSchema.
Definition anySuccessSchema
  : HttpMethod -> MethodReflection -> list ParameterMetadata -> SchemaObject :=
  fun _ _ _ => plainObjectSchema.

(** A handler without parameters and without declared return type,
    for instance [getUsers() {}]. *)
Definition plainHandler (target : ClassId) (name : string) : MethodReflection :=
  {| refl_target := target; refl_propertyKey := name;
     refl_paramTypes := []; refl_returnType := VUndefined;
     refl_decoratedParameters := []; refl_pendingResponses := ∅;
     refl_methodText := Some (name +:+ "() { }") |}.

(** [@Controller('users') class UserController { @Get('/') getUsers() {} }] *)
Definition usersProcess : Process :=
  run (Controller "users" noControllerOptions 0)
      (run (Get anySchema anySuccessSchema "/" noRouteOptions (plainHandler 0 "getUsers"))
           freshProcess).

Definition usersController : ControllerMetadata :=
  {| controller_path := "/users"; controller_description := None; controller_tags := None |}.

Definition getUsersRoute : RouteMetadata :=
  decoratedRoute anySchema anySuccessSchema GET "/" noRouteOptions (plainHandler 0 "getUsers").

Definition apiOptions (base : option string) : OpenAPIOptions :=
  {| opt_title := "Test API"; opt_version := "1.0.0"; opt_description := None;
     opt_base := base; opt_servers := None |}.

(** A handler with one declared parameter of class type and no declared
    return type, for instance [createItem(body: CreateItemDto) { ... }]. *)
Definition handlerWithParameter (target : ClassId) (name : string) : MethodReflection :=
  {| refl_target := target; refl_propertyKey := name;
     refl_paramTypes := [VFunction 0]; refl_returnType := VUndefined;
     refl_decoratedParameters := []; refl_pendingResponses := ∅;
     refl_methodText := Some (name +:+ "(body) { return { success: true }; }") |}.

(** The same handler with a declared return type. *)
Definition handlerWithReturnType (target : ClassId) (name : string) : MethodReflection :=
  {| refl_target := target; refl_propertyKey := name;
     refl_paramTypes := [VFunction 0]; refl_returnType := VBuiltin BObject;
     refl_decoratedParameters := []; refl_pendingResponses := ∅;
     refl_methodText := Some (name +:+ "(body) { return { success: true }; }") |}.

(** A body parameter as [Body()] records it. *)
Definition bodyParameter (description : string) (schema : SchemaObject) : ParameterMetadata :=
  {| param_name := "body"; param_in := InBody; param_required := Some true;
     param_type := "object"; param_description := Some description;
     param_schema := Some schema |}.

Definition queryParameter (name : string) : ParameterMetadata :=
  {| param_name := name; param_in := InQuery; param_required := None;
     param_type := "string"; param_description := None; param_schema := None |}.

(** A route with a query parameter and two body parameters. *)
Definition twoBodiesRoute : RouteMetadata :=
  {| route_path := "/item"; route_method := POST; route_handlerName := "createItem";
     route_description := None; route_summary := None; route_tags := None;
     route_parameters :=
       Some [queryParameter "dry"; bodyParameter "first" NumberSchema;
             bodyParameter "second" BooleanSchema];
     route_responses := None |}.

(** A handler that leaves [res] alone and ends as [outcome]. *)
Definition handlerEnding (outcome : HandlerOutcome) : Handler := fun res => (outcome, res).

(** The scenarios stay within the cases of [send] that are fixed. *)
Definition anySend : value -> Response -> SendResult := fun _ res => Sent res.

(** A [GET] request without conditional header. *)
Definition plainGet : Request := {| req_method := GET; req_conditional := false |}.

(** ** Vocabulary for the schema engine *)

(** The schema of a built-in constructor. *)
Definition builtinSchema (b : Builtin) : SchemaObject :=
  match b with
  | BString => StringSchema None
  | BNumber | BBigInt => NumberSchema
  | BBoolean => BooleanSchema
  | BDate => StringSchema (Some "date-time")
  | BBuffer | BArrayBuffer => StringSchema (Some "binary")
  | BArray => ArraySchema plainObjectSchema
  | BObject => plainObjectSchema
  end.

(** Entries are never removed from the cache, nor changed. *)
Definition cacheGrows (c c' : Cache) : Prop :=
  forall type schema, cacheGet type c = Some schema -> cacheGet type c' = Some schema.

(** What the cache holds for the built-in constructors between two calls. *)
Definition builtinsFaithful (c : Cache) : Prop :=
  forall b schema, cacheGet (VBuiltin b) c = Some schema -> schema = builtinSchema b.

Definition cacheStep (c c' : Cache) : Prop :=
  cacheGrows c c' /\ (builtinsFaithful c -> builtinsFaithful c').

(** The cache with which a call ends. *)
Definition cacheOf {A E} (outcome : Outcome A E) : Cache :=
  match outcome with
  | Returned _ c' | Threw _ c' => c'
  end.

(** A call, returning or throwing, moves the cache by a [cacheStep]. *)
Definition settles {A E} (c : Cache) (outcome : Outcome A E) : Prop :=
  cacheStep c (cacheOf outcome).

Definition Sound (infer : Inference) : Prop :=
  forall v c, settles c (infer v c).

(** The call came back with a result. *)
Definition returns {A E} (outcome : Outcome A E) : Prop :=
  exists a c', outcome = Returned a c'.

(** The identities described by the heap. *)
Definition heapKeys (W : World) : list value :=
  (VFunction <$> seq 0 (length (functions W)))
  ++ (VObject <$> seq 0 (length (objects W))).

(** How many of them have no cache entry yet. *)
Definition pending (W : World) (c : Cache) : nat :=
  length (filter (fun k => cacheGet k c = None) (heapKeys W)).

(** Following first elements from [v] leaves the arrays within [n] steps. *)
Fixpoint firstChainEnds (W : World) (n : nat) (v : value) : bool :=
  match v with
  | VObject o =>
      match objectAt W o with
      | DArray _ (first :: _) =>
          match n with
          | 0 => false
          | S n => firstChainEnds W n first
          end
      | _ => true
      end
  | _ => true
  end.

(** No array is reached from itself through first elements. *)
Definition arraysWellFounded (W : World) : bool :=
  forallb (fun o => firstChainEnds W (length (objects W)) (VObject o))
          (seq 0 (length (objects W))).

(** Room on the stack that suffices for any call in a well-founded heap. *)
Definition fuelBound (W : World) : nat :=
  2 + (length (functions W) + length (objects W)) * (length (objects W) + 3).

(** [class Node { value: string; next: Node }] with its property types
    recorded as [design:properties]: a type that refers to itself. *)
Definition nodeWorld : World :=
  {| functions :=
       [ {| fn_name := "Node"; fn_text := "class Node { }"; fn_prototype := true;
            fn_design_properties := [("value", VBuiltin BString); ("next", VFunction 0)];
            fn_design_type := []; fn_construct := None |} ];
     objects := [];
     globals := fun _ => VUndefined |}.

(** [class Folder { constructor() { this.parent = this; this.children = [this]; } }]:
    object 0 is [new Folder()], object 1 is its [children]. *)
Definition folderWorld : World :=
  {| functions :=
       [ {| fn_name := "Folder";
            fn_text := "class Folder { constructor() { this.parent = this; this.children = [this]; } }";
            fn_prototype := true; fn_design_properties := []; fn_design_type := [];
            fn_construct := Some 0 |} ];
     objects :=
       [ DPlain {| obj_text := "[object Object]"; obj_class := VFunction 0;
                   obj_props := [("parent", VObject 0); ("children", VObject 1)] |};
         DArray "[object Object]" [VObject 0] ];
     globals := fun _ => VUndefined |}.

(** [const items = []; items.push(items);]
    [class Loop { constructor() { this.items = items; } }]:
    object 0 is [new Loop()], object 1 is [items], whose first element is
    [items] itself. *)
Definition loopWorld : World :=
  {| functions :=
       [ {| fn_name := "Loop";
            fn_text := "class Loop { constructor() { this.items = items; } }";
            fn_prototype := true; fn_design_properties := []; fn_design_type := [];
            fn_construct := Some 0 |} ];
     objects :=
       [ DPlain {| obj_text := "[object Object]"; obj_class := VFunction 0;
                   obj_props := [("items", VObject 1)] |};
         DArray "" [VObject 1] ];
     globals := fun _ => VUndefined |}.

(** [class Account { constructor(owner) { this.owner = owner.name; this.balance = 0; } }]:
    instantiation without arguments throws. *)
Definition accountWorld : World :=
  {| functions :=
       [ {| fn_name := "Account";
            fn_text := "class Account { constructor(owner) { this.owner = owner.name; this.balance = 0; } }";
            fn_prototype := true; fn_design_properties := []; fn_design_type := [];
            fn_construct := None |} ];
     objects := [];
     globals := fun _ => VUndefined |}.

(** ** The rest of the annotation layer and of the binder *)

(** [resetMetadataStorage()] of [tests/test-helper.ts]: the singleton is
    dropped, created again and given empty maps. *)
Definition resetMetadataStorage : Store unit :=
  fun _ =>
    let '(_, p) := getInstance {| instance := None |} in
    (tt, {| instance := Some {| controllers := []; routes := [] |} |}).

(** The options of [Body]. *)
Record BodyOptions := {
  bopt_description : option string;
  bopt_required : option bool;
}.

(** The own metadata kept under ['custom:parameters'], by class and
    method name. *)
Abbreviation ParameterRegistry := (gmap (nat * string) (list ParameterMetadata)).

(** [Body(options)(target, propertyKey, parameterIndex)], where
    [paramTypes] is [design:paramtypes || []] of the method and
    [typeSchema] stands for [getTypeSchema] as in the method decorators. *)
Definition Body (typeSchema : value -> SchemaObject) (options : BodyOptions)
    (target : ClassId) (propertyKey : string) (paramTypes : list value)
    (parameterIndex : nat) (registry : ParameterRegistry) : ParameterRegistry :=
  let existingParameters := default [] (registry !! (target, propertyKey)) in
  let paramType := default VUndefined (paramTypes !! parameterIndex) in
  let schema := typeSchema paramType in
  let paramMetadata :=
    {| param_name := "body"; param_in := InBody;
       param_required := Some (match bopt_required options with
                               | Some false => false
                               | _ => true
                               end);
       param_type := "object";
       param_description := Some (orString (bopt_description options) "Request body");
       param_schema := Some schema |} in
  <[ (target, propertyKey) := existingParameters ++ [paramMetadata] ]> registry.

(** What a method decorator reads for [(target, propertyKey)] of a method
    once the parameter decorators of the method have run. *)
Definition reflectMethod (registry : ParameterRegistry) (target : ClassId)
    (propertyKey : string) (paramTypes : list value) (returnType : value)
    (pendingResponses : ResponseMetadata) (methodText : string) : MethodReflection :=
  {| refl_target := target; refl_propertyKey := propertyKey;
     refl_paramTypes := paramTypes; refl_returnType := returnType;
     refl_decoratedParameters := default [] (registry !! (target, propertyKey));
     refl_pendingResponses := pendingResponses;
     refl_methodText := Some methodText |}.

(** The options that [registerControllers] hands to [generateOpenAPISpec]. *)
Definition registrationOptions (openApiDoc : OpenAPIOptions) : OpenAPIOptions :=
  {| opt_title := orString (Some (opt_title openApiDoc)) "API Documentation";
     opt_version := orString (Some (opt_version openApiDoc)) "1.0.0";
     opt_description :=
       Some (orString (opt_description openApiDoc) "Auto-generated API documentation");
     opt_servers := Some (default [] (opt_servers openApiDoc));
     opt_base := Some (orString (opt_base openApiDoc) "") |}.

(** A router handed to [app.use(path, router)]: where it is mounted, and
    the [(method, routePath, handlerName)] registered on it, in order. *)
Record Mount := {
  mount_path : string;
  mount_routes : list (HttpMethod * string * string);
}.

(** The body of [controllers.forEach] in [registerControllers]. *)
Definition mountController (openApiDoc : OpenAPIOptions) (metadata : OpenAPIMetadata)
    (ControllerClass : ClassId) : Mount :=
  let routes := default [] (jsmap_get ControllerClass (routes metadata)) in
  let controllerMetadata := jsmap_get ControllerClass (controllers metadata) in
  let base := orString (opt_base openApiDoc) "" in
  let basePath := orString (controller_path <$> controllerMetadata) "" in
  let normalizedBasePath := withLeadingSlash basePath in
  {| mount_path := replaceSlashRuns (base +:+ normalizedBasePath);
     mount_routes :=
       (fun route =>
          (route_method route,
           if String.eqb (route_path route) "" then "/" else route_path route,
           route_handlerName route)) <$> routes |}.

(** [registerControllers(app, controllers, openApiDoc)], as far as the
    metadata is concerned: the document handed to the file writer and to
    the documentation viewer, and the routers mounted on [app]. *)
Definition registerControllers (controllerClasses : list ClassId)
    (openApiDoc : OpenAPIOptions) : Store (Document * list Mount) :=
  apiDoc <- generateOpenAPISpec (registrationOptions openApiDoc) ;;
  metadata <- getMetadata ;;
  ret (apiDoc, mountController openApiDoc metadata <$> controllerClasses).

(** ** The routes behind an operation *)

(** The pairs visited by the two nested [forEach] of
    [generateOpenAPISpec], in order. *)
Definition visitedRoutes (metadata : OpenAPIMetadata)
  : list (ControllerMetadata * RouteMetadata) :=
  flat_map (fun entry : ClassId * ControllerMetadata =>
              (fun route => (snd entry, route)) <$> routesOf metadata (fst entry))
           (controllers metadata).

(** The pair is documented under [key] and [method]. *)
Definition documentedAt (options : OpenAPIOptions) (key method : string)
    (visit : ControllerMetadata * RouteMetadata) : bool :=
  String.eqb key (fullPath (orString (opt_base options) "")
                           (withLeadingSlash (controller_path (fst visit))) (snd visit))
  && String.eqb method (methodKey (route_method (snd visit))).

(** [paths[key][method]], when both are set. *)
Definition operationAt (paths : gmap string PathItem) (key method : string)
  : option Operation :=
  match paths !! key with
  | Some item => item !! method
  | None => None
  end.

(** ** Histories of the store *)

(** The calls through which the rest of the program reaches the store. *)
Inductive StoreCall :=
| CallAddController (target : ClassId) (metadata : ControllerMetadata)
| CallAddRoute (target : ClassId) (metadata : RouteMetadata)
| CallGetMetadata
| CallReset.

Definition perform (call : StoreCall) : Store unit :=
  match call with
  | CallAddController target metadata => addControllerMetadata target metadata
  | CallAddRoute target metadata => addRouteMetadata target metadata
  | CallGetMetadata => _ <- getMetadata ;; ret tt
  | CallReset => resetMetadataStorage
  end.

Definition performAll (calls : list StoreCall) (p : Process) : Process :=
  fold_left (fun p call => run (perform call) p) calls p.

(** The keys of a [Map], in iteration order. *)
Definition jsmap_keys {V} (m : JsMap V) : list ClassId := fst <$> m.

(** ** Reading a request's outcome *)

(** The response object when the wrapper's promise has settled or hangs. *)
Definition responseOf (outcome : RequestOutcome) : Response :=
  match outcome with
  | Completed res | Unhandled res | Hanging res => res
  end.

(** ** Reading a schema *)

(** The names under [properties], in order. *)
Definition propertyNames (schema : SchemaObject) : list string :=
  match schema with
  | ObjectSchema (Some properties) _ => fst <$> properties
  | _ => []
  end.

(** The body of [routes.forEach] applied to a visited pair. *)
Definition addVisit (options : OpenAPIOptions) (paths : gmap string PathItem)
    (visit : ControllerMetadata * RouteMetadata) : gmap string PathItem :=
  addRoute (orString (opt_base options) "")
           (withLeadingSlash (controller_path (fst visit))) (fst visit) paths (snd visit).

(** The operation that a visited pair contributes. *)
Definition visitSpec (visit : ControllerMetadata * RouteMetadata) : Operation :=
  routeSpec (fst visit) (snd visit).

(** ** Further scenarios *)

(** [{ description: 'Item to create', required: false }] *)
Definition itemBodyOptions : BodyOptions :=
  {| bopt_description := Some "Item to create"; bopt_required := Some false |}.

(** What the method decorator of
    [createItem(@Body({...}) body: CreateItemDto) { return body; }]
    reads, the parameter decorator having run. *)
Definition createItemReflection : MethodReflection :=
  reflectMethod (Body anySchema itemBodyOptions 0 "createItem" [VFunction 0] 0 ∅)
                0 "createItem" [VFunction 0] VUndefined ∅
                "createItem(body) { return body; }".

(** [@Controller('items') class ItemController { @Post('/') createItem(...) }] *)
Definition itemsProcess : Process :=
  run (Controller "items" noControllerOptions 0)
      (run (createMethodDecorator anySchema anySuccessSchema POST "/" noRouteOptions
              createItemReflection)
           freshProcess).

(** A class registered under ['users'] with the route of two body
    parameters. *)
Definition twoBodiesProcess : Process :=
  run (Controller "users" noControllerOptions 0)
      (run (addRouteMetadata 0 twoBodiesRoute) freshProcess).

(** [[1, 'a', true]] and [[1]]: object 0 and object 1. *)
Definition mixedArraysWorld : World :=
  {| functions := [];
     objects := [ DArray "1,a,true" [VNumber 1; VString "a"; VBoolean true];
                  DArray "1" [VNumber 1] ];
     globals := fun _ => VUndefined |}.

(** [class ArrayList { constructor() { this.size = 0; } }]: a class that is
    no array, but whose text contains [Array]. *)
Definition arrayListWorld : World :=
  {| functions :=
       [ {| fn_name := "ArrayList";
            fn_text := "class ArrayList { constructor() { this.size = 0; } }";
            fn_prototype := true; fn_design_properties := []; fn_design_type := [];
            fn_construct := Some 0 |} ];
     objects :=
       [ DPlain {| obj_text := "[object Object]"; obj_class := VFunction 0;
                   obj_props := [("size", VNumber 0)] |} ];
     globals := fun _ => VUndefined |}.

(** ** The schema of the default success response ([decorators.ts])

    The branch of [createMethodDecorator] guarded by
    [!hasSuccessResponse && returnType], which computes [schema] from the
    declared return type, the text of the handler and the parameters. *)

Fixpoint lastOf (s : string) : option ascii :=
  match s with
  | EmptyString => None
  | String c EmptyString => Some c
  | String _ rest => lastOf rest
  end.

(** Group 1 of the expression "[return], one or more white spaces, one or
    more characters other than a semicolon" matched at the start of [s].
    Both repetitions are greedy; when nothing is left for the group after
    the white spaces, the last white space is given back to the group,
    if there are two at least. *)
Definition returnGroupAt (s : string) : option string :=
  match stripPrefix "return" s with
  | Some rest =>
      let '(spaces, after) := span isSpace rest in
      let group := fst (span (fun c => negb (Ascii.eqb c ";"%char)) after) in
      if String.eqb spaces "" then None
      else if negb (String.eqb group "") then Some group
      else match spaces with
           | String _ (String _ _) => (fun c => String c EmptyString) <$> lastOf spaces
           | _ => None
           end
  | None => None
  end.

(** Group 1 of [methodImpl.match(...)] for that expression: the leftmost
    match. *)
Fixpoint matchReturn (s : string) : option string :=
  match returnGroupAt s with
  | Some group => Some group
  | None => match s with
            | EmptyString => None
            | String _ rest => matchReturn rest
            end
  end.

(** [s.match(/param\d+/)] is not [null]. *)
Fixpoint mentionsNumberedParam (s : string) : bool :=
  match stripPrefix "param" s with
  | Some (String c _) => isDigit c
  | _ => false
  end
  || match s with
     | EmptyString => false
     | String _ rest => mentionsNumberedParam rest
     end.

(** The digits left by [s.replace(/\D/g, '')]. *)
Fixpoint digitsOf (s : string) : list N :=
  match s with
  | EmptyString => []
  | String c rest =>
      if isDigit c then N.of_nat (nat_of_ascii c - 48) :: digitsOf rest else digitsOf rest
  end.

(** [parseInt(s.replace(/\D/g, ''))]; [None] is [NaN].  The number is
    compared with the length of an array only, for which the rounding of
    large numbers makes no difference. *)
Definition parseDigits (s : string) : option N :=
  match digitsOf s with
  | [] => None
  | digits => Some (fold_left (fun n digit => (10 * n + digit)%N) digits 0%N)
  end.

(** The identity of the object made by the literal [{}]: one that neither
    the heap nor the cache knows. *)
Definition freshObject (W : World) (cache : Cache) : nat :=
  fold_right Nat.max (length (objects W))
             ((fun entry => match fst entry with VObject o => S o | _ => 0 end) <$> cache).

(** [{ type: 'array', items: <outcome> }] *)
Definition arrayOf (outcome : Outcome SchemaObject unit) : Outcome SchemaObject unit :=
  match outcome with
  | Returned items cache => Returned (ArraySchema items) cache
  | outcome => outcome
  end.

Section SuccessResponse.
Variable W : World.
Variable fuel : nat.                       (* the room left on the stack, as for the engine *)

(** [getTypeSchema({})] *)
Definition schemaOfFreshObject (cache : Cache) : Outcome SchemaObject unit :=
  getTypeSchema W fuel (VObject (freshObject W cache)) cache.

(** The branch of an array return type. *)
Definition arrayResponseSchema (r : MethodReflection) (cache : Cache)
  : Outcome SchemaObject unit :=
  let typeString := textOf W (refl_returnType r) in
  if includes "Array<" typeString || includes "[]" typeString
  then
    let attempt :=
      match refl_methodText r with
      | None => Threw tt cache                       (* [descriptor.value.toString()] throws *)
      | Some methodImpl =>
          match matchReturn methodImpl with
          | Some group =>
              let returnStmt := trim group in
              if startsWith "[" returnStmt || includes ".map" returnStmt
                 || includes ".filter" returnStmt
              then Returned (ArraySchema plainObjectSchema) cache
              else
                let paramIndex :=
                  if includes "param" returnStmt then parseDigits returnStmt else None in
                match paramIndex with
                | Some index =>
                    if N.ltb index (N.of_nat (length (refl_paramTypes r)))
                    then arrayOf (getTypeSchema W fuel
                                    (default VUndefined (refl_paramTypes r !! N.to_nat index))
                                    cache)
                    else arrayOf (schemaOfFreshObject cache)
                | None => arrayOf (schemaOfFreshObject cache)
                end
          | None => arrayOf (schemaOfFreshObject cache)
          end
      end in
    match attempt with
    | Threw _ cache => arrayOf (schemaOfFreshObject cache)          (* catch (e) *)
    | outcome => outcome
    end
  else Returned (ArraySchema plainObjectSchema) cache.

(** [parameters.find(p => p.in === 'body')?.schema] *)
Definition bodySchemaOf (parameters : list ParameterMetadata) : option SchemaObject :=
  List.find isBodyParameter parameters ≫= param_schema.

(** The handler is taken to return one of its parameters. *)
Definition returnsParameter (returnStmt : string) (parameters : list ParameterMetadata)
  : bool :=
  includes "requestBody" returnStmt || mentionsNumberedParam returnStmt
  || existsb (fun p => includes (param_name p) returnStmt) parameters.

(** The branch of any other return type. *)
Definition objectResponseSchema (r : MethodReflection)
    (parameters : list ParameterMetadata) (cache : Cache) : Outcome SchemaObject unit :=
  let attempt :=
    match refl_methodText r with
    | None => Threw tt cache                         (* [descriptor.value.toString()] throws *)
    | Some methodImpl =>
        match matchReturn methodImpl with
        | Some group =>
            let returnStmt := trim group in
            if returnsParameter returnStmt parameters
            then match bodySchemaOf parameters with
                 | Some paramSchema => Returned paramSchema cache
                 | None => getTypeSchema W fuel (refl_returnType r) cache
                 end
            else getTypeSchema W fuel (refl_returnType r) cache
        | None => getTypeSchema W fuel (refl_returnType r) cache
        end
    end in
  match attempt with
  | Threw _ cache => getTypeSchema W fuel (refl_returnType r) cache  (* catch (e) *)
  | outcome => outcome
  end.

(** The value given to [schema]. *)
Definition successResponseSchema (r : MethodReflection)
    (parameters : list ParameterMetadata) (cache : Cache) : Outcome SchemaObject unit :=
  if isArrayType W (refl_returnType r)
  then arrayResponseSchema r cache
  else objectResponseSchema r parameters cache.
End SuccessResponse.

(** [class Session { constructor() { this.user = ''; this._token = ''; } }]:
    object 0 is [new Session()]. *)
Definition sessionWorld : World :=
  {| functions :=
       [ {| fn_name := "Session";
            fn_text := "class Session { constructor() { this.user = ''; this._token = ''; } }";
            fn_prototype := true; fn_design_properties := []; fn_design_type := [];
            fn_construct := Some 0 |} ];
     objects :=
       [ DPlain {| obj_text := "[object Object]"; obj_class := VFunction 0;
                   obj_props := [("user", VString ""); ("_token", VString "")] |} ];
     globals := fun _ => VUndefined |}.

(** [updateItem(body: Session): Session { return body; }], undecorated
    parameter, declared return type. *)
Definition echoHandler : MethodReflection :=
  {| refl_target := 0; refl_propertyKey := "updateItem";
     refl_paramTypes := [VFunction 0]; refl_returnType := VFunction 0;
     refl_decoratedParameters := []; refl_pendingResponses := ∅;
     refl_methodText := Some "updateItem(body) { return body; }" |}.

(** [list(): Session[] { return this.sessions; }]: the compiler records
    [Array] as return type. *)
Definition listHandler : MethodReflection :=
  {| refl_target := 0; refl_propertyKey := "list";
     refl_paramTypes := []; refl_returnType := VBuiltin BArray;
     refl_decoratedParameters := []; refl_pendingResponses := ∅;
     refl_methodText := Some "list() { return this.sessions; }" |}.

(** A handler without [return] whose return type is described by the
    text [Array<Session>]. *)
Definition describedListHandler : MethodReflection :=
  {| refl_target := 0; refl_propertyKey := "list";
     refl_paramTypes := []; refl_returnType := VString "Array<Session>";
     refl_decoratedParameters := []; refl_pendingResponses := ∅;
     refl_methodText := Some "list() { }" |}.

(** A handler of [loopWorld] whose recorded return type is the instance
    [new Loop()], as metadata written by hand can make it. *)
Definition loopHandler : MethodReflection :=
  {| refl_target := 0; refl_propertyKey := "current";
     refl_paramTypes := []; refl_returnType := VObject 0;
     refl_decoratedParameters := []; refl_pendingResponses := ∅;
     refl_methodText := Some "current() { return this.loop; }" |}.

(** The schema that [inferTypeFromName] gives to the name of a primitive type. *)
Definition primitiveSchema (typeName : string) : option SchemaObject :=
  if String.eqb typeName "string" || String.eqb typeName "String" then Some (StringSchema None)
  else if String.eqb typeName "number" || String.eqb typeName "Number" then Some NumberSchema
  else if String.eqb typeName "boolean" || String.eqb typeName "Boolean"
  then Some BooleanSchema
  else if String.eqb typeName "Date" then Some (StringSchema (Some "date-time"))
  else None.

(** The entries under [properties], in order. *)
Definition schemaProperties (schema : SchemaObject) : Properties :=
  match schema with
  | ObjectSchema (Some properties) _ => properties
  | _ => []
  end.

(** The schema that [processFunctionType] makes of the properties found. *)
Definition classSchema (fn : FunctionObject) (properties : Properties) : SchemaObject :=
  if Nat.ltb 0 (length properties) then ObjectSchema (Some properties) None
  else ObjectSchema None
         (Some ("Schema for type " +:+ orString (Some (fn_name fn)) "Unknown")).

(** [const greet = (name, punctuation = '!') => name + punctuation]: a
    function without prototype. *)
Definition arrowWorld : World :=
  {| functions :=
       [ {| fn_name := "greet"; fn_text := "(name, punctuation = '!') => name + punctuation";
            fn_prototype := false; fn_design_properties := []; fn_design_type := [];
            fn_construct := None |} ];
     objects := [];
     globals := fun _ => VUndefined |}.

(* ================================================================== *)
(** * Part II. Properties                                               *)
(* ================================================================== *)

(** ** Slashes *)

Lemma startsWith_slash_cons c s : startsWith "/" (String c s) = isSlash c.
Proof. unfold isSlash. cbn. apply andb_true_r. Qed.

Lemma isSlash_true c : isSlash c = true -> c = "/"%char.
Proof. apply Ascii.eqb_eq. Qed.

(** The scanner of [replace(/\/+/g, '/')] does what the specification
    says in words: inside a run the replacement has been written, and the
    run contributes nothing more. *)
Lemma replaceSlashRunsFrom_collapse s :
  replaceSlashRunsFrom false s = collapseRepeatedSlashes s
  /\ String "/" (replaceSlashRunsFrom true s) = collapseRepeatedSlashes (String "/" s).
Proof.
  induction s as [| c s [IHf IHt]].
  - done.
  - split.
    + simpl. destruct (isSlash c) eqn:Hc.
      * apply isSlash_true in Hc as ->. exact IHt.
      * simpl. by rewrite IHf.
    + cbn [replaceSlashRunsFrom]. destruct (isSlash c) eqn:Hc.
      * pose proof (isSlash_true _ Hc) as ->. rewrite IHt.
        symmetry. cbn [collapseRepeatedSlashes].
        by rewrite startsWith_slash_cons.
      * cbn [collapseRepeatedSlashes]. rewrite ?startsWith_slash_cons, ?Hc.
        rewrite andb_false_r. cbn [andb]. by rewrite IHf.
Qed.

Lemma replaceSlashRuns_collapse s : replaceSlashRuns s = collapseRepeatedSlashes s.
Proof. apply replaceSlashRunsFrom_collapse. Qed.

Lemma collapseRepeatedSlashes_cons c s :
  collapseRepeatedSlashes (String c s)
  = if isSlash c && startsWith "/" s
    then collapseRepeatedSlashes s else String c (collapseRepeatedSlashes s).
Proof. done. Qed.

Lemma collapseRepeatedSlashes_head c s :
  startsWith "/" (collapseRepeatedSlashes (String c s)) = isSlash c.
Proof.
  revert c. induction s as [| d s IH]; intros c;
    rewrite collapseRepeatedSlashes_cons.
  - change (startsWith "/" "") with false.
    rewrite andb_false_r. apply startsWith_slash_cons.
  - rewrite startsWith_slash_cons.
    destruct (isSlash c) eqn:Hc, (isSlash d) eqn:Hd; cbn [andb];
      rewrite ?IH, ?startsWith_slash_cons; done.
Qed.

(** The collapsed text has no two adjacent slashes. *)
Lemma collapseRepeatedSlashes_noRepeatedSlash s :
  noRepeatedSlash (collapseRepeatedSlashes s) = true.
Proof.
  induction s as [| c s IH]; [done |].
  rewrite collapseRepeatedSlashes_cons.
  destruct (isSlash c && _) eqn:Hrun; [exact IH |].
  cbn [noRepeatedSlash]. rewrite IH, andb_true_r.
  destruct s as [| d s]; [by rewrite andb_false_r |].
  rewrite collapseRepeatedSlashes_head.
  rewrite startsWith_slash_cons in Hrun. by rewrite Hrun.
Qed.

Lemma withLeadingSlash_startsWith p : startsWith "/" (withLeadingSlash p) = true.
Proof.
  unfold withLeadingSlash. destruct (startsWith "/" p) eqn:Hp; [done |].
  apply startsWith_slash_cons.
Qed.

Lemma withLeadingSlash_idempotent p :
  withLeadingSlash (withLeadingSlash p) = withLeadingSlash p.
Proof.
  unfold withLeadingSlash at 1. by rewrite withLeadingSlash_startsWith.
Qed.

Lemma orString_empty_default o : orString o "" = default "" o.
Proof.
  destruct o as [s |]; [| done]. simpl.
  destruct (String.eqb s "") eqn:Hs; [| done]. by apply String.eqb_eq in Hs as ->.
Qed.

Lemma containsSlash_app s1 s2 :
  containsSlash (s1 +:+ s2) = containsSlash s1 || containsSlash s2.
Proof.
  induction s1 as [| c s1 IH]; [done |].
  change (String c s1 +:+ s2) with (String c (s1 +:+ s2)).
  cbn [containsSlash]. by rewrite IH, orb_assoc.
Qed.

Lemma containsSlash_collapse s :
  containsSlash (collapseRepeatedSlashes s) = containsSlash s.
Proof.
  induction s as [| c s IH]; [done |].
  rewrite collapseRepeatedSlashes_cons.
  destruct (isSlash c && startsWith "/" s) eqn:Hrun.
  - rewrite IH. apply andb_true_iff in Hrun as [Hc Hs].
    cbn [containsSlash]. rewrite Hc. cbn [orb].
    destruct s as [| d s]; [done |].
    rewrite startsWith_slash_cons in Hs. cbn [containsSlash]. by rewrite Hs.
  - cbn [containsSlash]. by rewrite IH.
Qed.

Lemma containsSlash_withLeadingSlash p : containsSlash (withLeadingSlash p) = true.
Proof.
  pose proof (withLeadingSlash_startsWith p) as Hstart.
  destruct (withLeadingSlash p) as [| c s]; [done |].
  rewrite startsWith_slash_cons in Hstart. cbn. by rewrite Hstart.
Qed.

(** Every key of [spec.paths] contains a [/]: none is a name that a
    JavaScript object inherits, so reading [spec.paths[fullPath]] only
    finds what the builder has put there. *)
Lemma fullPath_containsSlash basePrefix path route :
  containsSlash (fullPath basePrefix (withLeadingSlash path) route) = true.
Proof.
  unfold fullPath. rewrite replaceSlashRuns_collapse, containsSlash_collapse.
  rewrite !containsSlash_app, containsSlash_withLeadingSlash.
  by rewrite orb_true_r.
Qed.

(** ** The store *)

Lemma jsmap_get_set {V} k (v : V) m : jsmap_get k (jsmap_set k v m) = Some v.
Proof.
  induction m as [| [k' v'] m IH]; simpl.
  - by rewrite Nat.eqb_refl.
  - destruct (Nat.eqb k k') eqn:Hk; simpl; rewrite ?Nat.eqb_refl, ?Hk; done.
Qed.

Lemma jsmap_get_set_ne {V} k k' (v : V) m :
  k <> k' -> jsmap_get k' (jsmap_set k v m) = jsmap_get k' m.
Proof.
  intros Hne. induction m as [| [k0 v0] m IH]; simpl.
  - destruct (Nat.eqb k' k) eqn:Hk; [| done]. apply Nat.eqb_eq in Hk. congruence.
  - destruct (Nat.eqb k k0) eqn:Hk; simpl.
    + apply Nat.eqb_eq in Hk as <-.
      destruct (Nat.eqb k' k) eqn:Hk'; [| done]. apply Nat.eqb_eq in Hk'. congruence.
    + by rewrite IH.
Qed.

Lemma getInstance_stored p :
  getInstance p = (storedMetadata p, {| instance := Some (storedMetadata p) |}).
Proof. unfold getInstance, storedMetadata. destruct p as [[m |]]; done. Qed.

(** ** The specification builder *)

Lemma fold_left_preserves {A B} (f : A -> B -> A) (P : A -> Prop) (l : list B) (a : A) :
  P a -> (forall a b, b ∈ l -> P a -> P (f a b)) -> P (fold_left f l a).
Proof.
  revert a. induction l as [| b l IH]; intros a Ha Hstep; [done |].
  simpl. apply IH.
  - apply Hstep; [apply list_elem_of_here | done].
  - intros a' b' Hb'. apply Hstep. by apply list_elem_of_further.
Qed.

Lemma fold_left_reaches {A B} (f : A -> B -> A) (Q : A -> Prop) (l : list B) (b : B) (a : A) :
  b ∈ l -> (forall a, Q (f a b)) -> (forall a b', Q a -> Q (f a b')) -> Q (fold_left f l a).
Proof.
  intros Hb Hown Hkeep. revert a.
  induction l as [| b' l IH]; intros a; [by apply elem_of_nil in Hb |].
  simpl. apply elem_of_cons in Hb as [<- | Hb].
  - apply fold_left_preserves; [apply Hown | auto].
  - by apply IH.
Qed.

Section Builder.
Variables (options : OpenAPIOptions) (metadata : OpenAPIMetadata).
Variables (basePrefix basePath : string) (cm : ControllerMetadata).

Lemma addRoute_lookup paths route key :
  addRoute basePrefix basePath cm paths route !! key
  = if decide (key = fullPath basePrefix basePath route)
    then Some (<[ methodKey (route_method route) := routeSpec cm route ]>
                 (default ∅ (paths !! key)))
    else paths !! key.
Proof.
  unfold addRoute. set (k := fullPath basePrefix basePath route).
  destruct (decide (key = k)) as [-> | Hne].
  - rewrite lookup_insert_eq. destruct (paths !! k) eqn:Hk; [by rewrite Hk |].
    by rewrite lookup_insert_eq.
  - rewrite lookup_insert_ne by done.
    destruct (paths !! k); [done |]. by rewrite lookup_insert_ne.
Qed.

Lemma addRoute_own paths route :
  hasOperation (addRoute basePrefix basePath cm paths route)
               (fullPath basePrefix basePath route) (methodKey (route_method route)).
Proof.
  eexists _, _. rewrite addRoute_lookup, decide_True by done.
  split; [done |]. apply lookup_insert_eq.
Qed.

Lemma addRoute_keeps paths route key method :
  hasOperation paths key method ->
  hasOperation (addRoute basePrefix basePath cm paths route) key method.
Proof.
  intros (item & op & Hitem & Hop). unfold hasOperation.
  rewrite addRoute_lookup. case_decide as Hkey; [| by eauto].
  rewrite Hitem. simpl.
  destruct (decide (method = methodKey (route_method route))) as [-> | Hne].
  - eexists _, _. split; [done |]. apply lookup_insert_eq.
  - eexists _, op. split; [done |]. by rewrite lookup_insert_ne.
Qed.
End Builder.

Lemma addController_keeps options metadata paths entry key method :
  hasOperation paths key method ->
  hasOperation (addController options metadata paths entry) key method.
Proof.
  intros H. destruct entry as [controller cm]. unfold addController.
  apply (fold_left_preserves _ (fun paths => hasOperation paths key method)); [done |].
  intros. by apply addRoute_keeps.
Qed.

Lemma addController_own options metadata paths controller cm route :
  route ∈ routesOf metadata controller ->
  hasOperation (addController options metadata paths (controller, cm))
               (fullPath (orString (opt_base options) "")
                         (withLeadingSlash (controller_path cm)) route)
               (methodKey (route_method route)).
Proof.
  intros Hroute. unfold addController.
  apply (fold_left_reaches _ (fun paths => hasOperation paths _ _) _ route); [done | |].
  - intros. apply addRoute_own.
  - intros. by apply addRoute_keeps.
Qed.

(** Every route of every controller has its operation in the document. *)
Lemma buildDocument_hasOperation options metadata controller cm route :
  (controller, cm) ∈ controllers metadata ->
  route ∈ routesOf metadata controller ->
  hasOperation (doc_paths (buildDocument options metadata))
               (fullPath (orString (opt_base options) "")
                         (withLeadingSlash (controller_path cm)) route)
               (methodKey (route_method route)).
Proof.
  intros Hc Hroute. simpl.
  apply (fold_left_reaches _ (fun paths => hasOperation paths _ _) _ (controller, cm));
    [done | |].
  - intros. by apply addController_own.
  - intros. by apply addController_keeps.
Qed.

Lemma addRoute_fromRoutes options metadata controller cm paths route :
  (controller, cm) ∈ controllers metadata ->
  route ∈ routesOf metadata controller ->
  pathsFromRoutes options metadata paths ->
  pathsFromRoutes options metadata
    (addRoute (orString (opt_base options) "") (withLeadingSlash (controller_path cm))
              cm paths route).
Proof.
  intros Hc Hroute Hpaths key item. rewrite addRoute_lookup.
  case_decide as Hkey; [| apply Hpaths].
  intros [= <-]. split.
  - eexists _, _. apply lookup_insert_eq.
  - intros method op.
    destruct (decide (method = methodKey (route_method route))) as [-> | Hne].
    + rewrite lookup_insert_eq. intros [= <-].
      by exists controller, cm, route.
    + rewrite lookup_insert_ne by done.
      destruct (paths !! key) as [item |] eqn:Hitem; simpl.
      * intros Hop. by apply (Hpaths key item).
      * by rewrite lookup_empty.
Qed.

(** Nothing else is in the document. *)
Lemma buildDocument_fromRoutes options metadata :
  pathsFromRoutes options metadata (doc_paths (buildDocument options metadata)).
Proof.
  simpl. apply (fold_left_preserves _ (pathsFromRoutes options metadata)).
  - intros key item. by rewrite lookup_empty.
  - intros paths [controller cm] Hc Hpaths. unfold addController.
    apply (fold_left_preserves _ (pathsFromRoutes options metadata)); [done |].
    intros paths' route Hroute Hpaths'. by apply (addRoute_fromRoutes _ _ controller).
Qed.

Lemma generateOpenAPISpec_document options p :
  fst (generateOpenAPISpec options p) = buildDocument options (storedMetadata p).
Proof.
  unfold generateOpenAPISpec, bind, getMetadata. by rewrite getInstance_stored.
Qed.

(** ** Path composition *)

(** Conversely to [buildDocument_hasOperation], the keys of the document
    are the composed paths of the registered routes. *)
Lemma generateOpenAPISpec_keys_from_routes options p key item :
  doc_paths (fst (generateOpenAPISpec options p)) !! key = Some item ->
  exists controller cm route,
    (controller, cm) ∈ controllers (storedMetadata p)
    /\ route ∈ routesOf (storedMetadata p) controller
    /\ key = fullPath (default "" (opt_base options))
                      (withLeadingSlash (controller_path cm)) route.
Proof.
  rewrite generateOpenAPISpec_document. intros Hitem.
  destruct (buildDocument_fromRoutes options (storedMetadata p) key item Hitem)
    as [(method & op & Hop) Hfrom].
  destruct (Hfrom method op Hop) as (controller & cm & route & ? & ? & -> & _).
  exists controller, cm, route. by rewrite orString_empty_default.
Qed.

(** C1 — For every controller, every route of it and every
    [options.base], the document has an operation under the path key
    obtained by concatenating the base, the controller's base path and
    the route path (nothing for a route path equal to [/]) and collapsing
    every run of repeated [/] into one. *)
Theorem generateOpenAPISpec_path_key
    (options : OpenAPIOptions) (p : Process)
    (controller : ClassId) (cm : ControllerMetadata) (route : RouteMetadata) :
  (controller, cm) ∈ controllers (storedMetadata p) ->
  route ∈ routesOf (storedMetadata p) controller ->
  let base := default "" (opt_base options) in
  let basePath := withLeadingSlash (controller_path cm) in
  let routePath := withLeadingSlash (route_path route) in
  hasOperation (doc_paths (fst (generateOpenAPISpec options p)))
    (collapseRepeatedSlashes
       (base +:+ basePath +:+ (if String.eqb routePath "/" then "" else routePath)))
    (methodKey (route_method route)).
Proof.
  intros Hc Hroute base basePath routePath.
  rewrite generateOpenAPISpec_document, <- replaceSlashRuns_collapse.
  subst base. rewrite <- orString_empty_default.
  exact (buildDocument_hasOperation options _ controller cm route Hc Hroute).
Qed.

(** The two scenarios of the specification: a controller registered at
    [users] with a [Get('/')] route yields [/users] without base and
    [/api/v1/users] under the base [/api/v1]. *)
Lemma generateOpenAPISpec_path_key_witness :
  hasOperation (doc_paths (fst (generateOpenAPISpec (apiOptions (Some "")) usersProcess)))
               "/users" "get"
  /\ hasOperation (doc_paths (fst (generateOpenAPISpec (apiOptions (Some "/api/v1")) usersProcess)))
                  "/api/v1/users" "get".
Proof.
  split.
  - apply (generateOpenAPISpec_path_key (apiOptions (Some "")) usersProcess
             0 usersController getUsersRoute);
      apply list_elem_of_here.
  - apply (generateOpenAPISpec_path_key (apiOptions (Some "/api/v1")) usersProcess
             0 usersController getUsersRoute);
      apply list_elem_of_here.
Defined.

(** ** Controller base paths *)

Lemma Controller_stored path options target p :
  jsmap_get target (controllers (storedMetadata (run (Controller path options target) p)))
  = Some {| controller_path := spread (withLeadingSlash path) (copt_path options);
            controller_description := spread None (copt_description options);
            controller_tags := spread None (copt_tags options) |}.
Proof.
  unfold run, Controller, addControllerMetadata, bind. rewrite getInstance_stored.
  cbn. apply jsmap_get_set.
Qed.

(** C8, as the code has it — The base path recorded by [Controller] for
    a path [p] (no [path] key in the options) is [p] itself when [p]
    starts with [/] and [/p] otherwise: it always starts with [/], it is
    what the builder composes with, and it starts with exactly one [/]
    whenever [p] does not itself begin with two. *)
Theorem Controller_path_leading_slash
    (path : string) (options : ControllerOptions) (target : ClassId) (p : Process) :
  copt_path options = None ->
  exists cm,
    jsmap_get target (controllers (storedMetadata (run (Controller path options target) p)))
    = Some cm
    /\ controller_path cm = (if startsWith "/" path then path else "/" +:+ path)
    /\ startsWith "/" (controller_path cm) = true
    /\ withLeadingSlash (controller_path cm) = controller_path cm
    /\ exactlyOneLeadingSlash (controller_path cm) = negb (startsWith "//" path).
Proof.
  intros Hopt. eexists. split; [apply Controller_stored |].
  rewrite Hopt. cbn [controller_path spread].
  fold (withLeadingSlash path).
  rewrite withLeadingSlash_idempotent.
  repeat split; try apply withLeadingSlash_startsWith.
  unfold exactlyOneLeadingSlash. rewrite withLeadingSlash_startsWith. cbn [andb].
  f_equal. unfold withLeadingSlash.
  destruct path as [| c path]; [done |].
  rewrite startsWith_slash_cons. destruct (isSlash c) eqn:Hc; [done |].
  unfold isSlash in Hc. change ("/" +:+ String c path) with (String "/" (String c path)).
  cbn. by rewrite Hc.
Qed.

Lemma Controller_path_leading_slash_witness :
  exists cm,
    jsmap_get 0 (controllers
                   (storedMetadata (run (Controller "users" noControllerOptions 0) freshProcess)))
    = Some cm
    /\ controller_path cm = "/users"
    /\ startsWith "/" (controller_path cm) = true
    /\ withLeadingSlash (controller_path cm) = controller_path cm
    /\ exactlyOneLeadingSlash (controller_path cm) = true.
Proof.
  exact (Controller_path_leading_slash "users" noControllerOptions 0 freshProcess eq_refl).
Defined.

(** C8, as stated, fails: [Controller('//users')] records a base path
    with two leading slashes. *)
Lemma Controller_path_two_leading_slashes :
  exists cm,
    jsmap_get 0 (controllers
                   (storedMetadata (run (Controller "//users" noControllerOptions 0) freshProcess)))
    = Some cm
    /\ controller_path cm = "//users"
    /\ exactlyOneLeadingSlash (controller_path cm) = false.
Proof. eexists. split; [apply Controller_stored |]. done. Qed.

(** ** Body parameters *)

Lemma filter_first_body (before after : list ParameterMetadata) (bodyParam : ParameterMetadata) :
  Forall (fun q => param_in q <> InBody) before ->
  param_in bodyParam = InBody ->
  filter (fun q => isBodyParameter q = true) (before ++ bodyParam :: after)
  = bodyParam :: filter (fun q => isBodyParameter q = true) after.
Proof.
  intros Hbefore Hbody. rewrite filter_app, filter_cons_True.
  - induction Hbefore as [| q before Hq _ IH]; [done |].
    rewrite filter_cons_False; [done |].
    unfold isBodyParameter. by rewrite bool_decide_eq_true.
  - unfold isBodyParameter. by rewrite bool_decide_eq_true.
Qed.

(** A list with a body parameter has a first one. *)
Lemma first_body_parameter (parameters : list ParameterMetadata) (q : ParameterMetadata) :
  q ∈ parameters -> param_in q = InBody ->
  exists before bodyParam after,
    parameters = before ++ bodyParam :: after
    /\ Forall (fun q => param_in q <> InBody) before
    /\ param_in bodyParam = InBody.
Proof.
  induction parameters as [| q' parameters IH]; intros Hq Hbody.
  - by apply elem_of_nil in Hq.
  - destruct (decide (param_in q' = InBody)) as [Hq' | Hq'].
    + by exists [], q', parameters.
    + apply elem_of_cons in Hq as [-> | Hq]; [done |].
      destruct (IH Hq Hbody) as (before & bodyParam & after & -> & ? & ?).
      exists (q' :: before), bodyParam, after.
      split; [done |]. split; [by constructor | done].
Qed.

Lemma routeSpec_parameters_inv cm route emitted e :
  op_parameters (routeSpec cm route) = Some emitted ->
  e ∈ emitted ->
  param_in e <> InBody /\ e ∈ default [] (route_parameters route).
Proof.
  unfold routeSpec. cbn [op_parameters].
  generalize (default [] (route_parameters route)). intros parameters.
  destruct (filter (fun p => isBodyParameter p = false) parameters)
    as [| e0 others] eqn:Hothers; [done |].
  intros [= <-]. rewrite <- Hothers. intros [He ?]%list_elem_of_filter.
  split; [| done]. unfold isBodyParameter in He.
  by apply bool_decide_eq_false in He.
Qed.

(** In the document, no operation lists a body parameter. *)
Lemma generateOpenAPISpec_no_body_in_parameters options p key item method op emitted e :
  doc_paths (fst (generateOpenAPISpec options p)) !! key = Some item ->
  item !! method = Some op ->
  op_parameters op = Some emitted ->
  e ∈ emitted -> param_in e <> InBody.
Proof.
  rewrite generateOpenAPISpec_document. intros Hitem Hop Hemitted He.
  destruct (buildDocument_fromRoutes options (storedMetadata p) key item Hitem) as [_ Hfrom].
  destruct (Hfrom method op Hop) as (_ & cm & route & _ & _ & _ & _ & ->).
  by apply (routeSpec_parameters_inv cm route emitted e).
Qed.

(** The document, by the routes visited. *)
Lemma addController_visits options metadata paths entry :
  addController options metadata paths entry
  = fold_left (addVisit options)
              ((fun route => (snd entry, route)) <$> routesOf metadata (fst entry)) paths.
Proof.
  destruct entry as [controller cm]. unfold addController, routesOf. cbn [fst snd].
  generalize (default [] (jsmap_get controller (routes metadata))). intros rs.
  revert paths. induction rs as [| route rs IH]; intros paths; [done |].
  cbn [fold_left fmap list_fmap]. by rewrite IH.
Qed.

Lemma buildDocument_visits options metadata :
  doc_paths (buildDocument options metadata)
  = fold_left (addVisit options) (visitedRoutes metadata) ∅.
Proof.
  cbn [buildDocument doc_paths]. unfold visitedRoutes.
  generalize (∅ : gmap string PathItem). generalize (controllers metadata).
  intros cs. induction cs as [| entry cs IH]; intros paths; [done |].
  cbn [fold_left flat_map]. rewrite fold_left_app, IH. f_equal.
  apply addController_visits.
Qed.

Lemma operationAt_addVisit options paths visit key method :
  operationAt (addVisit options paths visit) key method
  = if documentedAt options key method visit then Some (visitSpec visit)
    else operationAt paths key method.
Proof.
  unfold addVisit, addRoute, documentedAt, operationAt, visitSpec.
  set (k := fullPath _ _ _). set (m := methodKey _).
  destruct (String.eqb key k) eqn:Hk.
  - apply String.eqb_eq in Hk as ->. rewrite lookup_insert_eq. cbn [andb].
    destruct (String.eqb method m) eqn:Hm.
    + apply String.eqb_eq in Hm as ->. by rewrite lookup_insert_eq.
    + apply String.eqb_neq in Hm. rewrite lookup_insert_ne by done.
      destruct (paths !! k) as [item |] eqn:Hitem.
      * by rewrite Hitem.
      * rewrite lookup_insert_eq. cbn. apply lookup_empty.
  - apply String.eqb_neq in Hk. cbn [andb]. rewrite lookup_insert_ne by done.
    destruct (paths !! k) as [item |] eqn:Hitem; [done |].
    by rewrite lookup_insert_ne.
Qed.

Lemma operationAt_visits options visits paths key method :
  operationAt (fold_left (addVisit options) visits paths) key method
  = match last (List.filter (documentedAt options key method) visits) with
    | Some visit => Some (visitSpec visit)
    | None => operationAt paths key method
    end.
Proof.
  revert paths. induction visits as [| visit visits IH]; intros paths; [done |].
  cbn [fold_left List.filter]. rewrite IH, operationAt_addVisit.
  destruct (documentedAt options key method visit); [| done].
  rewrite last_cons. by destruct (last _).
Qed.

(** C2 — In the generated document: when the route that the document
    shows under a path and a method (the last one that the builder
    visits for them) has a body entry among its parameters, the document
    holds an operation there whose [parameters] array has no entry with
    location [body], any entry it has being a parameter of the route, and
    the first body parameter of the route, and only it, is emitted as
    [requestBody = {description, required, content: {"application/json": {schema}}}]
    (with the defaults ['Request body'], [true] and [{type:'object'}] for
    the fields that the parameter leaves out). *)
Theorem generateOpenAPISpec_body_parameters
    (options : OpenAPIOptions) (p : Process) (key method : string)
    (cm : ControllerMetadata) (route : RouteMetadata)
    (parameters : list ParameterMetadata) (q : ParameterMetadata) :
  last (List.filter (documentedAt options key method) (visitedRoutes (storedMetadata p)))
  = Some (cm, route) ->
  route_parameters route = Some parameters ->
  q ∈ parameters ->
  param_in q = InBody ->
  exists operation,
    operationAt (doc_paths (fst (generateOpenAPISpec options p))) key method = Some operation
    /\ op_parameters operation
       = match filter (fun e => param_in e <> InBody) parameters with
         | [] => None
         | others => Some others
         end
    /\ (forall emitted e,
           op_parameters operation = Some emitted ->
           e ∈ emitted -> param_in e <> InBody /\ e ∈ parameters)
    /\ exists before bodyParam after,
         parameters = before ++ bodyParam :: after
         /\ Forall (fun q => param_in q <> InBody) before
         /\ param_in bodyParam = InBody
         /\ op_requestBody operation
            = Some {| body_description := orString (param_description bodyParam) "Request body";
                      body_required := negb (bool_decide (param_required bodyParam = Some false));
                      body_content :=
                        {[ "application/json" :=
                             {| media_schema :=
                                  Some (default plainObjectSchema
                                          (param_schema bodyParam)) |} ]} |}.
Proof.
  intros Hlast Hparams Hq Hbody. exists (routeSpec cm route). split; [| split; [| split]].
  - rewrite generateOpenAPISpec_document, buildDocument_visits, operationAt_visits.
    by rewrite Hlast.
  - unfold routeSpec. rewrite Hparams. cbn [op_parameters default from_option id].
    replace (filter (fun p => isBodyParameter p = false) parameters)
      with (filter (fun e => param_in e <> InBody) parameters);
      [by destruct (filter _ parameters) |].
    apply list_filter_iff. intros e. unfold isBodyParameter.
    by rewrite bool_decide_eq_false.
  - intros emitted e Hemitted He.
    pose proof (routeSpec_parameters_inv cm route emitted e Hemitted He) as Hinv.
    by rewrite Hparams in Hinv.
  - destruct (first_body_parameter parameters q Hq Hbody)
      as (before & bodyParam & after & -> & Hbefore & HbodyParam).
    exists before, bodyParam, after. repeat split; try done.
    unfold routeSpec. rewrite Hparams. cbn [op_requestBody].
    change (default [] (Some (before ++ bodyParam :: after)))
      with (before ++ bodyParam :: after).
    rewrite filter_first_body by done. unfold requestBodyOf.
    by destruct (param_required bodyParam) as [[|] |].
Qed.

Lemma generateOpenAPISpec_body_parameters_witness :
  exists operation,
    operationAt (doc_paths (fst (generateOpenAPISpec (apiOptions None) twoBodiesProcess)))
                "/users/item" "post" = Some operation
    /\ op_parameters operation = Some [queryParameter "dry"]
    /\ op_requestBody operation
       = Some {| body_description := "first"; body_required := true;
                 body_content :=
                   {[ "application/json" := {| media_schema := Some NumberSchema |} ]} |}.
Proof.
  destruct (generateOpenAPISpec_body_parameters (apiOptions None) twoBodiesProcess
              "/users/item" "post" usersController twoBodiesRoute
              [queryParameter "dry"; bodyParameter "first" NumberSchema;
               bodyParameter "second" BooleanSchema]
              (bodyParameter "second" BooleanSchema) eq_refl eq_refl)
    as (operation & Hop & Hothers & _ & before & bodyParam & after
        & Hsplit & Hbefore & Hbody & Hrequest).
  - apply list_elem_of_further, list_elem_of_further, list_elem_of_here.
  - done.
  - exists operation. split; [done |]. split; [done |].
    rewrite Hrequest.
    destruct before as [| b0 [| b1 before]].
    + injection Hsplit as <- _. by apply Forall_nil in Hbefore.
    + by injection Hsplit as _ <- _.
    + injection Hsplit as _ Hfirst _. apply Forall_cons in Hbefore as [_ Hbefore].
      apply Forall_cons in Hbefore as [Hb1 _]. by subst b1.
Defined.

(** ** Responses *)

(** The builder's default applies to a route whose [responses] is unset. *)
Lemma routeSpec_default_responses cm route :
  route_responses route = None ->
  op_responses (routeSpec cm route) = defaultResponses.
Proof. intros Hnone. unfold routeSpec. by rewrite Hnone. Qed.

(** A route object keeps its responses as they are, empty or not. *)
Lemma routeSpec_declared_responses cm route responses :
  route_responses route = Some responses ->
  op_responses (routeSpec cm route) = responses.
Proof. intros Hsome. unfold routeSpec. by rewrite Hsome. Qed.

(** What a method decorator stores as [responses] when the options do not
    carry the key: always an object. *)
Lemma decoratedRoute_responses typeSchema successSchema method path options r :
  ropt_responses options = None ->
  route_responses (decoratedRoute typeSchema successSchema method path options r)
  = Some (routeResponses successSchema method r (routeParameters typeSchema method r)).
Proof. intros Hopt. unfold decoratedRoute. by rewrite Hopt. Qed.

(** Hence the builder's default is out of reach of a decorated route, and
    a route without pending response and without declared return type
    gets an operation without responses. *)
Lemma decoratedRoute_operation_responses typeSchema successSchema cm method path options r :
  ropt_responses options = None ->
  op_responses (routeSpec cm (decoratedRoute typeSchema successSchema method path options r))
  = routeResponses successSchema method r (routeParameters typeSchema method r).
Proof.
  intros Hopt. apply routeSpec_declared_responses. by apply decoratedRoute_responses.
Qed.

Lemma decoratedRoute_operation_without_responses
    typeSchema successSchema cm method path options r :
  ropt_responses options = None ->
  refl_pendingResponses r = ∅ ->
  truthy (refl_returnType r) = false ->
  op_responses (routeSpec cm (decoratedRoute typeSchema successSchema method path options r))
  = ∅.
Proof.
  intros Hopt Hpending Hfalsy. rewrite decoratedRoute_operation_responses by done.
  unfold routeResponses. by rewrite Hfalsy, andb_false_r.
Qed.

(** C3, on the code — A route registered through a method decorator with
    no pending response and no declared return type stores the empty
    [responses] object, and the builder emits it as it is: the operation
    has no response at all, not the default one. *)
Theorem decorated_route_without_responses :
  route_responses getUsersRoute = Some ∅
  /\ exists item op,
       doc_paths (fst (generateOpenAPISpec (apiOptions None) usersProcess)) !! "/users" = Some item
       /\ item !! "get" = Some op
       /\ op_responses op = ∅
       /\ op_responses op <> defaultResponses.
Proof.
  split; [done |].
  eexists _, _. split; [by vm_compute |]. split; [by vm_compute |].
  split; [done |]. cbn. intros Heq.
  apply (f_equal (fun m => m !! "200")) in Heq.
  vm_compute in Heq. discriminate.
Qed.

(** C4, as the code has it — Without a [responses] key in the options
    and without a pending response under [200] or [201], route
    registration records a default success response exactly when the
    handler has a declared return type: under [201] for POST and under
    [200] for every other method.  Without a declared return type, or with
    a pending response under [200] or [201], the pending responses are
    recorded unchanged, whatever the parameters of the handler. *)
Theorem decoratedRoute_success_response
    (typeSchema : value -> SchemaObject)
    (successSchema : HttpMethod -> MethodReflection -> list ParameterMetadata -> SchemaObject)
    (method : HttpMethod) (path : string) (options : RouteOptions) (r : MethodReflection) :
  ropt_responses options = None ->
  let pending := refl_pendingResponses r in
  let recorded :=
    route_responses (decoratedRoute typeSchema successSchema method path options r) in
  let code := if decide (method = POST) then "201" else "200" in
  (pending !! "200" = None -> pending !! "201" = None ->
   truthy (refl_returnType r) = true ->
   exists response,
     recorded = Some (<[ code := response ]> pending)
     /\ response_description response
        = (if decide (method = POST) then "Created successfully" else "Successful response"))
  /\ (truthy (refl_returnType r) = false -> recorded = Some pending)
  /\ (is_Some (pending !! "200") \/ is_Some (pending !! "201") -> recorded = Some pending).
Proof.
  intros Hopt pending recorded code. subst recorded.
  rewrite decoratedRoute_responses by done. unfold routeResponses. fold pending.
  repeat split.
  - intros H200 H201 Htruthy. unfold hasSuccessResponse. rewrite H200, H201, Htruthy.
    rewrite !bool_decide_eq_false_2 by (by intros [? ?]).
    subst code. unfold successCode, successDescription.
    destruct (decide (method = POST)); cbn; eexists; split; reflexivity.
  - intros Hfalsy. by rewrite Hfalsy, andb_false_r.
  - intros Hhas. replace (hasSuccessResponse method pending) with true; [done |].
    symmetry. unfold hasSuccessResponse.
    destruct Hhas as [Hhas | Hhas]; rewrite (bool_decide_eq_true_2 _ Hhas); cbn;
      by rewrite ?orb_true_r.
Qed.

Lemma decoratedRoute_success_response_witness :
  (exists response,
      route_responses (decoratedRoute anySchema anySuccessSchema POST "/item" noRouteOptions
                         (handlerWithReturnType 0 "createItem"))
      = Some (<[ "201" := response ]> ∅)
      /\ response_description response = "Created successfully")
  /\ (exists response,
        route_responses (decoratedRoute anySchema anySuccessSchema PUT "/item" noRouteOptions
                           (handlerWithReturnType 0 "updateItem"))
        = Some (<[ "200" := response ]> ∅)
        /\ response_description response = "Successful response").
Proof.
  split.
  - exact (proj1 (decoratedRoute_success_response anySchema anySuccessSchema POST "/item"
                    noRouteOptions (handlerWithReturnType 0 "createItem") eq_refl)
                 eq_refl eq_refl eq_refl).
  - exact (proj1 (decoratedRoute_success_response anySchema anySuccessSchema PUT "/item"
                    noRouteOptions (handlerWithReturnType 0 "updateItem") eq_refl)
                 eq_refl eq_refl eq_refl).
Defined.

(** C4, as stated, fails: a POST handler with a declared parameter, no
    supplied response and no declared return type gets the body parameter
    but no response under [201] (nor under any other code). *)
Lemma decoratedRoute_post_without_return_type :
  acceptsBody POST = true
  /\ refl_paramTypes (handlerWithParameter 0 "createItem") = [VFunction 0]
  /\ hasSuccessResponse POST (refl_pendingResponses (handlerWithParameter 0 "createItem")) = false
  /\ route_parameters (decoratedRoute anySchema anySuccessSchema POST "/item" noRouteOptions
                         (handlerWithParameter 0 "createItem"))
     = Some [bodyParameter "Request body" plainObjectSchema]
  /\ route_responses (decoratedRoute anySchema anySuccessSchema POST "/item" noRouteOptions
                        (handlerWithParameter 0 "createItem"))
     = Some ∅.
Proof. repeat split. Qed.

(** ** The store is only read *)

(** C10 — [generateOpenAPISpec] leaves the metadata store as it found
    it: the controllers map and the routes map, hence every route list
    and every field of every route, are the same after the call, and the
    singleton then holds exactly that metadata. *)
Theorem generateOpenAPISpec_preserves_store (options : OpenAPIOptions) (p : Process) :
  storedMetadata (snd (generateOpenAPISpec options p)) = storedMetadata p
  /\ controllers (storedMetadata (snd (generateOpenAPISpec options p)))
     = controllers (storedMetadata p)
  /\ routes (storedMetadata (snd (generateOpenAPISpec options p)))
     = routes (storedMetadata p)
  /\ snd (generateOpenAPISpec options p) = {| instance := Some (storedMetadata p) |}.
Proof.
  assert (snd (generateOpenAPISpec options p) = {| instance := Some (storedMetadata p) |})
    as Hafter.
  { unfold generateOpenAPISpec, bind, getMetadata. by rewrite getInstance_stored. }
  by rewrite Hafter.
Qed.

(** Once the instance exists the process state itself is unchanged. *)
Lemma generateOpenAPISpec_preserves_process options metadata :
  snd (generateOpenAPISpec options {| instance := Some metadata |})
  = {| instance := Some metadata |}.
Proof. done. Qed.

(** ** The route binder *)

(** A handler that has not answered and fails with an error whose
    [message] is a text is answered, on a plain request, with status 500
    and that text, or the default text when it is empty. *)
Lemma dispatch_failure sendElse req handler res res' outcome text :
  handler res = (outcome, res') ->
  outcome = Throws (Error text) \/ outcome = RejectsWith (Error text) ->
  res_body res' = None ->
  plainRequest req = true ->
  dispatch sendElse req handler res
  = Completed {| res_statusCode := 500;
                 res_body := Some (VString (if String.eqb text "" then "Internal Server Error"
                                            else text)) |}.
Proof.
  intros Hcall Houtcome Hunsent Hplain. unfold dispatch. rewrite Hcall.
  destruct Houtcome as [-> | ->]; unfold Error, onError, send, status;
    cbn [truthy]; destruct (String.eqb text ""); cbn [negb];
    cbn [res_body res_statusCode plainStatus]; rewrite Hunsent, Hplain; done.
Qed.

(** The scenario of the specification: a handler body throwing
    [Error("x")] yields status 500 with body ["x"]. *)
Lemma dispatch_Error_x sendElse :
  dispatch sendElse plainGet (handlerEnding (Throws (Error "x"))) freshResponse
  = Completed {| res_statusCode := 500; res_body := Some (VString "x") |}.
Proof. done. Qed.

(** C7, on the code — A handler that returns a promise rejected without
    a reason ([Promise.reject()]), or that throws [undefined] or [null]:
    the [catch] block sets the status code of the response object to 500
    and then throws itself, while reading [error.message], before
    anything is sent.  The wrapper's promise is rejected, and the
    response is left as the handler left it: no response is written
    unless the handler has written one. *)
Theorem dispatch_nullish_rejection
    (sendElse : value -> Response -> SendResult) (req : Request)
    (handler : Handler) (res res' : Response) (outcome : HandlerOutcome) :
  handler res = (outcome, res') ->
  outcome = Throws RaisedNullish \/ outcome = RejectsWith RaisedNullish ->
  dispatch sendElse req handler res
  = Unhandled {| res_statusCode := 500; res_body := res_body res' |}.
Proof.
  intros Hcall Houtcome. unfold dispatch. rewrite Hcall.
  by destruct Houtcome as [-> | ->].
Qed.

Lemma dispatch_nullish_rejection_witness :
  dispatch anySend plainGet (handlerEnding (RejectsWith RaisedNullish)) freshResponse
  = Unhandled {| res_statusCode := 500; res_body := None |}.
Proof.
  exact (dispatch_nullish_rejection anySend plainGet
           (handlerEnding (RejectsWith RaisedNullish)) freshResponse freshResponse
           (RejectsWith RaisedNullish) eq_refl (or_intror eq_refl)).
Defined.

(** ** The schema cache *)

Lemma cacheGet_set_eq type schema c : cacheGet type (cacheSet type schema c) = Some schema.
Proof.
  induction c as [| [k s] c IH]; simpl.
  - by rewrite decide_True.
  - destruct (decide (k = type)) as [-> | Hne]; simpl.
    + by rewrite decide_True.
    + by rewrite decide_False.
Qed.

Lemma cacheGet_set_ne type type' schema c :
  type <> type' -> cacheGet type' (cacheSet type schema c) = cacheGet type' c.
Proof.
  intros Hne. induction c as [| [k s] c IH]; simpl.
  - by rewrite decide_False.
  - destruct (decide (k = type)) as [-> | Hk]; simpl.
    + by rewrite !decide_False.
    + destruct (decide (k = type')); [done | apply IH].
Qed.

Lemma cacheGet_set type type' schema c :
  cacheGet type' (cacheSet type schema c)
  = if decide (type = type') then Some schema else cacheGet type' c.
Proof.
  case_decide as H; [subst; apply cacheGet_set_eq | by apply cacheGet_set_ne].
Qed.

Lemma cacheGrows_refl c : cacheGrows c c.
Proof. by intros type schema. Qed.

Lemma cacheGrows_trans c1 c2 c3 : cacheGrows c1 c2 -> cacheGrows c2 c3 -> cacheGrows c1 c3.
Proof. intros H12 H23 type schema H. by apply H23, H12. Qed.

(** Writing under a key that the cache does not have. *)
Lemma cacheGrows_set type schema c :
  cacheGet type c = None -> cacheGrows c (cacheSet type schema c).
Proof.
  intros Hmiss type' schema' Hhit. rewrite cacheGet_set_ne; [done |].
  intros ->. congruence.
Qed.

(** Writing again under the key of a call in progress. *)
Lemma cacheGrows_set_own type provisional schema c c' :
  cacheGet type c = None ->
  cacheGrows (cacheSet type provisional c) c' ->
  cacheGrows c (cacheSet type schema c').
Proof.
  intros Hmiss Hgrows type' schema' Hhit.
  assert (type <> type') by congruence.
  rewrite cacheGet_set_ne by done. apply Hgrows. by rewrite cacheGet_set_ne.
Qed.

Lemma cacheStep_refl c : cacheStep c c.
Proof. split; [apply cacheGrows_refl | done]. Qed.

Lemma cacheStep_trans c1 c2 c3 : cacheStep c1 c2 -> cacheStep c2 c3 -> cacheStep c1 c3.
Proof.
  intros [Hg12 Hf12] [Hg23 Hf23]. split; [by eapply cacheGrows_trans | auto].
Qed.

(** Writing under a key that is not a built-in constructor. *)
Lemma builtinsFaithful_set_other type schema c :
  (forall b, type <> VBuiltin b) ->
  builtinsFaithful c -> builtinsFaithful (cacheSet type schema c).
Proof.
  intros Hnot Hfaithful b s. rewrite cacheGet_set_ne by apply Hnot. apply Hfaithful.
Qed.

Lemma cacheStep_set type schema c :
  cacheGet type c = None -> (forall b, type <> VBuiltin b) ->
  cacheStep c (cacheSet type schema c).
Proof.
  intros Hmiss Hnot. split; [by apply cacheGrows_set | by apply builtinsFaithful_set_other].
Qed.

(** Writing the schema of a built-in constructor under its own key. *)
Lemma builtinsFaithful_set b provisional c :
  builtinsFaithful c ->
  builtinsFaithful (cacheSet (VBuiltin b) (builtinSchema b)
                      (cacheSet (VBuiltin b) provisional c)).
Proof.
  intros Hfaithful b' s. rewrite cacheGet_set. case_decide as Hb.
  - injection Hb as <-. by intros [= <-].
  - rewrite cacheGet_set_ne by done. apply Hfaithful.
Qed.

(** ** The cache only grows

    Whether a call returns or throws, the entries that the cache had are
    still there, unchanged, and the entries of the built-in constructors
    are the ones [getTypeSchema] writes. *)

Lemma settles_step {A E} c c' (outcome : Outcome A E) :
  cacheStep c c' -> settles c' outcome -> settles c outcome.
Proof. apply cacheStep_trans. Qed.

Lemma settles_returned {A E} c (outcome : Outcome A E) a c' :
  settles c outcome -> outcome = Returned a c' -> cacheStep c c'.
Proof. by intros H ->. Qed.

Lemma settles_threw {A E} c (outcome : Outcome A E) e c' :
  settles c outcome -> outcome = Threw e c' -> cacheStep c c'.
Proof. by intros H ->. Qed.

Section EngineSound.
Variable W : World.
Variables G I : Inference.
Hypothesis G_sound : Sound G.
Hypothesis I_sound : Sound I.

Lemma assignEach_settles infer entries properties c :
  Sound infer -> settles c (assignEach infer entries properties c).
Proof.
  intros Hinfer. revert properties c.
  induction entries as [| [name v] entries IH]; intros properties c; simpl.
  - apply cacheStep_refl.
  - pose proof (Hinfer v c) as Hcall.
    destruct (infer v c) as [schema c' | e c']; [| exact Hcall].
    eapply settles_step; [exact Hcall | apply IH].
Qed.

Lemma inferTypeFromName_settles typeName c :
  settles c (inferTypeFromName W G typeName c).
Proof.
  unfold inferTypeFromName.
  repeat (case_match; [apply cacheStep_refl |]).
  case_match; [| apply cacheStep_refl].
  pose proof (G_sound (globalLookup W typeName) c) as Hcall.
  by destruct (G _ c).
Qed.

Lemma processArrayType_settles type c : settles c (processArrayType W G type c).
Proof.
  unfold processArrayType. case_match; [| apply cacheStep_refl].
  pose proof (inferTypeFromName_settles (trim s) c) as Hcall.
  by destruct (inferTypeFromName _ _ _ c).
Qed.

Lemma tryExtractMetadataProperties_settles fn properties c :
  settles c (tryExtractMetadataProperties G fn properties c).
Proof.
  unfold tryExtractMetadataProperties.
  pose proof (assignEach_settles G (fn_design_properties fn) properties c G_sound) as H1.
  destruct (assignEach G (fn_design_properties fn) properties c)
    as [properties' c' | properties' c']; [| exact H1].
  pose proof (assignEach_settles G (fn_design_type fn) properties' c' G_sound) as H2.
  destruct (assignEach G (fn_design_type fn) properties' c') as [? c'' | ? c''];
    by eapply cacheStep_trans.
Qed.

Lemma tryInstantiateAndExtractProperties_settles fn properties c :
  settles c (tryInstantiateAndExtractProperties W I fn properties c).
Proof.
  unfold tryInstantiateAndExtractProperties.
  destruct (fn_construct fn) as [instance |]; [| apply cacheStep_refl].
  match goal with
  | |- context [assignEach I ?entries properties c] =>
      pose proof (assignEach_settles I entries properties c I_sound) as Hloop;
      by destruct (assignEach I entries properties c)
  end.
Qed.

Lemma processFunctionType_settles fn c : settles c (processFunctionType W G I fn c).
Proof.
  unfold processFunctionType. destruct (fn_prototype fn).
  - pose proof (tryExtractMetadataProperties_settles fn [] c) as H1.
    destruct (tryExtractMetadataProperties G fn [] c) as [properties c' | ? c'];
      [| exact H1].
    destruct (Nat.eqb (length properties) 0).
    + pose proof (tryInstantiateAndExtractProperties_settles fn properties c') as H2.
      destruct (tryInstantiateAndExtractProperties W I fn properties c')
        as [properties' c'' | ? c'']; [case_match |]; by eapply cacheStep_trans.
    + by case_match.
  - case_match; apply cacheStep_refl.
Qed.

Lemma processObjectInstance_settles o c : settles c (processObjectInstance W I o c).
Proof.
  unfold processObjectInstance.
  pose proof (assignEach_settles I (enumerableEntries W o) [] c I_sound) as Hloop.
  by destruct (assignEach I (enumerableEntries W o) [] c).
Qed.

Lemma processArrayValue_settles elements c : settles c (processArrayValue I elements c).
Proof.
  unfold processArrayValue. destruct elements as [| firstItem elements];
    [apply cacheStep_refl |].
  case_decide; [apply cacheStep_refl |].
  pose proof (I_sound firstItem c) as Hcall. by destruct (I firstItem c).
Qed.

Lemma inferSchemaFromValue_body_sound : Sound (inferSchemaFromValue_body W G I).
Proof.
  intros v c. destruct v; simpl; try apply cacheStep_refl.
  destruct (objectAt W o).
  - apply processArrayValue_settles.
  - apply cacheStep_refl.
  - apply G_sound.
Qed.

Lemma schemaOfType_builtin b c :
  schemaOfType W G I (VBuiltin b) c = Returned (builtinSchema b) c.
Proof. by destruct b. Qed.

Lemma schemaOfType_settles type c : settles c (schemaOfType W G I type c).
Proof.
  unfold schemaOfType.
  repeat (case_decide; [apply cacheStep_refl |]).
  case_match; [apply processArrayType_settles |].
  case_decide; [apply cacheStep_refl |].
  destruct type; try apply cacheStep_refl;
    first [apply processFunctionType_settles | apply processObjectInstance_settles].
Qed.

Lemma getTypeSchema_body_sound : Sound (getTypeSchema_body W G I).
Proof.
  intros type c. unfold getTypeSchema_body.
  destruct (cacheGet type c) as [schema |] eqn:Hmiss; [apply cacheStep_refl |].
  destruct (truthy type) eqn:Htruthy; cbn [negb].
  - assert ((exists b, type = VBuiltin b) \/ (forall b, type <> VBuiltin b))
      as [[b ->] | Hnot] by (destruct type; eauto).
    + rewrite schemaOfType_builtin. split; [| by apply builtinsFaithful_set].
      eapply cacheGrows_set_own; [done | apply cacheGrows_refl].
    + pose proof (schemaOfType_settles type (cacheSet type plainObjectSchema c)) as [Hg Hf].
      destruct (schemaOfType W G I type _) as [schema c' | e c']; cbn [cacheOf] in *.
      * split; [by eapply cacheGrows_set_own |].
        intros Hfaithful. by apply builtinsFaithful_set_other, Hf, builtinsFaithful_set_other.
      * eapply cacheStep_trans; [by apply cacheStep_set | by split].
  - apply cacheStep_set; [done |]. by intros b ->.
Qed.
End EngineSound.

Lemma engine_sound W fuel :
  Sound (getTypeSchema W fuel) /\ Sound (inferSchemaFromValue W fuel).
Proof.
  induction fuel as [| fuel [IHG IHI]].
  - split; intros v c; apply cacheStep_refl.
  - split; simpl.
    + by apply getTypeSchema_body_sound.
    + by apply inferSchemaFromValue_body_sound.
Qed.

Lemma getTypeSchema_settles W fuel type c : settles c (getTypeSchema W fuel type c).
Proof. destruct (engine_sound W fuel) as [HG _]. apply HG. Qed.

Lemma inferSchemaFromValue_settles W fuel v c :
  settles c (inferSchemaFromValue W fuel v c).
Proof. destruct (engine_sound W fuel) as [_ HI]. apply HI. Qed.

(** ** Assigning properties *)

Lemma hasProperty_names key (properties : Properties) :
  hasProperty key properties = true <-> key ∈ (fst <$> properties).
Proof.
  unfold hasProperty. induction properties as [| [k s] properties IH]; simpl.
  - split; [done | by intros ?%elem_of_nil].
  - rewrite orb_true_iff, IH, elem_of_cons, String.eqb_eq. cbn. split; intros [? | ?]; auto.
Qed.

Lemma replaceProperty_names key schema (properties : Properties) :
  fst <$> replaceProperty key schema properties = fst <$> properties.
Proof.
  induction properties as [| [k s] properties IH]; [done |]. simpl.
  destruct (String.eqb k key); [done |]. cbn. by rewrite IH.
Qed.

Lemma replaceProperty_own key schema (properties : Properties) :
  key ∈ (fst <$> properties) -> (key, schema) ∈ replaceProperty key schema properties.
Proof.
  induction properties as [| [k s] properties IH]; [by intros ?%elem_of_nil |]. simpl.
  destruct (String.eqb k key) eqn:Hk.
  - apply String.eqb_eq in Hk as ->. intros _. apply list_elem_of_here.
  - apply String.eqb_neq in Hk. cbn. rewrite elem_of_cons. intros [? | Hin]; [congruence |].
    by apply list_elem_of_further, IH.
Qed.

Lemma replaceProperty_other key schema (properties : Properties) k0 s0 :
  k0 <> key -> (k0, s0) ∈ properties -> (k0, s0) ∈ replaceProperty key schema properties.
Proof.
  intros Hne. induction properties as [| [k s] properties IH]; [done |]. simpl.
  rewrite elem_of_cons. destruct (String.eqb k key) eqn:Hk.
  - apply String.eqb_eq in Hk as ->. intros [[= ? ?] | Hin]; [congruence |].
    by apply list_elem_of_further.
  - intros [-> | Hin]; [apply list_elem_of_here | by apply list_elem_of_further, IH].
Qed.

Lemma replaceProperty_plain key (properties : Properties) :
  Forall (fun entry => snd entry = plainObjectSchema) properties ->
  Forall (fun entry => snd entry = plainObjectSchema)
         (replaceProperty key plainObjectSchema properties).
Proof.
  induction 1 as [| [k s] properties Hs Hrest IH]; simpl; [done |].
  destruct (String.eqb k key); by constructor.
Qed.

Lemma insertIndex_elem_of n key schema (properties : Properties) entry :
  entry ∈ insertIndex n key schema properties
  <-> entry = (key, schema) \/ entry ∈ properties.
Proof.
  induction properties as [| [k s] properties IH]; simpl.
  - rewrite list_elem_of_singleton, elem_of_nil. tauto.
  - destruct (arrayIndex k) as [m |]; [destruct (N.ltb m n) |];
      rewrite !elem_of_cons, ?IH; tauto.
Qed.

(** The entries after [properties[key] = schema]. *)
Lemma setProperty_own key schema (properties : Properties) :
  key <> "__proto__" -> (key, schema) ∈ setProperty key schema properties.
Proof.
  intros Hkey. unfold setProperty.
  destruct (String.eqb key "__proto__") eqn:Hproto; [by apply String.eqb_eq in Hproto |].
  destruct (hasProperty key properties) eqn:Hhas.
  - by apply replaceProperty_own, hasProperty_names.
  - destruct (arrayIndex key).
    + apply insertIndex_elem_of. by left.
    + apply elem_of_app. right. apply list_elem_of_here.
Qed.

Lemma setProperty_other key schema (properties : Properties) k0 s0 :
  k0 <> key -> (k0, s0) ∈ properties -> (k0, s0) ∈ setProperty key schema properties.
Proof.
  intros Hne Hin. unfold setProperty.
  destruct (String.eqb key "__proto__"); [done |].
  destruct (hasProperty key properties).
  - by apply replaceProperty_other.
  - destruct (arrayIndex key).
    + apply insertIndex_elem_of. by right.
    + apply elem_of_app. by left.
Qed.

Lemma setProperty_names key schema (properties : Properties) name :
  name ∈ (fst <$> setProperty key schema properties)
  <-> (name = key /\ key <> "__proto__") \/ name ∈ (fst <$> properties).
Proof.
  unfold setProperty. destruct (String.eqb key "__proto__") eqn:Hproto.
  - apply String.eqb_eq in Hproto. tauto.
  - apply String.eqb_neq in Hproto.
    destruct (hasProperty key properties) eqn:Hhas.
    + rewrite replaceProperty_names. apply hasProperty_names in Hhas.
      split; [tauto |]. intros [[-> _] | ?]; done.
    + destruct (arrayIndex key).
      * rewrite !list_elem_of_fmap. split.
        -- intros ([k s] & -> & [[= -> ->] | Hin]%insertIndex_elem_of); [by left |].
           right. by exists (k, s).
        -- intros [[-> _] | ([k s] & -> & Hin)].
           ++ exists (key, schema). split; [done |]. apply insertIndex_elem_of. by left.
           ++ exists (k, s). split; [done |]. apply insertIndex_elem_of. by right.
      * rewrite fmap_app, elem_of_app. cbn. rewrite list_elem_of_singleton. tauto.
Qed.

Lemma setProperty_plain key (properties : Properties) :
  Forall (fun entry => snd entry = plainObjectSchema) properties ->
  Forall (fun entry => snd entry = plainObjectSchema)
         (setProperty key plainObjectSchema properties).
Proof.
  intros Hplain. unfold setProperty. destruct (String.eqb key "__proto__"); [done |].
  destruct (hasProperty key properties); [by apply replaceProperty_plain |].
  destruct (arrayIndex key).
  - apply Forall_forall. intros entry [-> | Hin]%insertIndex_elem_of; [done |].
    by apply (proj1 (Forall_forall _ _) Hplain).
  - apply Forall_app. split; [done |]. by repeat constructor.
Qed.

(** What a loop of assignments leaves of the properties that it does not
    assign. *)
Lemma assignEach_keeps infer entries properties c properties' c' k0 s0 :
  assignEach infer entries properties c = Returned properties' c' ->
  (k0, s0) ∈ properties -> k0 ∉ (fst <$> entries) -> (k0, s0) ∈ properties'.
Proof.
  revert properties c. induction entries as [| [key v] entries IH]; intros properties c; simpl.
  - by intros [= <- _].
  - destruct (infer v c) as [schema c1 | e c1]; [| done].
    intros Hloop Hin Hother. apply not_elem_of_cons in Hother as [Hne Hother].
    apply (IH _ _ Hloop); [| done]. by apply setProperty_other.
Qed.

Lemma assignEach_names infer entries properties c properties' c' name :
  assignEach infer entries properties c = Returned properties' c' ->
  name ∈ (fst <$> properties')
  <-> name ∈ (fst <$> properties)
      \/ (name ∈ (fst <$> entries) /\ name <> "__proto__").
Proof.
  revert properties c. induction entries as [| [key v] entries IH]; intros properties c; simpl.
  - intros [= <- _]. rewrite elem_of_nil. tauto.
  - destruct (infer v c) as [schema c1 | e c1]; [| done].
    intros Hloop. rewrite (IH _ _ Hloop), setProperty_names, elem_of_cons.
    split; [intros [[[-> ?] | ?] | [? ?]]; tauto |].
    intros [? | [[-> | ?] ?]]; tauto.
Qed.

(** ** The identities yet to be processed

    The entries of the cache that matter to the depth of the recursion
    are those of the identities of the heap: a call on one of them that
    misses the cache adds its entry before it recurses, so the calls
    below it see fewer pending identities.  Between two such calls the
    recursion only follows first elements of arrays. *)

Lemma filter_length_le {A} (P Q : A -> Prop)
    `{!forall x, Decision (P x)} `{!forall x, Decision (Q x)} (l : list A) :
  (forall x, P x -> Q x) -> length (filter P l) <= length (filter Q l).
Proof.
  intros HPQ. induction l as [| x l IH]; [done |].
  rewrite !filter_cons. destruct (decide (P x)) as [HP | HP].
  - rewrite decide_True by auto. simpl. lia.
  - destruct (decide (Q x)); simpl; lia.
Qed.

Lemma filter_length_lt {A} (P Q : A -> Prop)
    `{!forall x, Decision (P x)} `{!forall x, Decision (Q x)} (l : list A) (x : A) :
  (forall x, P x -> Q x) -> x ∈ l -> Q x -> ~ P x ->
  length (filter P l) < length (filter Q l).
Proof.
  intros HPQ Hx HQ HP. induction l as [| y l IH]; [by apply elem_of_nil in Hx |].
  rewrite !filter_cons. apply elem_of_cons in Hx as [<- | Hx].
  - rewrite decide_False, decide_True by done. simpl.
    pose proof (filter_length_le P Q l HPQ). lia.
  - specialize (IH Hx). destruct (decide (P y)) as [HPy | HPy].
    + rewrite decide_True by auto. simpl. lia.
    + destruct (decide (Q y)); simpl; lia.
Qed.

Lemma cacheGet_None_grows c c' type :
  cacheGrows c c' -> cacheGet type c' = None -> cacheGet type c = None.
Proof.
  intros Hgrows Hnone. destruct (cacheGet type c) as [schema |] eqn:Hc; [| done].
  apply Hgrows in Hc. congruence.
Qed.

Lemma pending_grows W c c' : cacheGrows c c' -> pending W c' <= pending W c.
Proof.
  intros Hgrows. apply filter_length_le. intros k. by apply cacheGet_None_grows.
Qed.

Lemma pending_step W c c' : cacheStep c c' -> pending W c' <= pending W c.
Proof. intros [Hgrows _]. by apply pending_grows. Qed.

Lemma pending_set_lt W type schema c :
  type ∈ heapKeys W -> cacheGet type c = None ->
  pending W (cacheSet type schema c) < pending W c.
Proof.
  intros Hkey Hmiss. apply (filter_length_lt _ _ _ type); [| done | done |].
  - intros k. by apply cacheGet_None_grows, cacheGrows_set.
  - by rewrite cacheGet_set_eq.
Qed.

Lemma pending_bound W c : pending W c <= length (functions W) + length (objects W).
Proof.
  unfold pending. etransitivity; [apply length_filter |].
  unfold heapKeys. rewrite length_app, !length_fmap, !length_seq. lia.
Qed.

Lemma heapKeys_function W f : f < length (functions W) -> VFunction f ∈ heapKeys W.
Proof.
  intros Hf. apply elem_of_app. left. apply list_elem_of_fmap.
  exists f. split; [done |]. apply elem_of_seq. lia.
Qed.

Lemma heapKeys_object W o : o < length (objects W) -> VObject o ∈ heapKeys W.
Proof.
  intros Ho. apply elem_of_app. right. apply list_elem_of_fmap.
  exists o. split; [done |]. apply elem_of_seq. lia.
Qed.

Lemma functionAt_outside W f : length (functions W) <= f -> functionAt W f = opaqueFunction.
Proof. intros Hf. unfold functionAt. by rewrite lookup_ge_None_2. Qed.

Lemma objectAt_outside W o : length (objects W) <= o -> objectAt W o = opaqueObject.
Proof. intros Ho. unfold objectAt. by rewrite lookup_ge_None_2. Qed.

(** In a well-founded heap the chain of first elements from any value is
    no longer than the heap. *)
Lemma arraysWellFounded_chain W v :
  arraysWellFounded W = true -> firstChainEnds W (length (objects W)) v = true.
Proof.
  intros Hwf. destruct v as [| | | | | | | | | o];
    try (by destruct (length (objects W))).
  destruct (decide (o < length (objects W))) as [Ho | Ho].
  - unfold arraysWellFounded in Hwf. rewrite forallb_forall in Hwf.
    apply Hwf, in_seq. lia.
  - assert (forall n, firstChainEnds W n (VObject o) = true) as Hout; [| apply Hout].
    intros n. destruct n; simpl; by rewrite objectAt_outside by lia.
Qed.


(** ** Where the engine raises *)

(** An array whose first element is the array itself: the walk nests
    until the stack is full, whatever room it had. *)
Lemma inferSchemaFromValue_self_containing_array W o text rest fuel c :
  objectAt W o = DArray text (VObject o :: rest) ->
  inferSchemaFromValue W fuel (VObject o) c = Threw tt c.
Proof.
  intros Hself. revert c. induction fuel as [| fuel IH]; intros c; [done |].
  simpl. unfold inferSchemaFromValue_body. rewrite Hself.
  unfold processArrayValue. rewrite decide_False by done. by rewrite IH.
Qed.

Lemma schemaOfType_not_builtin W G I type c :
  (forall b, type <> VBuiltin b) ->
  schemaOfType W G I type c
  = if isArrayType W type then processArrayType W G type c
    else match type with
         | VFunction f => processFunctionType W G I (functionAt W f) c
         | VObject o => processObjectInstance W I o c
         | _ => Returned plainObjectSchema c
         end.
Proof.
  intros Hnot. unfold schemaOfType.
  repeat match goal with
         | |- context [decide ?P] =>
             let Hd := fresh "Hd" in
             destruct (decide P) as [Hd | Hd];
             [exfalso;
              first [exact (Hnot _ Hd) | destruct Hd as [Hd | Hd]; exact (Hnot _ Hd)] |]
         end.
  destruct (isArrayType W type); [done |]. destruct type; try done.
  by destruct (Hnot b).
Qed.

Lemma getTypeSchema_uncached W fuel type c :
  cacheGet type c = None -> truthy type = true ->
  getTypeSchema W (S fuel) type c
  = match schemaOfType W (getTypeSchema W fuel) (inferSchemaFromValue W fuel) type
            (cacheSet type plainObjectSchema c) with
    | Returned schema c' => Returned schema (cacheSet type schema c')
    | outcome => outcome
    end.
Proof. intros Hmiss Htruthy. simpl. unfold getTypeSchema_body. by rewrite Hmiss, Htruthy. Qed.

(** C6, on the code — The engine raises: for an array value that
    contains itself as first element, [inferSchemaFromValue] ends with
    the [RangeError] of a full stack whatever room the stack had, and so
    does [getTypeSchema] on an object whose first property holds such an
    array.  No [try] lies on the path from [getTypeSchema] through
    [processObjectInstance] and [processArrayValue], and the cache is not
    consulted for array values; the provisional entry of the object stays
    in the cache. *)
Theorem schema_inference_raises
    (W : World) (i o : nat) (p : PlainObject) (name text : string)
    (others : list (string * value)) (rest : list value) (c : Cache) :
  objectAt W i = DPlain p ->
  obj_props p = (name, VObject o) :: others ->
  objectAt W o = DArray text (VObject o :: rest) ->
  isArrayType W (VObject i) = false ->
  cacheGet (VObject i) c = None ->
  (forall fuel, inferSchemaFromValue W fuel (VObject o) c = Threw tt c)
  /\ (forall fuel, getTypeSchema W (S fuel) (VObject i) c
                   = Threw tt (cacheSet (VObject i) plainObjectSchema c)).
Proof.
  intros Hinstance Hprops Hself Harray Hmiss. split.
  - intros fuel. by eapply inferSchemaFromValue_self_containing_array.
  - intros fuel. rewrite getTypeSchema_uncached, schemaOfType_not_builtin by done.
    rewrite Harray. unfold processObjectInstance, enumerableEntries.
    rewrite Hinstance, Hprops. cbn [assignEach].
    by rewrite (inferSchemaFromValue_self_containing_array W o text rest fuel _ Hself).
Qed.

Lemma schema_inference_raises_witness :
  (forall fuel, inferSchemaFromValue loopWorld fuel (VObject 1) [] = Threw tt [])
  /\ (forall fuel, getTypeSchema loopWorld (S fuel) (VObject 0) []
                   = Threw tt [(VObject 0, plainObjectSchema)]).
Proof.
  exact (schema_inference_raises loopWorld 0 1 _ "items" "" [] [] []
           eq_refl eq_refl eq_refl eq_refl eq_refl).
Defined.

(** A constructor that throws without arguments: the exception is caught
    and the properties come from the constructor's text. *)
Lemma getTypeSchema_failed_instantiation :
  getTypeSchema accountWorld 1 (VFunction 0) []
  = Returned (ObjectSchema (Some [("owner", plainObjectSchema); ("balance", plainObjectSchema)])
                           None)
             [(VFunction 0,
               ObjectSchema (Some [("owner", plainObjectSchema); ("balance", plainObjectSchema)])
                            None)].
Proof. by vm_compute. Qed.

(** Unrecognised data fall back to [{type:'object'}]. *)
Lemma getTypeSchema_falsy W fuel type c :
  truthy type = false -> cacheGet type c = None ->
  getTypeSchema W (S fuel) type c
  = Returned plainObjectSchema (cacheSet type plainObjectSchema c).
Proof. intros Hfalsy Hmiss. simpl. unfold getTypeSchema_body. by rewrite Hmiss, Hfalsy. Qed.

(** ** Built-in constructors *)

Lemma builtinsFaithful_nil : builtinsFaithful [].
Proof. by intros b schema. Qed.

(** The engine keeps the cache faithful, call after call. *)
Lemma getTypeSchema_keeps_faithful W fuel type c schema c' :
  getTypeSchema W fuel type c = Returned schema c' ->
  builtinsFaithful c -> builtinsFaithful c'.
Proof.
  intros Hcall.
  by destruct (settles_returned _ _ _ _ (getTypeSchema_settles W fuel type c) Hcall).
Qed.

Lemma getTypeSchema_builtin W fuel b c :
  builtinsFaithful c ->
  exists c', getTypeSchema W (S fuel) (VBuiltin b) c = Returned (builtinSchema b) c'.
Proof.
  intros Hfaithful. simpl. unfold getTypeSchema_body.
  destruct (cacheGet (VBuiltin b) c) as [schema |] eqn:Hcached.
  - rewrite (Hfaithful b schema Hcached). by eexists.
  - cbn [truthy negb]. rewrite schemaOfType_builtin. by eexists.
Qed.

(** C9 — [getTypeSchema] maps the [String] constructor to
    [{type:'string'}], the [Date] constructor to
    [{type:'string', format:'date-time'}] and the [Array] constructor, the
    descriptor of an array whose element type is not recoverable, to
    [{type:'array', items:{type:'object'}}], in every cache that earlier
    calls can have left. *)
Theorem getTypeSchema_String_Date_Array (W : World) (fuel : nat) (c : Cache) :
  builtinsFaithful c ->
  (exists c', getTypeSchema W (S fuel) (VBuiltin BString) c
              = Returned (StringSchema None) c')
  /\ (exists c', getTypeSchema W (S fuel) (VBuiltin BDate) c
                 = Returned (StringSchema (Some "date-time")) c')
  /\ (exists c', getTypeSchema W (S fuel) (VBuiltin BArray) c
                 = Returned (ArraySchema plainObjectSchema) c').
Proof.
  intros Hfaithful. repeat split.
  - apply (getTypeSchema_builtin W fuel BString c Hfaithful).
  - apply (getTypeSchema_builtin W fuel BDate c Hfaithful).
  - apply (getTypeSchema_builtin W fuel BArray c Hfaithful).
Qed.

Lemma getTypeSchema_String_Date_Array_witness :
  (exists c', getTypeSchema nodeWorld 1 (VBuiltin BString) [] = Returned (StringSchema None) c')
  /\ (exists c', getTypeSchema nodeWorld 1 (VBuiltin BDate) []
                 = Returned (StringSchema (Some "date-time")) c')
  /\ (exists c', getTypeSchema nodeWorld 1 (VBuiltin BArray) []
                 = Returned (ArraySchema plainObjectSchema) c').
Proof. exact (getTypeSchema_String_Date_Array nodeWorld 0 [] builtinsFaithful_nil). Defined.

(** Any descriptor taken for an array type whose text names no element
    type gets the same schema. *)
Lemma getTypeSchema_array_without_element_type W fuel type c :
  cacheGet type c = None ->
  truthy type = true ->
  (forall b, type <> VBuiltin b) ->
  isArrayType W type = true ->
  matchGeneric (textOf W type) = None ->
  getTypeSchema W (S fuel) type c
  = Returned (ArraySchema plainObjectSchema)
             (cacheSet type (ArraySchema plainObjectSchema)
                (cacheSet type plainObjectSchema c)).
Proof.
  intros Hmiss Htruthy Hnot Harray Hgeneric.
  rewrite getTypeSchema_uncached, schemaOfType_not_builtin by done.
  rewrite Harray. unfold processArrayType. by rewrite Hgeneric.
Qed.

(** While a descriptor is being processed, a reference to it is answered
    from the cache. *)
Lemma getTypeSchema_cached W fuel type schema c :
  cacheGet type c = Some schema ->
  getTypeSchema W (S fuel) type c = Returned schema c.
Proof. intros Hhit. simpl. unfold getTypeSchema_body. by rewrite Hhit. Qed.

(** ** Type descriptors always get a schema

    Every recursion below a constructor, a function or a primitive value
    lies inside a [try] whose handler makes no further call of the
    engine. *)

Section EngineReturns.
Variable W : World.
Variables G I : Inference.

Lemma inferTypeFromName_returns typeName c : returns (inferTypeFromName W G typeName c).
Proof.
  unfold inferTypeFromName.
  repeat (case_match; [by eexists _, _ |]).
  case_match; [| by eexists _, _].
  destruct (G _ c); by eexists _, _.
Qed.

Lemma processArrayType_returns type c : returns (processArrayType W G type c).
Proof.
  unfold processArrayType. case_match; [| by eexists _, _].
  destruct (inferTypeFromName_returns (trim s) c) as (schema & c' & ->).
  by eexists _, _.
Qed.

Lemma tryExtractMetadataProperties_returns fn properties c :
  returns (tryExtractMetadataProperties G fn properties c).
Proof.
  unfold tryExtractMetadataProperties.
  destruct (assignEach G (fn_design_properties fn) properties c)
    as [properties' c' | properties' c']; [| by eexists _, _].
  destruct (assignEach G (fn_design_type fn) properties' c'); by eexists _, _.
Qed.

Lemma tryInstantiateAndExtractProperties_returns fn properties c :
  returns (tryInstantiateAndExtractProperties W I fn properties c).
Proof.
  unfold tryInstantiateAndExtractProperties.
  destruct (fn_construct fn) as [instance |]; [| by eexists _, _].
  match goal with
  | |- context [assignEach I ?entries properties c] =>
      destruct (assignEach I entries properties c)
  end; by eexists _, _.
Qed.

Lemma processFunctionType_returns fn c : returns (processFunctionType W G I fn c).
Proof.
  unfold processFunctionType. destruct (fn_prototype fn).
  - destruct (tryExtractMetadataProperties_returns fn [] c) as (properties & c' & ->).
    destruct (Nat.eqb (length properties) 0).
    + destruct (tryInstantiateAndExtractProperties_returns fn properties c')
        as (properties' & c'' & ->).
      case_match; by eexists _, _.
    + case_match; by eexists _, _.
  - case_match; by eexists _, _.
Qed.

Lemma schemaOfType_descriptor_returns type c :
  isTypeDescriptor type = true -> returns (schemaOfType W G I type c).
Proof.
  intros Hdescriptor. unfold schemaOfType.
  repeat (case_decide; [by eexists _, _ |]).
  case_match; [apply processArrayType_returns |].
  case_decide; [by eexists _, _ |].
  destruct type; try done; try (by eexists _, _); apply processFunctionType_returns.
Qed.

(** An object instance is walked: its schema needs the calls on its
    properties to return. *)
Variable m : nat.
Hypothesis I_sound : Sound I.
Hypothesis I_returns : forall v c, pending W c <= m -> returns (I v c).

Lemma assignEach_returns infer entries properties c :
  Sound infer ->
  (forall v c, pending W c <= m -> returns (infer v c)) ->
  pending W c <= m ->
  returns (assignEach infer entries properties c).
Proof.
  intros Hsound Hinfer. revert properties c.
  induction entries as [| [name v] entries IH]; intros properties c Hc; simpl.
  - by eexists _, _.
  - destruct (Hinfer v c Hc) as (schema & c' & Hcall).
    pose proof (settles_returned _ _ _ _ (Hsound v c) Hcall) as Hstep.
    rewrite Hcall. apply IH. apply (pending_step W) in Hstep. lia.
Qed.

Lemma processObjectInstance_returns o c :
  pending W c <= m -> returns (processObjectInstance W I o c).
Proof.
  intros Hc. unfold processObjectInstance.
  destruct (assignEach_returns I (enumerableEntries W o) [] c I_sound I_returns Hc)
    as (properties & c' & ->).
  by eexists _, _.
Qed.

Lemma schemaOfType_returns type c :
  pending W c <= m -> returns (schemaOfType W G I type c).
Proof.
  intros Hc. destruct (isTypeDescriptor type) eqn:Hdescriptor;
    [by apply schemaOfType_descriptor_returns |].
  destruct type; try done. rewrite schemaOfType_not_builtin by done.
  case_match; [apply processArrayType_returns | by apply processObjectInstance_returns].
Qed.
End EngineReturns.

Lemma getTypeSchema_descriptor_returns W fuel type c :
  isTypeDescriptor type = true -> returns (getTypeSchema W (S fuel) type c).
Proof.
  intros Hdescriptor. simpl. unfold getTypeSchema_body.
  destruct (cacheGet type c); [by eexists _, _ |].
  destruct (negb (truthy type)); [by eexists _, _ |].
  destruct (schemaOfType_descriptor_returns W (getTypeSchema W fuel)
              (inferSchemaFromValue W fuel) type (cacheSet type plainObjectSchema c)
              Hdescriptor) as (schema & c' & ->).
  by eexists _, _.
Qed.

(** ** Object instances: the room that a heap needs

    An object instance given as descriptor is walked outside every [try],
    so its call returns only if the stack has room for the whole walk.
    A call on an identity of the heap that misses the cache adds its
    entry before it recurses, so the calls below it see fewer pending
    identities. *)

(** Decides the comparisons of a descriptor that is not a built-in
    constructor with the built-in constructors. *)
Ltac not_builtin :=
  repeat match goal with
         | |- context [decide ?P] =>
             let Hd := fresh "Hd" in
             destruct (decide P) as [Hd | Hd];
             [exfalso; first [discriminate Hd | destruct Hd; discriminate] |]
         end.

(** Identities that the heap does not describe have nothing to recurse into. *)
Lemma schemaOfType_outside_function W G I f c :
  length (functions W) <= f ->
  schemaOfType W G I (VFunction f) c
  = Returned (ObjectSchema None (Some "Schema for type Unknown")) c.
Proof.
  intros Hf. unfold schemaOfType, isArrayType, nameIsArray, textOf.
  rewrite (functionAt_outside W f Hf).
  by not_builtin.
Qed.

Lemma schemaOfType_outside_object W G I o c :
  length (objects W) <= o ->
  schemaOfType W G I (VObject o) c = Returned (ObjectSchema (Some []) None) c.
Proof.
  intros Ho. unfold schemaOfType, isArrayType, nameIsArray, textOf.
  rewrite (objectAt_outside W o Ho).
  not_builtin.
  cbn. unfold processObjectInstance, enumerableEntries.
  by rewrite (objectAt_outside W o Ho).
Qed.

Section Termination.
Variable W : World.
Hypothesis W_wf : arraysWellFounded W = true.

(** Values reach [getTypeSchema] again after at most as many array
    levels as the heap has objects. *)
Lemma inferSchemaFromValue_returns m :
  (forall fuel t c,
      2 + m * (length (objects W) + 3) <= fuel -> pending W c <= m ->
      returns (getTypeSchema W fuel t c)) ->
  forall d fuel v c,
    firstChainEnds W d v = true ->
    d + 3 + m * (length (objects W) + 3) <= fuel -> pending W c <= m ->
    returns (inferSchemaFromValue W fuel v c).
Proof.
  intros HG. induction d as [| d IH]; intros fuel v c Hchain Hfuel Hc;
    (destruct fuel as [| fuel]; [lia |]); simpl; unfold inferSchemaFromValue_body;
    (destruct v as [| | | | | | | | | o]; try by eexists _, _);
    simpl in Hchain;
    (destruct (objectAt W o) as [text [| first rest] | |];
      [by eexists _, _ | | by eexists _, _ | apply HG; [lia | done]]).
  - done.
  - unfold processArrayValue. case_decide; [by eexists _, _ |].
    destruct (IH fuel first c Hchain ltac:(lia) Hc) as (schema & c' & ->).
    by eexists _, _.
Qed.

(** A call on any datum: the identities of the heap are where the
    measure decreases, and only an object instance needs it. *)
Lemma getTypeSchema_returns_any m :
  (forall m', m' < m -> forall fuel t c,
      2 + m' * (length (objects W) + 3) <= fuel -> pending W c <= m' ->
      returns (getTypeSchema W fuel t c)) ->
  forall fuel t c,
    2 + m * (length (objects W) + 3) <= fuel -> pending W c <= m ->
    returns (getTypeSchema W fuel t c).
Proof.
  intros Hbelow fuel t c Hfuel Hc.
  destruct fuel as [| fuel]; [lia |].
  destruct (isTypeDescriptor t) eqn:Hdescriptor;
    [by apply getTypeSchema_descriptor_returns |].
  destruct t as [| | | | | | | | | o]; try done.
  simpl. unfold getTypeSchema_body.
  destruct (cacheGet (VObject o) c) as [schema |] eqn:Hmiss; [by eexists _, _ |].
  cbn [truthy negb].
  set (c1 := cacheSet (VObject o) plainObjectSchema c).
  enough (returns (schemaOfType W (getTypeSchema W fuel) (inferSchemaFromValue W fuel)
                     (VObject o) c1))
    as (schema & c' & ->) by (by eexists _, _).
  destruct (decide (o < length (objects W))) as [Ho | Ho];
    [| rewrite schemaOfType_outside_object by lia; by eexists _, _].
  pose proof (pending_set_lt W (VObject o) plainObjectSchema c
                (heapKeys_object W o Ho) Hmiss) as Hlt.
  fold c1 in Hlt.
  destruct m as [| m']; [lia |].
  destruct (engine_sound W fuel) as [_ HIs].
  apply (schemaOfType_returns W _ _ m' HIs); [| lia].
  intros v c' Hc'.
  apply (inferSchemaFromValue_returns m') with (d := length (objects W)).
  - intros. apply (Hbelow m'); [lia | done | done].
  - by apply arraysWellFounded_chain.
  - nia.
  - done.
Qed.

Lemma getTypeSchema_returns m fuel t c :
  2 + m * (length (objects W) + 3) <= fuel -> pending W c <= m ->
  returns (getTypeSchema W fuel t c).
Proof.
  revert fuel t c. induction m as [m IH] using lt_wf_ind.
  intros fuel t c. apply getTypeSchema_returns_any. intros m' Hm'. by apply IH.
Qed.
End Termination.

(** In a heap where no array is reached from itself through first
    elements, a stack with room for [fuelBound] nested calls suffices
    for any datum, object instances included. *)
Lemma getTypeSchema_returns_bound W fuel type c :
  arraysWellFounded W = true -> fuelBound W <= fuel ->
  returns (getTypeSchema W fuel type c).
Proof.
  intros Hwf Hfuel.
  apply (getTypeSchema_returns W Hwf (length (functions W) + length (objects W)));
    [exact Hfuel | apply pending_bound].
Qed.

(** ** Cycles among type descriptors *)

Lemma assignEach_keeps_threw infer entries properties c properties' c' k0 s0 :
  assignEach infer entries properties c = Threw properties' c' ->
  (k0, s0) ∈ properties -> k0 ∉ (fst <$> entries) -> (k0, s0) ∈ properties'.
Proof.
  revert properties c. induction entries as [| [key v] entries IH]; intros properties c; simpl.
  - done.
  - rewrite not_elem_of_cons.
    destruct (infer v c) as [schema c1 | e c1].
    + intros Hrest Hin [Hne Hnotin]. apply (IH _ _ Hrest); [| done].
      by apply setProperty_other.
    + by intros [= <- _].
Qed.

(** The loop over recorded property types, all of them type descriptors,
    comes back. *)
Lemma assignEach_descriptors W fuel entries properties c :
  Forall (fun entry => isTypeDescriptor (snd entry) = true) entries ->
  returns (assignEach (getTypeSchema W (S fuel)) entries properties c).
Proof.
  intros Hdescriptors. revert properties c.
  induction Hdescriptors as [| [key v] entries Hv _ IH]; intros properties c;
    [by eexists _, _ |].
  cbn [assignEach].
  destruct (getTypeSchema_descriptor_returns W fuel v c Hv) as (s & c1 & ->).
  apply IH.
Qed.

(** A property whose type is being processed gets the entry that the
    cache holds for that type. *)
Lemma assignEach_cached W fuel entries properties c name type schema :
  Forall (fun entry => isTypeDescriptor (snd entry) = true) entries ->
  NoDup (fst <$> entries) ->
  (name, type) ∈ entries ->
  name <> "__proto__" ->
  cacheGet type c = Some schema ->
  exists properties' c',
    assignEach (getTypeSchema W (S fuel)) entries properties c = Returned properties' c'
    /\ (name, schema) ∈ properties'.
Proof.
  intros Hdescriptors. revert properties c.
  induction Hdescriptors as [| [key v] entries Hv Hrest IH];
    intros properties c Hnodup Hin Hname Hhit; [by apply elem_of_nil in Hin |].
  apply NoDup_cons in Hnodup as [Hfresh Hnodup].
  cbn [assignEach].
  apply elem_of_cons in Hin as [[= <- <-] | Hin].
  - rewrite (getTypeSchema_cached W fuel type schema c Hhit).
    destruct (assignEach_descriptors W fuel entries (setProperty name schema properties) c
                Hrest) as (properties' & c' & Hloop).
    exists properties', c'. split; [done |].
    apply (assignEach_keeps _ _ _ _ _ _ _ _ Hloop); [by apply setProperty_own | done].
  - destruct (getTypeSchema_descriptor_returns W fuel v c Hv) as (s & c1 & Hcall).
    pose proof (getTypeSchema_settles W (S fuel) v c) as [Hgrows _].
    rewrite Hcall in *. cbn [cacheOf] in Hgrows.
    apply IH; [done | done | done | by apply Hgrows].
Qed.

(** C5 — Schema inference returns for every type descriptor: for a
    constructor, a function, a built-in or a primitive datum, with any
    cache and any room on the stack, [getTypeSchema] comes back with a
    schema, a finite tree.  A cyclic reference resolves to the
    provisional node: a class that records itself as the type of one of
    its properties misses the cache once, is entered under
    [{type:'object'}] before its members are visited, and the property
    that refers back to it gets exactly that node, two calls deep,
    whatever else the class refers to. *)
Theorem getTypeSchema_terminates (W : World) (fuel : nat) :
  (forall (type : value) (c : Cache),
      isTypeDescriptor type = true ->
      exists schema c', getTypeSchema W (S fuel) type c = Returned schema c')
  /\ (forall (f : nat) (name : string) (c : Cache),
         cacheGet (VFunction f) c = None ->
         isArrayType W (VFunction f) = false ->
         fn_prototype (functionAt W f) = true ->
         Forall (fun entry => isTypeDescriptor (snd entry) = true)
                (fn_design_properties (functionAt W f)) ->
         NoDup (fst <$> fn_design_properties (functionAt W f)) ->
         (name, VFunction f) ∈ fn_design_properties (functionAt W f) ->
         name <> "__proto__" ->
         name ∉ (fst <$> fn_design_type (functionAt W f)) ->
         exists schema c',
           getTypeSchema W (S (S fuel)) (VFunction f) c = Returned schema c'
           /\ (name, plainObjectSchema) ∈ schemaProperties schema
           /\ cacheGet (VFunction f) c' = Some schema).
Proof.
  split; [intros type c; apply getTypeSchema_descriptor_returns |].
  intros f name c Hmiss Harray Hproto Hdescriptors Hnodup Hself Hname Hctor.
  rewrite getTypeSchema_uncached, schemaOfType_not_builtin by done.
  rewrite Harray. unfold processFunctionType, tryExtractMetadataProperties.
  rewrite Hproto.
  destruct (assignEach_cached W fuel (fn_design_properties (functionAt W f)) []
              (cacheSet (VFunction f) plainObjectSchema c) name (VFunction f)
              plainObjectSchema Hdescriptors Hnodup Hself Hname (cacheGet_set_eq _ _ _))
    as (properties1 & c1 & -> & Hin1).
  destruct (assignEach _ (fn_design_type _) properties1 c1)
    as [properties2 c2 | properties2 c2] eqn:Hloop.
  1: pose proof (assignEach_keeps _ _ _ _ _ _ _ _ Hloop Hin1 Hctor) as Hin2.
  2: pose proof (assignEach_keeps_threw _ _ _ _ _ _ _ _ Hloop Hin1 Hctor) as Hin2.
  all: destruct properties2 as [| entry properties2]; [by apply elem_of_nil in Hin2 |].
  all: cbn [length Nat.eqb Nat.ltb Nat.leb].
  all: eexists _, _; (split; [done |]); (split; [done | apply cacheGet_set_eq]).
Qed.

Lemma getTypeSchema_terminates_witness :
  exists schema c',
    getTypeSchema nodeWorld 2 (VFunction 0) [] = Returned schema c'
    /\ ("next", plainObjectSchema) ∈ schemaProperties schema
    /\ cacheGet (VFunction 0) c' = Some schema.
Proof.
  apply (proj2 (getTypeSchema_terminates nodeWorld 0) 0 "next" []); try done.
  - by repeat constructor.
  - by apply (bool_decide_unpack _).
  - by apply (bool_decide_unpack _).
  - by apply (bool_decide_unpack _).
Defined.

(** The self-referential class of the specification, computed: the
    reference of [Node] to itself resolves to the provisional entry. *)
Lemma getTypeSchema_self_reference fuel :
  getTypeSchema nodeWorld (S (S fuel)) (VFunction 0) []
  = Returned (ObjectSchema (Some [("value", StringSchema None); ("next", plainObjectSchema)])
                           None)
             [(VFunction 0,
               ObjectSchema (Some [("value", StringSchema None); ("next", plainObjectSchema)])
                            None);
              (VBuiltin BString, StringSchema None)].
Proof. done. Qed.

(** An instance that refers to itself, directly and through an array:
    both references reach the constructor again and get the provisional
    entry. *)
Lemma getTypeSchema_self_referring_instance fuel :
  exists c',
    getTypeSchema folderWorld (4 + fuel) (VFunction 0) []
    = Returned (ObjectSchema (Some [("parent", plainObjectSchema);
                                    ("children", ArraySchema plainObjectSchema)])
                             None) c'.
Proof. eexists. by vm_compute. Qed.

(** The class whose instance holds an array that contains itself: the
    walk of the instance fills the stack, and the handler around the
    instantiation answers from the text of the constructor, whatever
    room the stack had. *)
Lemma getTypeSchema_class_of_self_containing_array fuel :
  getTypeSchema loopWorld (S fuel) (VFunction 0) []
  = Returned (ObjectSchema (Some [("items", plainObjectSchema)]) None)
             [(VFunction 0, ObjectSchema (Some [("items", plainObjectSchema)]) None)].
Proof.
  rewrite getTypeSchema_uncached, schemaOfType_not_builtin by done.
  replace (isArrayType loopWorld _) with false by done.
  change (functionAt loopWorld 0) with
    {| fn_name := "Loop";
       fn_text := "class Loop { constructor() { this.items = items; } }";
       fn_prototype := true; fn_design_properties := []; fn_design_type := [];
       fn_construct := Some 0 |}.
  unfold processFunctionType, tryExtractMetadataProperties. cbn [fn_prototype
    fn_design_properties fn_design_type assignEach length Nat.eqb].
  unfold tryInstantiateAndExtractProperties. cbn [fn_construct].
  change (filter _ (ownEntries loopWorld 0)) with [("items", VObject 1)].
  cbn [assignEach].
  by rewrite (inferSchemaFromValue_self_containing_array loopWorld 1 "" [] fuel _ eq_refl).
Qed.
(* ================================================================== *)
(** * Part III. Further properties                                      *)
(* ================================================================== *)

(** ** The store: order, overwriting, histories *)

Lemma jsmap_keys_set {V} k (v : V) m :
  jsmap_keys (jsmap_set k v m)
  = if bool_decide (is_Some (jsmap_get k m)) then jsmap_keys m else jsmap_keys m ++ [k].
Proof.
  induction m as [| [k' v'] m IH]; [done |]. simpl.
  destruct (Nat.eqb k k') eqn:Hk.
  - apply Nat.eqb_eq in Hk as ->. by rewrite bool_decide_eq_true_2.
  - cbn. unfold jsmap_keys in IH. rewrite IH. by case_bool_decide.
Qed.

Lemma jsmap_get_None_keys {V} k (m : JsMap V) :
  jsmap_get k m = None <-> k ∉ jsmap_keys m.
Proof.
  induction m as [| [k' v'] m IH]; simpl.
  - split; [intros _; apply not_elem_of_nil | done].
  - destruct (Nat.eqb k k') eqn:Hk.
    + apply Nat.eqb_eq in Hk as ->. split; [done |]. intros []. apply list_elem_of_here.
    + apply Nat.eqb_neq in Hk. rewrite IH. unfold jsmap_keys. cbn.
      rewrite not_elem_of_cons. split; [by split | by intros [_ ?]].
Qed.

Lemma jsmap_keys_set_NoDup {V} k (v : V) m :
  NoDup (jsmap_keys m) -> NoDup (jsmap_keys (jsmap_set k v m)).
Proof.
  intros Hm. rewrite jsmap_keys_set. case_bool_decide as Hk; [done |].
  apply NoDup_app. split_and!; [done | | apply NoDup_singleton].
  intros k' Hin ->%list_elem_of_singleton. apply Hk.
  destruct (jsmap_get k m) eqn:Hget; [by eexists |].
  by apply jsmap_get_None_keys in Hget.
Qed.

Lemma jsmap_elem_of_set {V} k (v : V) m k' v' :
  (k', v') ∈ jsmap_set k v m -> (k', v') ∈ m \/ (k' = k /\ v' = v).
Proof.
  induction m as [| [k0 v0] m IH]; simpl.
  - intros Hin%list_elem_of_singleton. right. by inversion Hin.
  - destruct (Nat.eqb k k0).
    + rewrite !elem_of_cons. intros [Heq | Hin]; [right; by inversion Heq | by left; right].
    + rewrite !elem_of_cons. intros [Heq | Hin]; [by left; left |].
      destruct (IH Hin) as [? | ?]; [by left; right | by right].
Qed.

(** X1 — [addRouteMetadata] appends: after registering the routes [added]
    for a class one after the other, the routes of that class are the
    earlier ones followed by [added] in the order of registration; the
    routes of every other class and the controllers are left as they
    were. *)
Theorem addRouteMetadata_appends_in_order (target : ClassId) (added : list RouteMetadata)
    (p : Process) :
  let p' := performAll (CallAddRoute target <$> added) p in
  routesOf (storedMetadata p') target = routesOf (storedMetadata p) target ++ added
  /\ (forall other, other <> target ->
        routesOf (storedMetadata p') other = routesOf (storedMetadata p) other)
  /\ controllers (storedMetadata p') = controllers (storedMetadata p).
Proof.
  cbv zeta. revert p. induction added as [| route added IH]; intros p.
  - simpl. by rewrite app_nil_r.
  - cbn [fmap list_fmap performAll fold_left].
    fold (performAll (CallAddRoute target <$> added)
            (run (perform (CallAddRoute target route)) p)).
    destruct (IH (run (perform (CallAddRoute target route)) p)) as (Hown & Hothers & Hcontrollers).
    assert (Hstep : storedMetadata (run (perform (CallAddRoute target route)) p)
                    = {| controllers := controllers (storedMetadata p);
                         routes := jsmap_set target
                                     (routesOf (storedMetadata p) target ++ [route])
                                     (routes (storedMetadata p)) |}).
    { unfold run, perform, addRouteMetadata, bind, getInstance, storedMetadata, routesOf.
      by destruct (instance p). }
    rewrite Hstep in Hown, Hothers, Hcontrollers. split_and!.
    + rewrite Hown. unfold routesOf at 1. cbn [routes]. rewrite jsmap_get_set. cbn.
      by rewrite <- app_assoc.
    + intros other Hother. rewrite (Hothers other Hother). unfold routesOf at 1. cbn [routes].
      by rewrite jsmap_get_set_ne.
    + by rewrite Hcontrollers.
Qed.

Lemma storedMetadata_addController target metadata p :
  storedMetadata (run (addControllerMetadata target metadata) p)
  = {| controllers := jsmap_set target metadata (controllers (storedMetadata p));
       routes := routes (storedMetadata p) |}.
Proof.
  unfold run, addControllerMetadata, bind, getInstance, storedMetadata.
  by destruct (instance p).
Qed.

Lemma storedMetadata_addRoute target route p :
  storedMetadata (run (addRouteMetadata target route) p)
  = {| controllers := controllers (storedMetadata p);
       routes := jsmap_set target (routesOf (storedMetadata p) target ++ [route])
                           (routes (storedMetadata p)) |}.
Proof.
  unfold run, addRouteMetadata, bind, getInstance, storedMetadata, routesOf.
  by destruct (instance p).
Qed.

Lemma storedMetadata_getMetadata p :
  storedMetadata (run (_ <- getMetadata ;; ret tt) p) = storedMetadata p.
Proof.
  unfold run, bind, ret, getMetadata, getInstance, storedMetadata.
  by destruct p as [[m |]].
Qed.

Lemma storedMetadata_reset p :
  storedMetadata (run resetMetadataStorage p) = emptyMetadata.
Proof. done. Qed.

(** X2 — [addControllerMetadata] overwrites in place: the class reads back
    the new metadata, every other class reads back what it did, the routes
    are untouched, and the class keeps its place in the iteration order
    when it was registered before (it goes last otherwise). *)
Theorem addControllerMetadata_overwrites_in_place (target : ClassId)
    (metadata : ControllerMetadata) (p : Process) :
  let before := storedMetadata p in
  let after := storedMetadata (run (addControllerMetadata target metadata) p) in
  jsmap_get target (controllers after) = Some metadata
  /\ (forall other, other <> target ->
        jsmap_get other (controllers after) = jsmap_get other (controllers before))
  /\ routes after = routes before
  /\ jsmap_keys (controllers after)
     = if bool_decide (is_Some (jsmap_get target (controllers before)))
       then jsmap_keys (controllers before)
       else jsmap_keys (controllers before) ++ [target].
Proof.
  cbv zeta. rewrite storedMetadata_addController. cbn [controllers routes]. split_and!.
  - apply jsmap_get_set.
  - intros other Hother. by apply jsmap_get_set_ne.
  - done.
  - apply jsmap_keys_set.
Qed.

(** X3 — Whatever calls the store has received since the process started,
    no class occurs twice among the keys of [controllers] or of [routes],
    and no class is mapped to an empty list of routes. *)
Theorem store_keys_unique (calls : list StoreCall) :
  let metadata := storedMetadata (performAll calls freshProcess) in
  NoDup (jsmap_keys (controllers metadata))
  /\ NoDup (jsmap_keys (routes metadata))
  /\ Forall (fun entry => 0 < length (snd entry)) (routes metadata).
Proof.
  cbv zeta.
  assert (Hgen : forall p,
    (NoDup (jsmap_keys (controllers (storedMetadata p)))
     /\ NoDup (jsmap_keys (routes (storedMetadata p)))
     /\ Forall (fun entry => 0 < length (snd entry)) (routes (storedMetadata p))) ->
    NoDup (jsmap_keys (controllers (storedMetadata (performAll calls p))))
    /\ NoDup (jsmap_keys (routes (storedMetadata (performAll calls p))))
    /\ Forall (fun entry => 0 < length (snd entry))
              (routes (storedMetadata (performAll calls p)))).
  { induction calls as [| call calls IH]; intros p Hp; [done |].
    cbn [performAll fold_left]. fold (performAll calls (run (perform call) p)).
    apply IH. destruct Hp as (Hc & Hr & Hne). destruct call as [target cm | target route | |];
      cbn [perform].
    - rewrite storedMetadata_addController. cbn [controllers routes].
      split_and!; [by apply jsmap_keys_set_NoDup | done | done].
    - rewrite storedMetadata_addRoute. cbn [controllers routes].
      split_and!; [done | by apply jsmap_keys_set_NoDup |].
      apply Forall_forall. intros [k rs] Hin. apply jsmap_elem_of_set in Hin as [Hin | [_ ->]].
      + by apply (proj1 (Forall_forall _ _) Hne (k, rs)).
      + cbn. rewrite length_app. cbn. lia.
    - by rewrite storedMetadata_getMetadata.
    - rewrite storedMetadata_reset. cbn. split_and!; [apply NoDup_nil_2 .. | done]. }
  apply Hgen. cbn. split_and!; [apply NoDup_nil_2 .. | done].
Qed.

Lemma performAll_storedMetadata calls p q :
  storedMetadata p = storedMetadata q ->
  storedMetadata (performAll calls p) = storedMetadata (performAll calls q).
Proof.
  revert p q. induction calls as [| call calls IH]; intros p q Heq; [done |].
  cbn [performAll fold_left].
  fold (performAll calls (run (perform call) p)) (performAll calls (run (perform call) q)).
  apply IH. destruct call as [target cm | target route | |]; cbn [perform].
  - by rewrite !storedMetadata_addController, Heq.
  - by rewrite !storedMetadata_addRoute, Heq.
  - by rewrite !storedMetadata_getMetadata.
  - by rewrite !storedMetadata_reset.
Qed.

(** X4 — [resetMetadataStorage] gives back the store of a process that has
    just started: whatever was registered before, the same calls made after
    a reset leave the same metadata, and generate the same document, as
    when they are made first thing. *)
Theorem resetMetadataStorage_starts_over (calls : list StoreCall) (options : OpenAPIOptions)
    (p : Process) :
  let afterReset := performAll calls (run resetMetadataStorage p) in
  let fromStart := performAll calls freshProcess in
  storedMetadata afterReset = storedMetadata fromStart
  /\ fst (generateOpenAPISpec options afterReset)
     = fst (generateOpenAPISpec options fromStart).
Proof.
  cbv zeta.
  assert (Hsame : storedMetadata (performAll calls (run resetMetadataStorage p))
                  = storedMetadata (performAll calls freshProcess))
    by by apply performAll_storedMetadata.
  split; [done |]. by rewrite !generateOpenAPISpec_document, Hsame.
Qed.

(** ** The builder: which route an operation comes from *)

(** X5 — Last write wins: the operation that the document holds under a
    path and a method is the [routeSpec] of the last route, in the order
    in which the builder visits controllers and their routes, whose full
    path and method are these; there is none when no route has them. *)
Theorem generateOpenAPISpec_last_route_wins (options : OpenAPIOptions) (p : Process)
    (key method : string) :
  operationAt (doc_paths (fst (generateOpenAPISpec options p))) key method
  = visitSpec <$> last (List.filter (documentedAt options key method)
                                    (visitedRoutes (storedMetadata p))).
Proof.
  rewrite generateOpenAPISpec_document, buildDocument_visits, operationAt_visits.
  by destruct (last _).
Qed.

Lemma documentedAt_own options visit :
  documentedAt options
    (fullPath (orString (opt_base options) "")
              (withLeadingSlash (controller_path (fst visit))) (snd visit))
    (methodKey (route_method (snd visit))) visit = true.
Proof. unfold documentedAt. by rewrite !String.eqb_refl. Qed.

Lemma visitedRoutes_nil metadata :
  visitedRoutes metadata = []
  <-> Forall (fun entry => routesOf metadata (fst entry) = []) (controllers metadata).
Proof.
  unfold visitedRoutes. generalize (controllers metadata). intros cs.
  induction cs as [| entry cs IH]; [done |]. cbn [flat_map].
  rewrite Forall_cons, <- IH. split.
  - intros [Hhere Hrest]%app_eq_nil. split; [| done]. by apply fmap_nil_inv in Hhere.
  - intros [-> ->]. done.
Qed.

(** X6 — The document has no path exactly when no class registered with
    [Controller] has a route: a class registered without routes adds
    nothing, and every route of a registered class adds a path. *)
Theorem generateOpenAPISpec_no_paths (options : OpenAPIOptions) (p : Process) :
  doc_paths (fst (generateOpenAPISpec options p)) = ∅
  <-> Forall (fun entry => routesOf (storedMetadata p) (fst entry) = [])
             (controllers (storedMetadata p)).
Proof.
  rewrite generateOpenAPISpec_document, buildDocument_visits, <- visitedRoutes_nil.
  destruct (visitedRoutes (storedMetadata p)) as [| visit visits] eqn:Hvisits; [done |].
  split; [| done]. intros Hempty. exfalso.
  pose proof (operationAt_visits options (visit :: visits) ∅
                (fullPath (orString (opt_base options) "")
                          (withLeadingSlash (controller_path (fst visit))) (snd visit))
                (methodKey (route_method (snd visit)))) as Hop.
  rewrite Hempty in Hop. cbn [List.filter] in Hop.
  rewrite (documentedAt_own options visit), last_cons in Hop.
  unfold operationAt in Hop at 1. rewrite lookup_empty in Hop.
  by destruct (last _).
Qed.

Lemma startsWith_slash_app a b :
  startsWith "/" (a +:+ b) = if String.eqb a "" then startsWith "/" b else startsWith "/" a.
Proof. by destruct a. Qed.

Lemma collapseRepeatedSlashes_startsWith s :
  startsWith "/" (collapseRepeatedSlashes s) = startsWith "/" s.
Proof.
  destruct s as [| c s]; [done |].
  by rewrite collapseRepeatedSlashes_head, startsWith_slash_cons.
Qed.

Lemma fullPath_startsWith basePrefix path route :
  startsWith "/" (fullPath basePrefix (withLeadingSlash path) route)
  = String.eqb basePrefix "" || startsWith "/" basePrefix.
Proof.
  unfold fullPath. rewrite replaceSlashRuns_collapse, collapseRepeatedSlashes_startsWith.
  rewrite startsWith_slash_app. destruct (String.eqb basePrefix "") eqn:Hbase; [| done].
  cbn [orb]. rewrite startsWith_slash_app.
  pose proof (withLeadingSlash_startsWith path) as Hpath.
  destruct (String.eqb (withLeadingSlash path) "") eqn:Hempty; [| done].
  apply String.eqb_eq in Hempty. by rewrite Hempty in Hpath.
Qed.

(** X7 — The shape of the documented paths: a key of [paths] never has two
    adjacent [/], and it starts with [/] exactly when the base prefix of
    the options is absent, empty or itself starts with [/]. *)
Theorem generateOpenAPISpec_key_shape (options : OpenAPIOptions) (p : Process)
    (key : string) :
  is_Some (doc_paths (fst (generateOpenAPISpec options p)) !! key) ->
  noRepeatedSlash key = true
  /\ startsWith "/" key
     = String.eqb (orString (opt_base options) "") ""
       || startsWith "/" (orString (opt_base options) "").
Proof.
  intros [item Hitem].
  apply generateOpenAPISpec_keys_from_routes in Hitem
    as (controller & cm & route & _ & _ & ->).
  rewrite <- orString_empty_default. split.
  - unfold fullPath. rewrite replaceSlashRuns_collapse.
    apply collapseRepeatedSlashes_noRepeatedSlash.
  - apply fullPath_startsWith.
Qed.

Lemma generateOpenAPISpec_key_shape_witness :
  noRepeatedSlash "/api/v1/users" = true
  /\ startsWith "/" "/api/v1/users" = true.
Proof.
  exact (generateOpenAPISpec_key_shape (apiOptions (Some "/api/v1")) usersProcess
           "/api/v1/users" (mk_is_Some _ _ eq_refl)).
Defined.

Lemma jsmap_set_absent {V} k (v : V) m :
  jsmap_get k m = None -> jsmap_set k v m = m ++ [(k, v)].
Proof.
  induction m as [| [k' v'] m IH]; [done |]. simpl.
  destruct (Nat.eqb k k'); [done |]. intros Hget. by rewrite IH.
Qed.

(** The visits of the registered controllers do not depend on the routes
    kept for a class that is not registered. *)
Lemma visits_of_registered target (rs : list RouteMetadata)
    (cs : JsMap ControllerMetadata) (routes0 : JsMap (list RouteMetadata)) :
  jsmap_get target cs = None ->
  flat_map (fun entry : ClassId * ControllerMetadata =>
              (fun route => (snd entry, route))
              <$> default [] (jsmap_get (fst entry) (jsmap_set target rs routes0))) cs
  = flat_map (fun entry : ClassId * ControllerMetadata =>
                (fun route => (snd entry, route))
                <$> default [] (jsmap_get (fst entry) routes0)) cs.
Proof.
  induction cs as [| [k cm] cs IH]; [done |]. simpl.
  destruct (Nat.eqb target k) eqn:Hk; [done |]. intros Hget.
  apply Nat.eqb_neq in Hk. rewrite IH by done.
  by rewrite jsmap_get_set_ne.
Qed.

Lemma visitedRoutes_unregistered target rs metadata :
  jsmap_get target (controllers metadata) = None ->
  visitedRoutes {| controllers := controllers metadata;
                   routes := jsmap_set target rs (routes metadata) |}
  = visitedRoutes metadata.
Proof. intros Hget. unfold visitedRoutes, routesOf. cbn. by apply visits_of_registered. Qed.

Lemma visitedRoutes_new_controller target cm rs metadata :
  jsmap_get target (controllers metadata) = None ->
  visitedRoutes {| controllers := jsmap_set target cm (controllers metadata);
                   routes := jsmap_set target rs (routes metadata) |}
  = visitedRoutes metadata ++ ((fun route => (cm, route)) <$> rs).
Proof.
  intros Hget. unfold visitedRoutes, routesOf. cbn [controllers routes].
  rewrite (jsmap_set_absent _ _ _ Hget), flat_map_app. f_equal.
  - by apply visits_of_registered.
  - cbn. by rewrite jsmap_get_set, app_nil_r.
Qed.

Lemma buildDocument_paths options metadata metadata' :
  visitedRoutes metadata' = visitedRoutes metadata ->
  buildDocument options metadata' = buildDocument options metadata.
Proof.
  intros Hvisits.
  pose proof (buildDocument_visits options metadata) as Hpaths.
  pose proof (buildDocument_visits options metadata') as Hpaths'.
  rewrite Hvisits, <- Hpaths in Hpaths'. unfold buildDocument in *. cbn in *.
  by rewrite Hpaths'.
Qed.

(** X8 — A route declared on a class that is not registered with
    [Controller] is served but not documented: the generated document is
    the one generated without the route, while the router that
    [registerControllers] mounts for the class gets the route, under the
    base prefix alone. *)
Theorem unregistered_class_served_not_documented (options : OpenAPIOptions)
    (target : ClassId) (route : RouteMetadata) (p : Process) :
  jsmap_get target (controllers (storedMetadata p)) = None ->
  let p' := run (addRouteMetadata target route) p in
  fst (generateOpenAPISpec options p') = fst (generateOpenAPISpec options p)
  /\ mount_routes (mountController options (storedMetadata p') target)
     = mount_routes (mountController options (storedMetadata p) target)
       ++ [(route_method route,
            if String.eqb (route_path route) "" then "/" else route_path route,
            route_handlerName route)]
  /\ mount_path (mountController options (storedMetadata p') target)
     = replaceSlashRuns (orString (opt_base options) "" +:+ "/").
Proof.
  intros Hget. cbv zeta. rewrite !generateOpenAPISpec_document, storedMetadata_addRoute.
  split_and!.
  - apply buildDocument_paths. by apply visitedRoutes_unregistered.
  - unfold mountController, routesOf. cbn [mount_routes routes].
    rewrite jsmap_get_set. cbn [default from_option id]. by rewrite fmap_app.
  - unfold mountController. cbn [mount_path controllers]. by rewrite Hget.
Qed.

Lemma unregistered_class_served_not_documented_witness :
  fst (generateOpenAPISpec (apiOptions None)
         (run (addRouteMetadata 1 getUsersRoute) usersProcess))
  = fst (generateOpenAPISpec (apiOptions None) usersProcess)
  /\ mount_routes (mountController (apiOptions None)
                     (storedMetadata (run (addRouteMetadata 1 getUsersRoute) usersProcess)) 1)
     = [(GET, "/", "getUsers")]
  /\ mount_path (mountController (apiOptions None)
                   (storedMetadata (run (addRouteMetadata 1 getUsersRoute) usersProcess)) 1)
     = "/".
Proof.
  exact (unregistered_class_served_not_documented (apiOptions None) 1 getUsersRoute
           usersProcess eq_refl).
Defined.

(** ** Declaring a class: decorators, then the document *)

Lemma operationAt_new_controller options target cm rs route metadata :
  jsmap_get target (controllers metadata) = None ->
  operationAt
    (doc_paths (buildDocument options
                  {| controllers := jsmap_set target cm (controllers metadata);
                     routes := jsmap_set target (rs ++ [route]) (routes metadata) |}))
    (fullPath (orString (opt_base options) "") (withLeadingSlash (controller_path cm)) route)
    (methodKey (route_method route))
  = Some (routeSpec cm route).
Proof.
  intros Hget. rewrite buildDocument_visits, visitedRoutes_new_controller by done.
  rewrite operationAt_visits, fmap_app, !List.filter_app. cbn [fmap list_fmap List.filter].
  pose proof (documentedAt_own options (cm, route)) as Hown. cbn [fst snd] in Hown.
  by rewrite Hown, app_assoc, last_snoc.
Qed.

Lemma storedMetadata_declared typeSchema successSchema method path options r cpath coptions p :
  storedMetadata
    (run (Controller cpath coptions (refl_target r))
         (run (createMethodDecorator typeSchema successSchema method path options r) p))
  = {| controllers :=
         jsmap_set (refl_target r)
           {| controller_path := spread (withLeadingSlash cpath) (copt_path coptions);
              controller_description := spread None (copt_description coptions);
              controller_tags := spread None (copt_tags coptions) |}
           (controllers (storedMetadata p));
       routes :=
         jsmap_set (refl_target r)
           (routesOf (storedMetadata p) (refl_target r)
            ++ [decoratedRoute typeSchema successSchema method path options r])
           (routes (storedMetadata p)) |}.
Proof.
  unfold Controller, createMethodDecorator.
  by rewrite storedMetadata_addController, storedMetadata_addRoute.
Qed.

Lemma orString_orString o d : orString (Some (orString o d)) d = orString o d.
Proof.
  destruct o as [s |]; simpl.
  - destruct (String.eqb s "") eqn:Hs; [| by rewrite Hs]. by destruct (String.eqb d "").
  - by destruct (String.eqb d "").
Qed.

Lemma routeSpec_single_body cm route bodyParam :
  route_parameters route = Some [bodyParam] ->
  param_in bodyParam = InBody ->
  op_parameters (routeSpec cm route) = None
  /\ op_requestBody (routeSpec cm route) = Some (requestBodyOf bodyParam).
Proof.
  intros Hparameters Hbody.
  assert (Hyes : isBodyParameter bodyParam = true)
    by (unfold isBodyParameter; by apply bool_decide_eq_true_2).
  unfold routeSpec. rewrite Hparameters. cbn [default from_option id].
  cbn [op_parameters op_requestBody].
  rewrite (filter_cons_True (fun p => isBodyParameter p = true)) by done.
  rewrite (filter_cons_False (fun p => isBodyParameter p = false)) by (by rewrite Hyes).
  by rewrite !filter_nil.
Qed.

(** X9 — A parameter decorated with [Body] is documented as the request
    body, for every HTTP method: when the class is declared with one
    method whose only decorated parameter carries [Body(bodyOptions)], a
    method decorator and then [Controller], the operation found under the
    route's full path and method has no [parameters], and its
    [requestBody] has the description of the options (['Request body']
    when absent or empty), is required unless the options say
    [required: false], and carries the schema inferred for the type of
    the decorated parameter. *)
Theorem Body_documented_as_requestBody
    (typeSchema : value -> SchemaObject)
    (successSchema : HttpMethod -> MethodReflection -> list ParameterMetadata -> SchemaObject)
    (bodyOptions : BodyOptions) (method : HttpMethod) (path cpath : string)
    (options : OpenAPIOptions) (target : ClassId) (propertyKey : string)
    (paramTypes : list value) (parameterIndex : nat) (returnType : value)
    (pendingResponses : ResponseMetadata) (methodText : string)
    (registry : ParameterRegistry) (p : Process) :
  registry !! (target, propertyKey) = None ->
  jsmap_get target (controllers (storedMetadata p)) = None ->
  let registry' :=
    Body typeSchema bodyOptions target propertyKey paramTypes parameterIndex registry in
  let r := reflectMethod registry' target propertyKey paramTypes returnType
             pendingResponses methodText in
  let route := decoratedRoute typeSchema successSchema method path noRouteOptions r in
  let p' := run (Controller cpath noControllerOptions target)
              (run (createMethodDecorator typeSchema successSchema method path
                      noRouteOptions r) p) in
  exists op,
    operationAt (doc_paths (fst (generateOpenAPISpec options p')))
      (fullPath (orString (opt_base options) "") (withLeadingSlash cpath) route)
      (methodKey method)
    = Some op
    /\ op_parameters op = None
    /\ op_requestBody op
       = Some {| body_description := orString (bopt_description bodyOptions) "Request body";
                 body_required := match bopt_required bodyOptions with
                                  | Some false => false
                                  | _ => true
                                  end;
                 body_content :=
                   {[ "application/json" :=
                        {| media_schema :=
                             Some (typeSchema (default VUndefined
                                                 (paramTypes !! parameterIndex))) |} ]} |}.
Proof.
  intros Hfirst Hnew. cbv zeta.
  set (r := reflectMethod _ _ _ _ _ _ _).
  set (route := decoratedRoute _ _ _ _ _ r).
  rewrite generateOpenAPISpec_document.
  change (Controller cpath noControllerOptions target)
    with (Controller cpath noControllerOptions (refl_target r)).
  rewrite storedMetadata_declared.
  pose proof (operationAt_new_controller options (refl_target r)
                {| controller_path := withLeadingSlash cpath;
                   controller_description := None; controller_tags := None |}
                (routesOf (storedMetadata p) (refl_target r)) route (storedMetadata p) Hnew)
    as Hop.
  cbn [controller_path] in Hop. rewrite withLeadingSlash_idempotent in Hop.
  eexists. split; [exact Hop |].
  assert (Hparameters : route_parameters route
                        = Some [ {| param_name := "body"; param_in := InBody;
                                    param_required :=
                                      Some (match bopt_required bodyOptions with
                                            | Some false => false
                                            | _ => true
                                            end);
                                    param_type := "object";
                                    param_description :=
                                      Some (orString (bopt_description bodyOptions)
                                              "Request body");
                                    param_schema :=
                                      Some (typeSchema (default VUndefined
                                                          (paramTypes !! parameterIndex))) |} ]).
  { unfold route, decoratedRoute, routeParameters, r, reflectMethod, Body.
    cbn [route_parameters noRouteOptions ropt_parameters spread refl_decoratedParameters].
    by rewrite lookup_insert_eq, Hfirst. }
  destruct (routeSpec_single_body
              {| controller_path := withLeadingSlash cpath;
                 controller_description := None; controller_tags := None |}
              route _ Hparameters eq_refl) as [-> ->].
  split; [done |]. unfold requestBodyOf.
  cbn [param_description param_required param_schema default from_option id].
  rewrite orString_orString.
  by destruct (bopt_required bodyOptions) as [[|] |].
Qed.

Lemma Body_documented_as_requestBody_witness :
  exists op,
    operationAt (doc_paths (fst (generateOpenAPISpec (apiOptions None) itemsProcess)))
                "/items" "post"
    = Some op
    /\ op_parameters op = None
    /\ op_requestBody op
       = Some {| body_description := "Item to create"; body_required := false;
                 body_content :=
                   {[ "application/json" := {| media_schema := Some plainObjectSchema |} ]} |}.
Proof.
  exact (Body_documented_as_requestBody anySchema anySuccessSchema itemBodyOptions POST
           "/" "items" (apiOptions None) 0 "createItem" [VFunction 0] 0 VUndefined ∅
           "createItem(body) { return body; }" ∅ freshProcess eq_refl eq_refl).
Defined.

Lemma routeParameters_synthesized typeSchema method r :
  refl_decoratedParameters r = [] ->
  routeParameters typeSchema method r
  = if acceptsBody method && Nat.ltb 0 (length (refl_paramTypes r))
    then [ {| param_name := "body"; param_in := InBody; param_required := Some true;
              param_type := "object"; param_description := Some "Request body";
              param_schema :=
                Some (typeSchema (default VUndefined (head (refl_paramTypes r)))) |} ]
    else [].
Proof. intros Hnone. unfold routeParameters. rewrite Hnone. cbn. by destruct (_ && _). Qed.

(** X10 — Without a [Body] decorator, the operation of a decorated route
    has a request body exactly when the method is POST, PUT or PATCH and
    the handler has at least one declared parameter: the body is then
    required, described as ['Request body'] and typed by the first
    parameter.  No such route has [parameters]. *)
Theorem undecorated_parameters_requestBody
    (typeSchema : value -> SchemaObject)
    (successSchema : HttpMethod -> MethodReflection -> list ParameterMetadata -> SchemaObject)
    (cm : ControllerMetadata) (method : HttpMethod) (path : string) (r : MethodReflection) :
  refl_decoratedParameters r = [] ->
  let op := routeSpec cm (decoratedRoute typeSchema successSchema method path
                            noRouteOptions r) in
  op_parameters op = None
  /\ op_requestBody op
     = if acceptsBody method && Nat.ltb 0 (length (refl_paramTypes r))
       then Some {| body_description := "Request body"; body_required := true;
                    body_content :=
                      {[ "application/json" :=
                           {| media_schema :=
                                Some (typeSchema (default VUndefined
                                                    (head (refl_paramTypes r)))) |} ]} |}
       else None.
Proof.
  intros Hnone. cbv zeta.
  set (route := decoratedRoute _ _ _ _ _ _).
  assert (Hparameters : route_parameters route = Some (routeParameters typeSchema method r))
    by done.
  rewrite routeParameters_synthesized in Hparameters by done.
  destruct (acceptsBody method && Nat.ltb 0 (length (refl_paramTypes r))).
  - by destruct (routeSpec_single_body cm route _ Hparameters eq_refl) as [-> ->].
  - unfold routeSpec. by rewrite Hparameters.
Qed.

Lemma undecorated_parameters_requestBody_witness :
  op_parameters (routeSpec usersController
                   (decoratedRoute anySchema anySuccessSchema GET "/" noRouteOptions
                      (handlerWithParameter 0 "findItems"))) = None
  /\ op_requestBody (routeSpec usersController
                       (decoratedRoute anySchema anySuccessSchema GET "/" noRouteOptions
                          (handlerWithParameter 0 "findItems"))) = None.
Proof.
  exact (undecorated_parameters_requestBody anySchema anySuccessSchema usersController
           GET "/" (handlerWithParameter 0 "findItems") eq_refl).
Defined.

(** ** [registerControllers]: what is documented, what is mounted *)

Lemma addVisit_base options options' :
  orString (opt_base options') "" = orString (opt_base options) "" ->
  forall visits paths,
    fold_left (addVisit options') visits paths = fold_left (addVisit options) visits paths.
Proof.
  intros Hbase visits. induction visits as [| visit visits IH]; intros paths; [done |].
  cbn [fold_left]. rewrite IH. unfold addVisit. by rewrite Hbase.
Qed.

(** X11 — The document that [registerControllers] writes and serves: its
    paths are those of a direct call of [generateOpenAPISpec] with the
    same options, whichever classes are passed (every class registered in
    the process is documented, passed or not); an empty title becomes
    ['API Documentation'], an empty version ['1.0.0'], the description is
    always set, and without [servers] the document lists no server at
    all, where the direct call lists [{ url: '/' }]. *)
Theorem registerControllers_document (controllerClasses : list ClassId)
    (openApiDoc : OpenAPIOptions) (p : Process) :
  let apiDoc := fst (fst (registerControllers controllerClasses openApiDoc p)) in
  let direct := fst (generateOpenAPISpec openApiDoc p) in
  doc_paths apiDoc = doc_paths direct
  /\ apiDoc = fst (fst (registerControllers [] openApiDoc p))
  /\ info_title (doc_info apiDoc) = orString (Some (opt_title openApiDoc)) "API Documentation"
  /\ info_version (doc_info apiDoc) = orString (Some (opt_version openApiDoc)) "1.0.0"
  /\ info_description (doc_info apiDoc)
     = Some (orString (opt_description openApiDoc) "Auto-generated API documentation")
  /\ doc_servers apiDoc = default [] (opt_servers openApiDoc)
  /\ doc_servers direct
     = default [ {| server_url := "/"; server_description := None |} ]
               (opt_servers openApiDoc).
Proof.
  cbv zeta.
  assert (Hdoc : forall cs, fst (fst (registerControllers cs openApiDoc p))
                            = buildDocument (registrationOptions openApiDoc) (storedMetadata p)).
  { intros cs. unfold registerControllers, bind, ret.
    pose proof (generateOpenAPISpec_document (registrationOptions openApiDoc) p) as Hgen.
    destruct (generateOpenAPISpec (registrationOptions openApiDoc) p) as [doc p1].
    destruct (getMetadata p1) as [metadata p2]. cbn in *. done. }
  rewrite !Hdoc, generateOpenAPISpec_document. split_and!; try done.
  rewrite !buildDocument_visits. apply addVisit_base.
  cbn [registrationOptions opt_base]. apply orString_orString.
Qed.

Lemma string_app_empty_r (s : string) : s +:+ "" = s.
Proof.
  induction s as [| c s IH]; [done |].
  change (String c s +:+ "") with (String c (s +:+ "")). by rewrite IH.
Qed.

Lemma string_app_assoc (a b c : string) : a +:+ (b +:+ c) = (a +:+ b) +:+ c.
Proof.
  induction a as [| x a IH]; [done |].
  change (String x a +:+ (b +:+ c)) with (String x (a +:+ (b +:+ c))).
  change ((String x a +:+ b) +:+ c) with (String x ((a +:+ b) +:+ c)).
  by rewrite IH.
Qed.

Lemma collapseRepeatedSlashes_empty s : collapseRepeatedSlashes s = "" -> s = "".
Proof.
  destruct s as [| c s]; [done |]. intros Hempty.
  pose proof (collapseRepeatedSlashes_head c s) as Hhead. rewrite Hempty in Hhead.
  rewrite collapseRepeatedSlashes_cons in Hempty.
  by rewrite <- Hhead in Hempty.
Qed.

Lemma startsWith_slash_collapse_app a b :
  startsWith "/" (collapseRepeatedSlashes a +:+ b) = startsWith "/" (a +:+ b).
Proof.
  rewrite !startsWith_slash_app, collapseRepeatedSlashes_startsWith.
  destruct (String.eqb (collapseRepeatedSlashes a) "") eqn:Hempty.
  - apply String.eqb_eq, collapseRepeatedSlashes_empty in Hempty. by subst a.
  - destruct (String.eqb a "") eqn:Ha; [| done].
    apply String.eqb_eq in Ha. by subst a.
Qed.

(** Collapsing what has been collapsed in part gives what collapsing the
    whole gives. *)
Lemma collapseRepeatedSlashes_app_l a b :
  collapseRepeatedSlashes (collapseRepeatedSlashes a +:+ b)
  = collapseRepeatedSlashes (a +:+ b).
Proof.
  induction a as [| c a IH]; [done |].
  change (String c a +:+ b) with (String c (a +:+ b)).
  rewrite (collapseRepeatedSlashes_cons c a), (collapseRepeatedSlashes_cons c (a +:+ b)).
  destruct (isSlash c) eqn:Hc; cbn [andb].
  - destruct (startsWith "/" a) eqn:Ha.
    + rewrite IH. rewrite startsWith_slash_app.
      destruct (String.eqb a "") eqn:Hempty; [| by rewrite Ha].
      apply String.eqb_eq in Hempty. by subst a.
    + change (String c (collapseRepeatedSlashes a) +:+ b)
        with (String c (collapseRepeatedSlashes a +:+ b)).
      rewrite collapseRepeatedSlashes_cons, Hc, startsWith_slash_collapse_app, IH.
      done.
  - change (String c (collapseRepeatedSlashes a) +:+ b)
      with (String c (collapseRepeatedSlashes a +:+ b)).
    rewrite collapseRepeatedSlashes_cons, Hc. cbn [andb]. by rewrite IH.
Qed.

(** X12 — Where a route is served is where it is documented: for a class
    registered with [Controller], the key under which the builder
    documents a route whose path starts with [/] is the path at which
    [registerControllers] mounts the router of the class, followed by the
    route's path and collapsed again; the route path [/] adds nothing to
    the mount path. *)
Theorem mounted_path_is_documented_path (options : OpenAPIOptions)
    (metadata : OpenAPIMetadata) (target : ClassId) (cm : ControllerMetadata)
    (route : RouteMetadata) :
  jsmap_get target (controllers metadata) = Some cm ->
  startsWith "/" (route_path route) = true ->
  let mount := mountController options metadata target in
  let served := if String.eqb (route_path route) "" then "/" else route_path route in
  fullPath (orString (opt_base options) "") (withLeadingSlash (controller_path cm)) route
  = if String.eqb served "/" then mount_path mount
    else replaceSlashRuns (mount_path mount +:+ served).
Proof.
  intros Hcm Hslash. cbv zeta.
  assert (Hserved : (if String.eqb (route_path route) "" then "/" else route_path route)
                    = withLeadingSlash (route_path route)).
  { unfold withLeadingSlash. rewrite Hslash.
    destruct (String.eqb (route_path route) "") eqn:Hempty; [| done].
    apply String.eqb_eq in Hempty. by rewrite Hempty in Hslash. }
  rewrite Hserved. unfold mountController, fullPath. cbn [mount_path]. rewrite Hcm.
  cbn [fmap option_fmap option_map].
  assert (Hpath : orString (Some (controller_path cm)) "" = controller_path cm).
  { simpl. destruct (String.eqb (controller_path cm) "") eqn:Hempty; [| done].
    by apply String.eqb_eq in Hempty. }
  rewrite Hpath. destruct (String.eqb (withLeadingSlash (route_path route)) "/").
  - by rewrite string_app_empty_r.
  - rewrite !replaceSlashRuns_collapse, collapseRepeatedSlashes_app_l.
    by rewrite string_app_assoc.
Qed.

Lemma mounted_path_is_documented_path_witness :
  fullPath "/api" "/users" getUsersRoute
  = mount_path (mountController (apiOptions (Some "/api")) (storedMetadata usersProcess) 0).
Proof.
  exact (mounted_path_is_documented_path (apiOptions (Some "/api"))
           (storedMetadata usersProcess) 0 usersController getUsersRoute eq_refl eq_refl).
Defined.

(** ** The wrapper on the success path *)

(** X13 — A handler that ends with a string, be it returned or the
    fulfilment of a returned promise, and that has not sent a response
    itself, is answered with that string as body and with the status code
    that the handler left on the response (200 unless it set another),
    when that code lets a body through and the request is neither a
    [HEAD] request nor a conditional one. *)
Theorem dispatch_sends_result (sendElse : value -> Response -> SendResult) (req : Request)
    (handler : Handler) (res res' : Response) (outcome : HandlerOutcome) (text : string) :
  handler res = (outcome, res') ->
  outcome = Returns (VString text) \/ outcome = ResolvesTo (VString text) ->
  res_body res' = None ->
  plainStatus (res_statusCode res') = true ->
  plainRequest req = true ->
  dispatch sendElse req handler res
  = Completed {| res_statusCode := res_statusCode res'; res_body := Some (VString text) |}.
Proof.
  intros Hcall Houtcome Hunsent Hstatus Hrequest. unfold dispatch. rewrite Hcall.
  destruct Houtcome as [-> | ->]; unfold onResult, send;
    rewrite decide_False by done; by rewrite Hunsent, Hstatus, Hrequest.
Qed.

Lemma dispatch_sends_result_witness :
  dispatch anySend plainGet (fun res => (ResolvesTo (VString "created"), status 201 res))
           freshResponse
  = Completed {| res_statusCode := 201; res_body := Some (VString "created") |}.
Proof.
  exact (dispatch_sends_result anySend plainGet
           (fun res => (ResolvesTo (VString "created"), status 201 res))
           freshResponse (status 201 freshResponse) (ResolvesTo (VString "created"))
           "created" eq_refl (or_intror eq_refl) eq_refl eq_refl eq_refl).
Defined.

(** X14 — The wrapper does not replace a response that the handler has
    sent.  When the handler then ends with [undefined] the request
    completes with the response as the handler left it.  When it ends
    with a string, or throws or rejects with an [Error], the wrapper's
    own [send] fails on the sent response, so does the [send] of its
    [catch] block, and the request ends as an unhandled rejection with
    the body that the handler sent and the status code set to 500 on the
    response object. *)
Theorem dispatch_keeps_sent_response (sendElse : value -> Response -> SendResult)
    (req : Request) (handler : Handler) (res res' : Response) (outcome : HandlerOutcome)
    (sent : value) :
  handler res = (outcome, res') ->
  res_body res' = Some sent ->
  (outcome = Returns VUndefined \/ outcome = ResolvesTo VUndefined ->
   dispatch sendElse req handler res = Completed res')
  /\ (forall text,
         outcome = Returns (VString text) \/ outcome = ResolvesTo (VString text)
         \/ outcome = Throws (Error text) \/ outcome = RejectsWith (Error text) ->
         dispatch sendElse req handler res
         = Unhandled {| res_statusCode := 500; res_body := Some sent |}).
Proof.
  intros Hcall Hsent. unfold dispatch. rewrite Hcall. split.
  - by intros [-> | ->].
  - intros text [-> | [-> | [-> | ->]]];
      unfold onResult, onError, headersSentError, Error, send, status;
      rewrite ?decide_False by done; cbn [res_body res_statusCode truthy];
      rewrite ?Hsent; cbn [res_body res_statusCode truthy negb String.eqb];
      rewrite ?Hsent; try done;
      destruct (String.eqb text ""); cbn [negb]; by rewrite ?Hsent.
Qed.

Lemma dispatch_keeps_sent_response_witness :
  dispatch anySend plainGet
           (fun res => (Returns (VString "again"),
                        {| res_statusCode := 200; res_body := Some (VString "done") |}))
           freshResponse
  = Unhandled {| res_statusCode := 500; res_body := Some (VString "done") |}.
Proof.
  exact (proj2 (dispatch_keeps_sent_response anySend plainGet
                  (fun res => (Returns (VString "again"),
                               {| res_statusCode := 200;
                                  res_body := Some (VString "done") |}))
                  freshResponse _ _ (VString "done") eq_refl eq_refl)
               "again" (or_introl eq_refl)).
Defined.

(** ** The schema engine: memoization, classes, arrays *)

Lemma getTypeSchema_stores W fuel type c schema c' :
  getTypeSchema W fuel type c = Returned schema c' -> cacheGet type c' = Some schema.
Proof.
  destruct fuel as [| fuel]; [done |]. simpl. unfold getTypeSchema_body.
  destruct (cacheGet type c) as [cached |] eqn:Hcached.
  - by intros [= <- <-].
  - destruct (negb (truthy type)).
    + intros [= <- <-]. apply cacheGet_set_eq.
    + destruct (schemaOfType _ _ _ _ _) as [schema' c'' |]; [| done].
      intros [= <- <-]. apply cacheGet_set_eq.
Qed.

(** X15 — Memoization: once [getTypeSchema] has returned a schema for a
    descriptor, the shared cache holds that schema under the descriptor,
    and a later call on the descriptor returns the same schema without
    inspecting the descriptor again and without touching the cache. *)
Theorem getTypeSchema_memoizes (W : World) (fuel fuel' : nat) (type : value)
    (c c' : Cache) (schema : SchemaObject) :
  getTypeSchema W fuel type c = Returned schema c' ->
  cacheGet type c' = Some schema
  /\ getTypeSchema W (S fuel') type c' = Returned schema c'.
Proof.
  intros Hcall. apply getTypeSchema_stores in Hcall. split; [done |].
  by apply getTypeSchema_cached.
Qed.

Lemma getTypeSchema_memoizes_witness :
  cacheGet (VFunction 0)
    [(VFunction 0,
      ObjectSchema (Some [("owner", plainObjectSchema); ("balance", plainObjectSchema)]) None)]
  = Some (ObjectSchema (Some [("owner", plainObjectSchema); ("balance", plainObjectSchema)])
                       None)
  /\ getTypeSchema accountWorld 1 (VFunction 0)
       [(VFunction 0,
         ObjectSchema (Some [("owner", plainObjectSchema); ("balance", plainObjectSchema)])
                      None)]
     = Returned
         (ObjectSchema (Some [("owner", plainObjectSchema); ("balance", plainObjectSchema)])
                       None)
         [(VFunction 0,
           ObjectSchema (Some [("owner", plainObjectSchema); ("balance", plainObjectSchema)])
                        None)].
Proof.
  exact (getTypeSchema_memoizes accountWorld 1 0 (VFunction 0) [] _ _
           getTypeSchema_failed_instantiation).
Defined.

(** X16 — An array value is typed by its first element alone: two arrays
    with the same first element get the same result, whatever their other
    elements are, and a schema returned for them is an array schema. *)
Theorem inferSchemaFromValue_first_element_only (W : World) (fuel : nat) (o1 o2 : nat)
    (text1 text2 : string) (first : value) (rest1 rest2 : list value) (c : Cache) :
  objectAt W o1 = DArray text1 (first :: rest1) ->
  objectAt W o2 = DArray text2 (first :: rest2) ->
  inferSchemaFromValue W fuel (VObject o1) c = inferSchemaFromValue W fuel (VObject o2) c
  /\ (forall schema c', inferSchemaFromValue W fuel (VObject o1) c = Returned schema c' ->
        exists items, schema = ArraySchema items).
Proof.
  intros H1 H2. destruct fuel as [| fuel]; [done |]. simpl.
  unfold inferSchemaFromValue_body. rewrite H1, H2. split; [done |].
  intros schema c'. unfold processArrayValue. case_decide.
  - intros [= <- _]. by eexists.
  - destruct (inferSchemaFromValue W fuel first c) as [items c'' |]; [| done].
    intros [= <- _]. by eexists.
Qed.

Lemma inferSchemaFromValue_first_element_only_witness :
  inferSchemaFromValue mixedArraysWorld 2 (VObject 0) []
  = inferSchemaFromValue mixedArraysWorld 2 (VObject 1) [].
Proof.
  exact (proj1 (inferSchemaFromValue_first_element_only mixedArraysWorld 2 0 1 _ _ _ _ _ []
                  eq_refl eq_refl)).
Defined.

(** X17 — Array detection is by text: any descriptor other than a
    built-in constructor whose text contains [Array] (a class named
    [ArrayList], a class whose body mentions [Array.isArray]) is taken
    for an array type, and a schema returned for it is an array schema,
    never the schema of the class. *)
Theorem getTypeSchema_text_mentions_Array (W : World) (fuel : nat) (type : value)
    (c c' : Cache) (schema : SchemaObject) :
  (forall b, type <> VBuiltin b) ->
  truthy type = true ->
  includes "Array" (textOf W type) = true ->
  cacheGet type c = None ->
  getTypeSchema W fuel type c = Returned schema c' ->
  exists items, schema = ArraySchema items.
Proof.
  intros Hnot Htruthy Htext Hmiss. destruct fuel as [| fuel]; [done |].
  rewrite getTypeSchema_uncached, schemaOfType_not_builtin by done.
  unfold isArrayType. rewrite Htruthy, Htext, orb_true_r.
  unfold processArrayType. destruct (matchGeneric _) as [group |].
  - destruct (inferTypeFromName _ _ _ _) as [items c'' |]; [| done].
    intros [= <- _]. by eexists.
  - intros [= <- _]. by eexists.
Qed.

Lemma getTypeSchema_text_mentions_Array_witness :
  getTypeSchema arrayListWorld 1 (VFunction 0) []
  = Returned (ArraySchema plainObjectSchema) [(VFunction 0, ArraySchema plainObjectSchema)]
  /\ exists items, ArraySchema plainObjectSchema = ArraySchema items.
Proof.
  split; [reflexivity |].
  refine (getTypeSchema_text_mentions_Array arrayListWorld 1 (VFunction 0) [] _ _ _
            eq_refl eq_refl eq_refl (eq_refl : _ = Returned (ArraySchema plainObjectSchema) _)).
  intros b. discriminate.
Defined.

Lemma classSchema_names fn (properties : Properties) :
  propertyNames (classSchema fn properties) = fst <$> properties
  /\ schemaProperties (classSchema fn properties) = properties.
Proof.
  unfold classSchema. destruct properties; by cbn.
Qed.

(** A class without recorded property types that can be instantiated:
    the call, by the walk of the instance. *)
Lemma getTypeSchema_instantiated W fuel f instance c :
  fn_prototype (functionAt W f) = true ->
  fn_design_properties (functionAt W f) = [] ->
  fn_design_type (functionAt W f) = [] ->
  fn_construct (functionAt W f) = Some instance ->
  isArrayType W (VFunction f) = false ->
  cacheGet (VFunction f) c = None ->
  getTypeSchema W (S fuel) (VFunction f) c
  = match assignEach (inferSchemaFromValue W fuel)
            (filter (fun entry => instanceKeyKept (fst entry) = true)
                    (ownEntries W instance))
            [] (cacheSet (VFunction f) plainObjectSchema c) with
    | Returned properties c' =>
        Returned (classSchema (functionAt W f) properties)
                 (cacheSet (VFunction f) (classSchema (functionAt W f) properties) c')
    | Threw assigned c' =>
        Returned (classSchema (functionAt W f)
                    (tryExtractPropertiesFromConstructorSource (functionAt W f) assigned))
                 (cacheSet (VFunction f)
                    (classSchema (functionAt W f)
                       (tryExtractPropertiesFromConstructorSource (functionAt W f) assigned))
                    c')
    end.
Proof.
  intros Hprototype Hproperties Htype Hconstruct Harray Hmiss.
  rewrite getTypeSchema_uncached, schemaOfType_not_builtin by done.
  rewrite Harray. unfold processFunctionType. rewrite Hprototype.
  unfold tryExtractMetadataProperties. rewrite Hproperties, Htype.
  cbn [assignEach length Nat.eqb].
  unfold tryInstantiateAndExtractProperties. rewrite Hconstruct.
  destruct (assignEach _ _ [] _) as [properties c' | assigned c'];
    unfold classSchema; by destruct (Nat.ltb 0 _).
Qed.

(** X18 — What the schema of a class shows of an instance: for a class
    without recorded property types that can be instantiated without
    arguments, in a heap where no array is reached from itself through
    first elements and with room on the stack for the walk, the call
    returns and the properties of the schema are the own properties of
    the instance, except [constructor], the names that start with an
    underscore and [__proto__]; when none is left the schema has no
    [properties] at all. *)
Theorem getTypeSchema_instance_properties (W : World) (fuel : nat) (f instance : nat)
    (c : Cache) :
  arraysWellFounded W = true ->
  fuelBound W <= fuel ->
  fn_prototype (functionAt W f) = true ->
  fn_design_properties (functionAt W f) = [] ->
  fn_design_type (functionAt W f) = [] ->
  fn_construct (functionAt W f) = Some instance ->
  isArrayType W (VFunction f) = false ->
  cacheGet (VFunction f) c = None ->
  exists schema c',
    getTypeSchema W fuel (VFunction f) c = Returned schema c'
    /\ (forall name,
           name ∈ propertyNames schema
           <-> name ∈ (fst <$> ownEntries W instance)
               /\ instanceKeyKept name = true /\ name <> "__proto__")
    /\ (propertyNames schema = [] -> schemaProperties schema = []
        /\ schema = ObjectSchema None
                      (Some ("Schema for type "
                             +:+ orString (Some (fn_name (functionAt W f))) "Unknown"))).
Proof.
  intros Hwf Hfuel Hprototype Hproperties Htype Hconstruct Harray Hmiss.
  destruct fuel as [| fuel]; [unfold fuelBound in Hfuel; lia |].
  rewrite (getTypeSchema_instantiated W fuel f instance c) by done.
  set (entries := filter (fun entry => instanceKeyKept (fst entry) = true)
                         (ownEntries W instance)).
  set (c1 := cacheSet (VFunction f) plainObjectSchema c).
  assert (Hentries : forall name,
             name ∈ (fst <$> entries)
             <-> name ∈ (fst <$> ownEntries W instance) /\ instanceKeyKept name = true).
  { intros name. unfold entries. rewrite !list_elem_of_fmap. split.
    - intros ([k v] & -> & [Hkept Hin]%list_elem_of_filter). split; [| done].
      by exists (k, v).
    - intros [([k v] & -> & Hin) Hkept]. exists (k, v). split; [done |].
      by apply list_elem_of_filter. }
  assert (Hf : f < length (functions W)).
  { destruct (decide (f < length (functions W))) as [Hf | Hf]; [done |].
    rewrite functionAt_outside in Hconstruct by lia. done. }
  pose proof (pending_set_lt W (VFunction f) plainObjectSchema c
                (heapKeys_function W f Hf) Hmiss) as Hlt.
  fold c1 in Hlt. pose proof (pending_bound W c) as Hbound.
  set (m := length (functions W) + length (objects W) - 1).
  unfold fuelBound in Hfuel.
  destruct (assignEach_returns W m (inferSchemaFromValue W fuel) entries [] c1)
    as (properties & c' & Hloop).
  - intros v c0. apply inferSchemaFromValue_settles.
  - intros v c0 Hc0.
    apply (inferSchemaFromValue_returns W m) with (d := length (objects W)).
    + intros fuel0 t c2. by apply getTypeSchema_returns.
    + by apply arraysWellFounded_chain.
    + subst m. nia.
    + done.
  - subst m. lia.
  - rewrite Hloop. eexists _, _. split; [done |].
    destruct (classSchema_names (functionAt W f) properties) as [-> Hschema].
    split.
    + intros name.
      rewrite (assignEach_names _ _ _ _ _ _ name Hloop), elem_of_nil, Hentries. tauto.
    + intros Hnone. apply fmap_nil_inv in Hnone as ->. done.
Qed.

Lemma getTypeSchema_instance_properties_witness :
  exists schema c',
    getTypeSchema sessionWorld 10 (VFunction 0) [] = Returned schema c'
    /\ (forall name,
           name ∈ propertyNames schema
           <-> name ∈ (fst <$> ownEntries sessionWorld 0)
               /\ instanceKeyKept name = true /\ name <> "__proto__")
    /\ (propertyNames schema = [] -> schemaProperties schema = []
        /\ schema = ObjectSchema None (Some "Schema for type Session")).
Proof.
  refine (getTypeSchema_instance_properties sessionWorld 10 0 0 []
            eq_refl _ eq_refl eq_refl eq_refl eq_refl eq_refl eq_refl).
  vm_compute. lia.
Defined.

(** ** The schema of the default success response *)

Lemma arrayOf_settles c outcome : settles c outcome -> settles c (arrayOf outcome).
Proof. by destruct outcome. Qed.

Lemma arrayOf_returns outcome : returns outcome -> returns (arrayOf outcome).
Proof. intros (schema & c' & ->). by eexists _, _. Qed.

Lemma arrayOf_shape outcome schema c' :
  arrayOf outcome = Returned schema c' -> exists items, schema = ArraySchema items.
Proof. destruct outcome; [| done]. intros [= <- _]. by eexists. Qed.

Lemma freshObject_outside W c : length (objects W) <= freshObject W c.
Proof.
  unfold freshObject. induction c as [| entry c IH]; [done |].
  cbn [fmap list_fmap fold_right]. lia.
Qed.

Lemma freshObject_unknown W c o : freshObject W c <= o -> cacheGet (VObject o) c = None.
Proof.
  unfold freshObject. induction c as [| [k s] c IH]; [done |].
  cbn [fmap list_fmap fold_right fst cacheGet]. intros Ho.
  destruct (decide (k = VObject o)) as [-> | Hk]; [lia |]. apply IH. lia.
Qed.

Lemma cacheSet_absent type schema c :
  cacheGet type c = None -> cacheSet type schema c = c ++ [(type, schema)].
Proof.
  induction c as [| [k s] c IH]; [done |]. simpl.
  destruct (decide (k = type)); [done |]. intros Hmiss. by rewrite IH.
Qed.

Lemma cacheSet_last type schema schema' c :
  cacheGet type c = None ->
  cacheSet type schema' (c ++ [(type, schema)]) = c ++ [(type, schema')].
Proof.
  induction c as [| [k s] c IH]; simpl.
  - by rewrite decide_True.
  - destruct (decide (k = type)); [done |]. intros Hmiss. by rewrite IH.
Qed.

(** [getTypeSchema({})]: a new object has no property to walk. *)
Lemma schemaOfFreshObject_new W fuel c :
  schemaOfFreshObject W (S fuel) c
  = Returned (ObjectSchema (Some []) None)
             (c ++ [(VObject (freshObject W c), ObjectSchema (Some []) None)]).
Proof.
  assert (Hunknown : cacheGet (VObject (freshObject W c)) c = None)
    by by apply (freshObject_unknown W).
  unfold schemaOfFreshObject.
  rewrite getTypeSchema_uncached by done.
  rewrite schemaOfType_outside_object by apply freshObject_outside.
  rewrite (cacheSet_absent _ plainObjectSchema) by done.
  by rewrite cacheSet_last.
Qed.

(** A call that ends with an exception leaves its provisional entry in
    the cache. *)
Lemma getTypeSchema_threw_cached W fuel type c e c' :
  getTypeSchema W (S fuel) type c = Threw e c' ->
  cacheGet type c' = Some plainObjectSchema.
Proof.
  simpl. unfold getTypeSchema_body.
  destruct (cacheGet type c) as [cached |]; [done |].
  destruct (negb (truthy type)); [done |].
  pose proof (schemaOfType_settles W (getTypeSchema W fuel) (inferSchemaFromValue W fuel)
                (getTypeSchema_settles W fuel) (inferSchemaFromValue_settles W fuel)
                type (cacheSet type plainObjectSchema c)) as [Hgrows _].
  destruct (schemaOfType _ _ _ _ _) as [schema c1 | e1 c1]; [done |].
  intros [= _ <-]. apply Hgrows, cacheGet_set_eq.
Qed.

Lemma arrayResponseSchema_settles W fuel r c :
  settles c (arrayResponseSchema W fuel r c).
Proof.
  unfold arrayResponseSchema.
  destruct (_ || _); [| apply cacheStep_refl].
  match goal with
  | |- settles c match ?attempt with _ => _ end =>
      assert (Hattempt : settles c attempt);
        [| destruct attempt as [schema c1 | e c1]; [done |];
           eapply settles_step; [exact Hattempt |];
           apply arrayOf_settles, getTypeSchema_settles]
  end.
  destruct (refl_methodText r) as [methodImpl |]; [| apply cacheStep_refl].
  destruct (matchReturn _) as [group |];
    [| apply arrayOf_settles, getTypeSchema_settles].
  destruct (_ || _); [apply cacheStep_refl |].
  destruct (if includes "param" _ then _ else _) as [index |];
    [| apply arrayOf_settles, getTypeSchema_settles].
  destruct (N.ltb _ _); apply arrayOf_settles, getTypeSchema_settles.
Qed.

Lemma objectResponseSchema_settles W fuel r parameters c :
  settles c (objectResponseSchema W fuel r parameters c).
Proof.
  unfold objectResponseSchema.
  match goal with
  | |- settles c match ?attempt with _ => _ end =>
      assert (Hattempt : settles c attempt);
        [| destruct attempt as [schema c1 | e c1]; [done |];
           eapply settles_step; [exact Hattempt | apply getTypeSchema_settles]]
  end.
  destruct (refl_methodText r) as [methodImpl |]; [| apply cacheStep_refl].
  destruct (matchReturn _) as [group |]; [| apply getTypeSchema_settles].
  destruct (returnsParameter _ _); [| apply getTypeSchema_settles].
  destruct (bodySchemaOf _); [apply cacheStep_refl | apply getTypeSchema_settles].
Qed.

Lemma successResponseSchema_settles W fuel r parameters c :
  settles c (successResponseSchema W fuel r parameters c).
Proof.
  unfold successResponseSchema. destruct (isArrayType _ _).
  - apply arrayResponseSchema_settles.
  - apply objectResponseSchema_settles.
Qed.

(** The branch of an array return type comes back whenever the stack
    has room for one call: its handler types the items by a new object. *)
Lemma arrayResponseSchema_returns W fuel r c :
  returns (arrayResponseSchema W (S fuel) r c).
Proof.
  unfold arrayResponseSchema.
  destruct (_ || _); [| by eexists _, _].
  match goal with
  | |- returns match ?attempt with _ => _ end =>
      destruct attempt as [schema c1 | e c1]; [by eexists _, _ |]
  end.
  rewrite schemaOfFreshObject_new. by eexists _, _.
Qed.

(** X19 — Computing the schema of the default success response, with
    room on the stack for one call.  For a return type taken for an
    array type, and for any other return type that is a type descriptor
    or whose handler has a text, a schema is returned, whatever the
    parameters and the cache.  The [catch] block of the second branch is
    entered: when the walk of a return type fills the stack, the second
    call of [getTypeSchema] on that type is answered by the provisional
    entry which the first left in the cache, so the schema is
    [{type:'object'}].  Returning or not, the computation only adds
    entries to the cache and keeps the entries of the built-in
    constructors as [getTypeSchema] writes them. *)
Theorem successResponseSchema_catch (W : World) (fuel : nat) (r : MethodReflection)
    (parameters : list ParameterMetadata) (c : Cache) :
  (isArrayType W (refl_returnType r) = true
   \/ isTypeDescriptor (refl_returnType r) = true
   \/ is_Some (refl_methodText r) ->
   returns (successResponseSchema W (S fuel) r parameters c))
  /\ (forall c',
         isArrayType W (refl_returnType r) = false ->
         is_Some (refl_methodText r) ->
         bodySchemaOf parameters = None ->
         getTypeSchema W (S fuel) (refl_returnType r) c = Threw tt c' ->
         successResponseSchema W (S fuel) r parameters c = Returned plainObjectSchema c')
  /\ settles c (successResponseSchema W (S fuel) r parameters c).
Proof.
  split; [| split; [| apply successResponseSchema_settles]].
  - intros Hcase. unfold successResponseSchema.
    destruct (isArrayType W (refl_returnType r)) eqn:Harray;
      [apply arrayResponseSchema_returns |].
    destruct Hcase as [? | Hcase]; [done |].
    unfold objectResponseSchema.
    destruct (refl_methodText r) as [methodImpl |].
    + assert (Hretry : forall e c1,
                 getTypeSchema W (S fuel) (refl_returnType r) c = Threw e c1 ->
                 returns (getTypeSchema W (S fuel) (refl_returnType r) c1)).
      { intros e c1 Hfirst.
        rewrite (getTypeSchema_cached W fuel _ plainObjectSchema c1)
          by (by eapply getTypeSchema_threw_cached).
        by eexists _, _. }
      destruct (matchReturn methodImpl) as [group |];
        [destruct (returnsParameter _ _);
         [destruct (bodySchemaOf parameters); [by eexists _, _ |] |] |];
        (destruct (getTypeSchema W (S fuel) (refl_returnType r) c) as [schema c1 | e c1]
           eqn:Hfirst; [by eexists _, _ | by eapply Hretry]).
    + destruct Hcase as [Hdescriptor | [text [=]]].
      by apply getTypeSchema_descriptor_returns.
  - intros c' Harray [methodImpl Htext] Hbody Hthrew.
    unfold successResponseSchema. rewrite Harray. unfold objectResponseSchema.
    rewrite Htext, Hbody.
    assert (getTypeSchema W (S fuel) (refl_returnType r) c'
            = Returned plainObjectSchema c') as Hcatch.
    { apply getTypeSchema_cached. by eapply getTypeSchema_threw_cached. }
    destruct (matchReturn methodImpl) as [group |];
      [destruct (returnsParameter _ _) |]; by rewrite Hthrew.
Qed.

Lemma successResponseSchema_catch_witness :
  successResponseSchema loopWorld 3 loopHandler [] []
  = Returned plainObjectSchema [(VObject 0, plainObjectSchema)].
Proof.
  exact (proj1 (proj2 (successResponseSchema_catch loopWorld 2 loopHandler [] []))
               [(VObject 0, plainObjectSchema)] eq_refl (ex_intro _ _ eq_refl) eq_refl
               eq_refl).
Defined.

(** X20 — In a heap where no array is reached from itself through first
    elements, the schema of the default success response is computed at a
    recursion depth bounded by the size of the heap, whatever the
    declared return type, the text of the handler and the parameters. *)
Theorem successResponseSchema_returns (W : World) (fuel : nat) (r : MethodReflection)
    (parameters : list ParameterMetadata) (c : Cache) :
  arraysWellFounded W = true ->
  fuelBound W <= fuel ->
  returns (successResponseSchema W fuel r parameters c).
Proof.
  intros Hwf Hfuel.
  assert (HG : forall type c, returns (getTypeSchema W fuel type c))
    by (intros; by apply getTypeSchema_returns_bound).
  unfold successResponseSchema. destruct (isArrayType _ _).
  - destruct fuel as [| fuel]; [unfold fuelBound in Hfuel; lia |].
    apply arrayResponseSchema_returns.
  - unfold objectResponseSchema.
    match goal with
    | |- returns match ?attempt with _ => _ end =>
        destruct attempt as [schema c1 | e c1]; [by eexists _, _ | apply HG]
    end.
Qed.

Lemma successResponseSchema_returns_witness :
  returns (successResponseSchema sessionWorld 10 echoHandler [] []).
Proof.
  refine (successResponseSchema_returns sessionWorld 10 echoHandler [] [] eq_refl _).
  vm_compute. lia.
Defined.

(** X21 — A return type taken for an array type gives an array schema
    and nothing else; when its text contains neither [Array<] nor [[]]
    (as for the [Array] constructor, which is what the compiler records
    for every array-typed return) the schema is
    [{type:'array', items:{type:'object'}}], the text of the handler is
    not looked at and the cache is not touched. *)
Theorem successResponseSchema_array_type (W : World) (fuel : nat) (r : MethodReflection)
    (parameters : list ParameterMetadata) (c : Cache) :
  isArrayType W (refl_returnType r) = true ->
  (forall schema c', successResponseSchema W fuel r parameters c = Returned schema c' ->
     exists items, schema = ArraySchema items)
  /\ (includes "Array<" (textOf W (refl_returnType r)) = false ->
      includes "[]" (textOf W (refl_returnType r)) = false ->
      successResponseSchema W fuel r parameters c
      = Returned (ArraySchema plainObjectSchema) c).
Proof.
  intros Harray. unfold successResponseSchema. rewrite Harray. split.
  - intros schema c'. unfold arrayResponseSchema.
    destruct (_ || _); [| intros [= <- _]; by eexists].
    match goal with
    | |- match ?attempt with _ => _ end = _ -> _ =>
        assert (Hattempt : forall schema c', attempt = Returned schema c' ->
                                             exists items, schema = ArraySchema items);
          [| destruct attempt as [schema1 c1 | e c1];
             [intros [= <- <-]; by eapply Hattempt | apply arrayOf_shape]]
    end.
    intros schema1 c1.
    destruct (refl_methodText r) as [methodImpl |]; [| done].
    destruct (matchReturn _) as [group |]; [| apply arrayOf_shape].
    destruct (_ || _); [intros [= <- _]; by eexists |].
    destruct (if includes "param" _ then _ else _) as [index |]; [| apply arrayOf_shape].
    destruct (N.ltb _ _); apply arrayOf_shape.
  - intros Hgeneric Hbrackets. unfold arrayResponseSchema.
    by rewrite Hgeneric, Hbrackets.
Qed.

Lemma successResponseSchema_array_type_witness :
  successResponseSchema sessionWorld 0 listHandler [] []
  = Returned (ArraySchema plainObjectSchema) [].
Proof.
  exact (proj2 (successResponseSchema_array_type sessionWorld 0 listHandler [] [] eq_refl)
           eq_refl eq_refl).
Defined.

(** X22 — The response echoes the request: for a POST, PUT or PATCH
    handler without decorated parameter, with a declared parameter and a
    return type that is not taken for an array type, whose first [return]
    statement contains the text [body], the schema of the default success
    response is the schema of the request body, that of the first
    parameter type; the declared return type is not consulted and the
    cache is not touched. *)
Theorem successResponseSchema_echoes_body (W : World) (fuel : nat)
    (typeSchema : value -> SchemaObject) (method : HttpMethod) (r : MethodReflection)
    (first : value) (others : list value) (group : string) (c : Cache) :
  refl_decoratedParameters r = [] ->
  acceptsBody method = true ->
  refl_paramTypes r = first :: others ->
  isArrayType W (refl_returnType r) = false ->
  refl_methodText r ≫= matchReturn = Some group ->
  includes "body" (trim group) = true ->
  successResponseSchema W fuel r (routeParameters typeSchema method r) c
  = Returned (typeSchema first) c.
Proof.
  intros Hnone Hmethod Htypes Harray Hreturn Hbody.
  rewrite routeParameters_synthesized by done. rewrite Hmethod, Htypes. cbn [length Nat.ltb
    Nat.leb andb head default from_option id].
  unfold successResponseSchema. rewrite Harray. unfold objectResponseSchema.
  destruct (refl_methodText r) as [methodImpl |]; [| done]. cbn in Hreturn.
  rewrite Hreturn. unfold returnsParameter. cbn [existsb param_name]. rewrite Hbody.
  by rewrite orb_true_r.
Qed.

Lemma successResponseSchema_echoes_body_witness :
  successResponseSchema sessionWorld 0 echoHandler
    (routeParameters anySchema PUT echoHandler) []
  = Returned plainObjectSchema [].
Proof.
  exact (successResponseSchema_echoes_body sessionWorld 0 anySchema PUT echoHandler
           (VFunction 0) [] "body" [] eq_refl eq_refl eq_refl eq_refl eq_refl eq_refl).
Defined.

(** X23 — When the element type of an array return type is looked for in
    the text of the handler and no [return] statement is found, the
    items are typed by a new empty object: their schema is
    [{type:'object', properties:{}}], and the shared cache gains one
    entry, keyed by that object, which no other value can ever match. *)
Theorem successResponseSchema_unknown_items (W : World) (fuel : nat) (r : MethodReflection)
    (parameters : list ParameterMetadata) (c : Cache) :
  isArrayType W (refl_returnType r) = true ->
  includes "Array<" (textOf W (refl_returnType r))
  || includes "[]" (textOf W (refl_returnType r)) = true ->
  refl_methodText r ≫= matchReturn = None ->
  successResponseSchema W (S fuel) r parameters c
  = Returned (ArraySchema (ObjectSchema (Some []) None))
             (c ++ [(VObject (freshObject W c), ObjectSchema (Some []) None)])
  /\ cacheGet (VObject (freshObject W c)) c = None
  /\ length (objects W) <= freshObject W c.
Proof.
  intros Harray Htext Hreturn.
  split_and!; [| by apply (freshObject_unknown W) | apply freshObject_outside].
  unfold successResponseSchema. rewrite Harray. unfold arrayResponseSchema.
  rewrite Htext.
  destruct (refl_methodText r) as [methodImpl |]; cbn in Hreturn;
    rewrite ?Hreturn, schemaOfFreshObject_new; done.
Qed.

Lemma successResponseSchema_unknown_items_witness :
  successResponseSchema sessionWorld 1 describedListHandler [] []
  = Returned (ArraySchema (ObjectSchema (Some []) None))
             [(VObject 1, ObjectSchema (Some []) None)].
Proof.
  exact (proj1 (successResponseSchema_unknown_items sessionWorld 0 describedListHandler
                  [] [] eq_refl eq_refl eq_refl)).
Defined.

(** ** When the walk of an instance fills the stack *)

Lemma assignPlain_spec names (properties : Properties) :
  let assigned := fold_left (fun properties name => setProperty name plainObjectSchema properties)
                            names properties in
  (forall name, name ∈ (fst <$> assigned)
                <-> name ∈ (fst <$> properties) \/ (name ∈ names /\ name <> "__proto__"))
  /\ (Forall (fun entry => snd entry = plainObjectSchema) properties ->
      Forall (fun entry => snd entry = plainObjectSchema) assigned).
Proof.
  cbv zeta. revert properties.
  induction names as [| key names IH]; intros properties; simpl.
  - split; [| done]. intros name. rewrite elem_of_nil. tauto.
  - destruct (IH (setProperty key plainObjectSchema properties)) as [Hnames Hplain]. split.
    + intros name. rewrite Hnames, setProperty_names, elem_of_cons.
      split; [intros [[[-> ?] | ?] | [? ?]] | intros [? | [[-> | ?] ?]]]; tauto.
    + intros Hall. by apply Hplain, setProperty_plain.
Qed.

(** X24 — The room on the stack is observable.  For a class without
    recorded property types whose instance holds, as the first property
    that the walk keeps, an array that contains itself as first element,
    the walk of the instance fills the stack whatever room there was, the
    handler around the instantiation takes over, and the schema comes
    from the text of the class: its properties are the names assigned
    through [this.<name> =] in the text other than [__proto__], names
    that start with an underscore included, each typed
    [{type:'object'}]. *)
Theorem getTypeSchema_overflow_constructor_source (W : World) (fuel : nat)
    (f instance o : nat) (key text : string) (more : list value)
    (rest : list (string * value)) (c : Cache) :
  fn_prototype (functionAt W f) = true ->
  fn_design_properties (functionAt W f) = [] ->
  fn_design_type (functionAt W f) = [] ->
  fn_construct (functionAt W f) = Some instance ->
  isArrayType W (VFunction f) = false ->
  cacheGet (VFunction f) c = None ->
  filter (fun entry => instanceKeyKept (fst entry) = true) (ownEntries W instance)
  = (key, VObject o) :: rest ->
  objectAt W o = DArray text (VObject o :: more) ->
  exists schema,
    getTypeSchema W (S fuel) (VFunction f) c
    = Returned schema (cacheSet (VFunction f) schema
                         (cacheSet (VFunction f) plainObjectSchema c))
    /\ (forall name, name ∈ propertyNames schema
                     <-> name ∈ thisAssignments (fn_text (functionAt W f))
                         /\ name <> "__proto__")
    /\ Forall (fun entry => snd entry = plainObjectSchema) (schemaProperties schema).
Proof.
  intros Hprototype Hproperties Htype Hconstruct Harray Hmiss Hkept Hself.
  exists (classSchema (functionAt W f)
            (tryExtractPropertiesFromConstructorSource (functionAt W f) [])).
  destruct (classSchema_names (functionAt W f)
              (tryExtractPropertiesFromConstructorSource (functionAt W f) []))
    as [-> ->].
  destruct (assignPlain_spec (thisAssignments (fn_text (functionAt W f))) [])
    as [Hnames Hplain].
  split_and!.
  - rewrite (getTypeSchema_instantiated W fuel f instance c) by done.
    rewrite Hkept. cbn [assignEach].
    by rewrite (inferSchemaFromValue_self_containing_array W o text more fuel _ Hself).
  - intros name. unfold tryExtractPropertiesFromConstructorSource.
    rewrite Hnames, elem_of_nil. tauto.
  - by apply Hplain.
Qed.

Lemma getTypeSchema_overflow_constructor_source_witness :
  exists schema,
    getTypeSchema loopWorld 1000 (VFunction 0) []
    = Returned schema (cacheSet (VFunction 0) schema
                         (cacheSet (VFunction 0) plainObjectSchema []))
    /\ (forall name, name ∈ propertyNames schema
                     <-> name ∈ ["items"] /\ name <> "__proto__")
    /\ Forall (fun entry => snd entry = plainObjectSchema) (schemaProperties schema).
Proof.
  exact (getTypeSchema_overflow_constructor_source loopWorld 999 0 0 1 "items" "" [] [] []
           eq_refl eq_refl eq_refl eq_refl eq_refl eq_refl eq_refl eq_refl).
Defined.

(** ** Classes and functions as type descriptors *)

Lemma processFunctionType_classSchema W G I fn c schema c' :
  processFunctionType W G I fn c = Returned schema c' ->
  exists properties, schema = classSchema fn properties.
Proof.
  unfold processFunctionType, classSchema.
  match goal with
  | |- match ?collected with _ => _ end = _ -> _ =>
      destruct collected as [properties c1 |]; [| done]
  end.
  exists properties. by destruct (Nat.ltb 0 (length properties)); injection H as <- _.
Qed.

(** X25 — The schema of a class or function is never an object schema
    with an empty [properties]: it either lists at least one property,
    without description, or has no [properties] and the description
    ['Schema for type <name>'] (['Unknown'] for an anonymous one). *)
Theorem getTypeSchema_class_shape (W : World) (fuel : nat) (f : nat) (c c' : Cache)
    (schema : SchemaObject) :
  cacheGet (VFunction f) c = None ->
  isArrayType W (VFunction f) = false ->
  getTypeSchema W fuel (VFunction f) c = Returned schema c' ->
  (exists properties, schema = ObjectSchema (Some properties) None /\ 0 < length properties)
  \/ schema = ObjectSchema None
                (Some ("Schema for type "
                       +:+ orString (Some (fn_name (functionAt W f))) "Unknown")).
Proof.
  intros Hmiss Harray. destruct fuel as [| fuel]; [done |].
  rewrite getTypeSchema_uncached, schemaOfType_not_builtin by done. rewrite Harray.
  destruct (processFunctionType _ _ _ _ _) as [schema1 c1 |] eqn:Hcall; [| done].
  intros [= <- _]. apply processFunctionType_classSchema in Hcall as [properties ->].
  unfold classSchema. destruct (Nat.ltb 0 (length properties)) eqn:Hlength; [| by right].
  left. exists properties. split; [done |]. by apply Nat.ltb_lt.
Qed.

Lemma getTypeSchema_class_shape_witness :
  (exists properties,
     ObjectSchema (Some [("user", StringSchema None)]) None
     = ObjectSchema (Some properties) None /\ 0 < length properties)
  \/ ObjectSchema (Some [("user", StringSchema None)]) None
     = ObjectSchema None (Some "Schema for type Session").
Proof.
  exact (getTypeSchema_class_shape sessionWorld 2 0 [] _ _ eq_refl eq_refl eq_refl).
Defined.

(** X26 — When a class without recorded property types cannot be
    instantiated without arguments, its schema comes from the text of
    the class alone: the properties are the names assigned through
    [this.<name> =] in the text, except [__proto__], whose assignment
    creates no property, each typed [{type:'object'}]; nothing is
    recursed into, and the cache gains the entry of the class only. *)
Theorem getTypeSchema_constructor_source (W : World) (fuel : nat) (f : nat) (c : Cache) :
  fn_prototype (functionAt W f) = true ->
  fn_design_properties (functionAt W f) = [] ->
  fn_design_type (functionAt W f) = [] ->
  fn_construct (functionAt W f) = None ->
  isArrayType W (VFunction f) = false ->
  cacheGet (VFunction f) c = None ->
  exists schema,
    getTypeSchema W (S fuel) (VFunction f) c
    = Returned schema (cacheSet (VFunction f) schema
                         (cacheSet (VFunction f) plainObjectSchema c))
    /\ (forall name, name ∈ propertyNames schema
                     <-> name ∈ thisAssignments (fn_text (functionAt W f))
                         /\ name <> "__proto__")
    /\ Forall (fun entry => snd entry = plainObjectSchema) (schemaProperties schema).
Proof.
  intros Hprototype Hproperties Htype Hconstruct Harray Hmiss.
  exists (classSchema (functionAt W f)
            (tryExtractPropertiesFromConstructorSource (functionAt W f) [])).
  destruct (classSchema_names (functionAt W f)
              (tryExtractPropertiesFromConstructorSource (functionAt W f) []))
    as [-> ->].
  destruct (assignPlain_spec (thisAssignments (fn_text (functionAt W f))) [])
    as [Hnames Hplain].
  split_and!.
  - rewrite getTypeSchema_uncached, schemaOfType_not_builtin by done. rewrite Harray.
    unfold processFunctionType. rewrite Hprototype.
    unfold tryExtractMetadataProperties. rewrite Hproperties, Htype.
    cbn [assignEach length Nat.eqb].
    unfold tryInstantiateAndExtractProperties. rewrite Hconstruct.
    unfold classSchema. by destruct (Nat.ltb 0 _).
  - intros name. unfold tryExtractPropertiesFromConstructorSource.
    rewrite Hnames, elem_of_nil. tauto.
  - by apply Hplain.
Qed.

Lemma getTypeSchema_constructor_source_witness :
  exists schema,
    getTypeSchema accountWorld 1 (VFunction 0) []
    = Returned schema (cacheSet (VFunction 0) schema
                         (cacheSet (VFunction 0) plainObjectSchema []))
    /\ (forall name, name ∈ propertyNames schema
                     <-> name ∈ ["owner"; "balance"] /\ name <> "__proto__")
    /\ Forall (fun entry => snd entry = plainObjectSchema) (schemaProperties schema).
Proof.
  exact (getTypeSchema_constructor_source accountWorld 0 0 []
           eq_refl eq_refl eq_refl eq_refl eq_refl eq_refl).
Defined.

Lemma functionParameters_kept funcString :
  Forall (fun param => param <> "" /\ includes "=" param = false)
         (functionParameters funcString).
Proof.
  unfold functionParameters. destruct (firstParenGroup funcString) as [group |]; [| done].
  destruct (String.eqb group ""); [done |].
  apply Forall_forall. intros param [Hkept _]%list_elem_of_filter.
  apply andb_true_iff in Hkept as [Hnonempty Hdefault].
  apply negb_true_iff in Hnonempty, Hdefault. split; [| done].
  by apply String.eqb_neq.
Qed.

(** X27 — A function without prototype (an arrow function) used as a
    type descriptor is described by its parameter list: the properties of
    its schema are the names between the first pair of parentheses of
    its text, split at commas and trimmed, without the empty ones,
    without the parameters that have a default value and without
    [__proto__], whose assignment creates no property, each typed
    [{type:'object'}]. *)
Theorem getTypeSchema_function_parameters (W : World) (fuel : nat) (f : nat) (c : Cache) :
  fn_prototype (functionAt W f) = false ->
  isArrayType W (VFunction f) = false ->
  cacheGet (VFunction f) c = None ->
  exists schema,
    getTypeSchema W (S fuel) (VFunction f) c
    = Returned schema (cacheSet (VFunction f) schema
                         (cacheSet (VFunction f) plainObjectSchema c))
    /\ (forall name, name ∈ propertyNames schema
                     <-> name ∈ functionParameters (fn_text (functionAt W f))
                         /\ name <> "__proto__")
    /\ Forall (fun entry => snd entry = plainObjectSchema
                            /\ fst entry <> "" /\ includes "=" (fst entry) = false)
              (schemaProperties schema).
Proof.
  intros Hprototype Harray Hmiss.
  exists (classSchema (functionAt W f)
            (tryExtractPropertiesFromFunction (functionAt W f) [])).
  destruct (classSchema_names (functionAt W f)
              (tryExtractPropertiesFromFunction (functionAt W f) []))
    as [-> ->].
  destruct (assignPlain_spec (functionParameters (fn_text (functionAt W f))) [])
    as [Hnames Hplain].
  assert (Hin : forall name,
             name ∈ (fst <$> tryExtractPropertiesFromFunction (functionAt W f) [])
             <-> name ∈ functionParameters (fn_text (functionAt W f))
                 /\ name <> "__proto__").
  { intros name. unfold tryExtractPropertiesFromFunction. rewrite Hnames, elem_of_nil. tauto. }
  split_and!; [| done |].
  - rewrite getTypeSchema_uncached, schemaOfType_not_builtin by done. rewrite Harray.
    unfold processFunctionType. rewrite Hprototype.
    unfold classSchema. by destruct (Nat.ltb 0 _).
  - apply Forall_forall. intros [name s] Hentry. cbn [fst snd].
    split.
    + by apply (proj1 (Forall_forall _ _) (Hplain (Forall_nil_2 _)) (name, s)).
    + apply (proj1 (Forall_forall _ _)
                   (functionParameters_kept (fn_text (functionAt W f))) name).
      apply Hin, list_elem_of_fmap. by exists (name, s).
Qed.

Lemma getTypeSchema_function_parameters_witness :
  exists schema,
    getTypeSchema arrowWorld 1 (VFunction 0) []
    = Returned schema (cacheSet (VFunction 0) schema
                         (cacheSet (VFunction 0) plainObjectSchema []))
    /\ (forall name, name ∈ propertyNames schema
                     <-> name ∈ ["name"] /\ name <> "__proto__")
    /\ Forall (fun entry => snd entry = plainObjectSchema
                            /\ fst entry <> "" /\ includes "=" (fst entry) = false)
              (schemaProperties schema).
Proof.
  exact (getTypeSchema_function_parameters arrowWorld 0 0 [] eq_refl eq_refl eq_refl).
Defined.

(** ** Element types named in the text of a descriptor *)

Lemma inferTypeFromName_primitive W G typeName schema c :
  primitiveSchema typeName = Some schema ->
  inferTypeFromName W G typeName c = Returned schema c.
Proof.
  unfold primitiveSchema, inferTypeFromName.
  repeat (case_match; [by intros [= <-] |]). done.
Qed.

Lemma includes_cons sub c s : includes sub s = true -> includes sub (String c s) = true.
Proof.
  unfold includes. cbn [String.index]. destruct (String.index 0 sub s); [| done].
  by destruct (String.prefix sub (String c s)).
Qed.

Lemma stripPrefix_prefix p q s rest :
  stripPrefix (p +:+ q) s = Some rest -> String.prefix p s = true.
Proof.
  revert s. induction p as [| a p IH]; intros s; [by destruct s |].
  change (String a p +:+ q) with (String a (p +:+ q)).
  destruct s as [| b s]; [done |]. cbn [stripPrefix String.prefix].
  destruct (Ascii.eqb a b) eqn:Hab; [| done].
  apply Ascii.eqb_eq in Hab as ->. intros Hrest.
  destruct (ascii_dec b b); [by apply IH | done].
Qed.

Lemma stripPrefix_Array s rest :
  stripPrefix "Array<" s = Some rest -> includes "Array" s = true.
Proof.
  intros Hrest. apply (stripPrefix_prefix "Array" "<") in Hrest.
  destruct s as [| c s]; [done |].
  unfold includes. cbn [String.index]. by rewrite Hrest.
Qed.

Lemma matchGeneric_includes s group :
  matchGeneric s = Some group -> includes "Array" s = true.
Proof.
  induction s as [| c s IH].
  - cbn. done.
  - cbn [matchGeneric]. destruct (genericAt (String c s)) as [g |] eqn:Hat.
    + intros _. unfold genericAt in Hat.
      destruct (stripPrefix "Array<" (String c s)) as [rest |] eqn:Hrest; [| done].
      by eapply stripPrefix_Array.
    + intros Hrest. by apply includes_cons, IH.
Qed.

(** X28 — An element type named in the text: a descriptor other than a
    built-in constructor whose text contains [Array<T>], where [T] is
    the first such group and, trimmed, is one of [string], [String],
    [number], [Number], [boolean], [Boolean] or [Date], gets the array
    schema of the schema of that primitive type; the cache gains the
    entry of the descriptor only. *)
Theorem getTypeSchema_named_element_type (W : World) (fuel : nat) (type : value)
    (c : Cache) (group : string) (items : SchemaObject) :
  (forall b, type <> VBuiltin b) ->
  truthy type = true ->
  cacheGet type c = None ->
  matchGeneric (textOf W type) = Some group ->
  primitiveSchema (trim group) = Some items ->
  getTypeSchema W (S fuel) type c
  = Returned (ArraySchema items)
             (cacheSet type (ArraySchema items) (cacheSet type plainObjectSchema c)).
Proof.
  intros Hnot Htruthy Hmiss Hgroup Hprimitive.
  rewrite getTypeSchema_uncached, schemaOfType_not_builtin by done.
  unfold isArrayType. rewrite Htruthy, (matchGeneric_includes _ _ Hgroup), orb_true_r.
  unfold processArrayType. rewrite Hgroup.
  by rewrite (inferTypeFromName_primitive _ _ _ _ _ Hprimitive).
Qed.

Lemma getTypeSchema_named_element_type_witness :
  getTypeSchema sessionWorld 1 (VString "Array< Date >") []
  = Returned (ArraySchema (StringSchema (Some "date-time")))
             [(VString "Array< Date >", ArraySchema (StringSchema (Some "date-time")))].
Proof.
  refine (getTypeSchema_named_element_type sessionWorld 0 (VString "Array< Date >") []
            " Date " (StringSchema (Some "date-time")) _ eq_refl eq_refl eq_refl eq_refl).
  intros b. discriminate.
Defined.

(** ** Options of the method decorators *)

(** X29 — The [responses] of the operation of a decorated route, by the
    options of the decorator: without the key, the responses computed by
    the decorator; with the key set to a responses object, that object,
    the computed default success response being dropped; and only with
    the key present and [undefined] the default of the builder,
    [{'200': {description: 'Successful response'}}]. *)
Theorem decorated_route_responses_by_options
    (typeSchema : value -> SchemaObject)
    (successSchema : HttpMethod -> MethodReflection -> list ParameterMetadata -> SchemaObject)
    (cm : ControllerMetadata) (method : HttpMethod) (path : string)
    (options : RouteOptions) (r : MethodReflection) :
  let route := decoratedRoute typeSchema successSchema method path options r in
  op_responses (routeSpec cm route)
  = match ropt_responses options with
    | None => routeResponses successSchema method r (routeParameters typeSchema method r)
    | Some None => defaultResponses
    | Some (Some responses) => responses
    end
  /\ (route_responses route = None <-> ropt_responses options = Some None).
Proof.
  cbv zeta. unfold routeSpec, decoratedRoute. cbn [op_responses route_responses].
  destruct (ropt_responses options) as [[responses |] |]; cbn [spread default from_option id];
    (split; [done |]); split; congruence.
Qed.

Lemma decoratedRoutePath_startsWith path : startsWith "/" (decoratedRoutePath path) = true.
Proof.
  unfold decoratedRoutePath. destruct (String.eqb path "/"); [done |].
  apply withLeadingSlash_startsWith.
Qed.

(** X30 — The path of a route registered by a method decorator without
    [path] option starts with [/]: the builder's normalisation leaves it
    as it is, [registerControllers] registers it on the router as it is
    (its replacement of the empty path never applies), and it is [/]
    exactly when the decorator was given [/] or the empty string. *)
Theorem decorated_route_path_served
    (typeSchema : value -> SchemaObject)
    (successSchema : HttpMethod -> MethodReflection -> list ParameterMetadata -> SchemaObject)
    (method : HttpMethod) (path : string) (options : RouteOptions) (r : MethodReflection) :
  ropt_path options = None ->
  let route := decoratedRoute typeSchema successSchema method path options r in
  startsWith "/" (route_path route) = true
  /\ withLeadingSlash (route_path route) = route_path route
  /\ (if String.eqb (route_path route) "" then "/" else route_path route) = route_path route
  /\ (route_path route = "/" <-> path = "/" \/ path = "").
Proof.
  intros Hoption. cbv zeta. unfold decoratedRoute. cbn [route_path]. rewrite Hoption.
  cbn [spread]. pose proof (decoratedRoutePath_startsWith path) as Hslash. split_and!.
  - done.
  - unfold withLeadingSlash. by rewrite Hslash.
  - destruct (String.eqb (decoratedRoutePath path) "") eqn:Hempty; [| done].
    apply String.eqb_eq in Hempty. by rewrite Hempty in Hslash.
  - unfold decoratedRoutePath. destruct (String.eqb path "/") eqn:Hpath.
    + apply String.eqb_eq in Hpath. tauto.
    + apply String.eqb_neq in Hpath. unfold withLeadingSlash.
      destruct (startsWith "/" path) eqn:Hstart.
      * split; [tauto |]. intros [? | ->]; done.
      * destruct path as [| a path]; [tauto |]. split; [done |]. intros [? | ?]; done.
Qed.

Lemma decorated_route_path_served_witness :
  startsWith "/" (route_path getUsersRoute) = true
  /\ withLeadingSlash (route_path getUsersRoute) = route_path getUsersRoute
  /\ (if String.eqb (route_path getUsersRoute) "" then "/" else route_path getUsersRoute)
     = route_path getUsersRoute
  /\ (route_path getUsersRoute = "/" <-> "/" = "/" \/ "/" = "").
Proof.
  exact (decorated_route_path_served anySchema anySuccessSchema GET "/" noRouteOptions
           (plainHandler 0 "getUsers") eq_refl).
Defined.
